(** * ai-crawler-monitor: log parsing, bot detection and bandwidth costing

    A shallow embedding of [lib/log-parser.ts], [lib/bot-detector.ts] and
    [lib/cost-calculator.ts], with the properties of the specification that
    concern them, and of the metrics of the analysis route.

    Conventions of the embedding.
    - A JavaScript string is a [string]: a sequence of code units, here the
      code units 0..255.  Every pattern of the program is written with ASCII
      characters only, so any other code unit behaves in a pattern like a
      character that is no letter and no digit.
    - A JavaScript number is a rational [Q]: arithmetic is exact, without
      rounding and without overflow.  Where the program can produce
      [Infinity] or [NaN] the type [xnum] adds them.  This reading serves
      the properties that rounding does not change (orders, bounds, sums of
      the same terms).  Where a result depends on the rounding of doubles,
      a whole number of days or a rounded decimal, the module [Double] has
      the arithmetic of the program, and the functions concerned are
      embedded over it as well.
    - [null] and [undefined] are [None] in an [option]. *)

From Stdlib Require Import String Ascii List ZArith QArith Qround Qminmax.
From Stdlib Require Import Lqa Lia Bool.
From Stdlib Require Import Permutation DecimalString.
From stdpp Require Import gmap strings.
Import ListNotations.

Local Open Scope string_scope.
Local Open Scope list_scope.

(** ** Regular expressions

    The fragment of ECMAScript regular expressions the program uses, with the
    backtracking semantics of the language definition: a matcher takes the
    rest of the input and a continuation, and alternatives are tried left to
    right.  Every quantifier of the program (on non-space characters, on
    digits, on the characters other than a quote or a bracket) is greedy and
    ranges over a single character class. *)
Module Regex.

Inductive regex : Type :=
| Eps
| Cls (p : ascii -> bool)
| Cat (r1 r2 : regex)
| Alt (r1 r2 : regex)
| Star (p : ascii -> bool)
| Grp (n : nat) (r : regex)
| Bol
| Eol.

(** Captured groups, most recent first: group number and captured text. *)
Definition captures := list (nat * string).

(** A continuation receives the index reached, the rest of the input and
    the captures so far. *)
Definition cont := nat -> string -> captures -> option captures.

Fixpoint star (p : ascii -> bool) (k : cont) (i : nat) (s : string)
    (c : captures) : option captures :=
  match s with
  | String a s' =>
      if p a then
        match star p k (S i) s' c with
        | Some r => Some r
        | None => k i s c
        end
      else k i s c
  | EmptyString => k i s c
  end.

Fixpoint run (r : regex) (k : cont) (i : nat) (s : string)
    (c : captures) : option captures :=
  match r with
  | Eps => k i s c
  | Cls p =>
      match s with
      | String a s' => if p a then k (S i) s' c else None
      | EmptyString => None
      end
  | Cat r1 r2 => run r1 (run r2 k) i s c
  | Alt r1 r2 =>
      match run r1 k i s c with
      | Some x => Some x
      | None => run r2 k i s c
      end
  | Star p => star p k i s c
  | Grp n r1 =>
      run r1 (fun j s' c' => k j s' ((n, substring 0 (j - i) s) :: c')) i s c
  | Bol => if Nat.eqb i 0 then k i s c else None
  | Eol => match s with EmptyString => k i s c | _ => None end
  end.

(** [exec_from r i s]: try the pattern at index [i], then at the following
    indices ([s] is the input from index [i] on). *)
Fixpoint exec_from (r : regex) (i : nat) (s : string) : option captures :=
  match run r (fun _ _ c => Some c) i s [] with
  | Some c => Some c
  | None =>
      match s with
      | String _ s' => exec_from r (S i) s'
      | EmptyString => None
      end
  end.

(** [RegExp.prototype.exec] and [String.prototype.match] for a pattern
    without the [g] and [y] flags: the leftmost match, or [None]. *)
Definition exec (r : regex) (s : string) : option captures :=
  exec_from r 0 s.

(** [RegExp.prototype.test]. *)
Definition test (r : regex) (s : string) : bool :=
  match exec r s with Some _ => true | None => false end.

(** [match[n]]. *)
Fixpoint group (n : nat) (c : captures) : string :=
  match c with
  | [] => EmptyString
  | (m, t) :: c' => if Nat.eqb m n then t else group n c'
  end.

(** *** Character classes *)

Definition is_char (a b : ascii) : bool := Ascii.eqb a b.

Definition not_char (a b : ascii) : bool := negb (Ascii.eqb a b).

(** [\d] *)
Definition is_digit (a : ascii) : bool :=
  let n := nat_of_ascii a in (48 <=? n)%nat && (n <=? 57)%nat.

(** [\s] on the code units 0..255: tab, line feed, vertical tab, form
    feed, carriage return, space and no-break space. *)
Definition is_space (a : ascii) : bool :=
  let n := nat_of_ascii a in
  ((9 <=? n)%nat && (n <=? 13)%nat) || Nat.eqb n 32 || Nat.eqb n 160.

(** [\S] *)
Definition non_space (a : ascii) : bool := negb (is_space a).

(** The canonical form of a code unit under the [i] flag, compared with an
    ASCII pattern character: ASCII letters are folded to upper case, no
    other code unit folds to an ASCII character. *)
Definition canonicalize (a : ascii) : ascii :=
  let n := nat_of_ascii a in
  if (97 <=? n)%nat && (n <=? 122)%nat then ascii_of_nat (n - 32) else a.

Definition is_char_i (a b : ascii) : bool :=
  Ascii.eqb (canonicalize a) (canonicalize b).

(** *** Pattern builders *)

Definition plus (p : ascii -> bool) : regex := Cat (Cls p) (Star p).

(** A literal, character by character. *)
Fixpoint lit (s : string) : regex :=
  match s with
  | EmptyString => Eps
  | String a s' => Cat (Cls (is_char a)) (lit s')
  end.

(** A literal under the [i] flag. *)
Fixpoint liti (s : string) : regex :=
  match s with
  | EmptyString => Eps
  | String a s' => Cat (Cls (is_char_i a)) (liti s')
  end.

Fixpoint seq (rs : list regex) : regex :=
  match rs with
  | [] => Eps
  | r :: rs' => Cat r (seq rs')
  end.

(** [r1|r2|...|rn], for a list that is not empty. *)
Fixpoint alts (r : regex) (rs : list regex) : regex :=
  match rs with
  | [] => r
  | r' :: rs' => Alt r (alts r' rs')
  end.

End Regex.

(** ** Values shared by the modules *)

(** The string literal types of the program. *)
Inductive Category : Type :=
| ai_training | ai_scraper | ai_search | search_engine | social_media
| seo_tool | scraper | monitoring | security.

Inductive Severity : Type := low | medium | high | critical.

Inductive Action : Type := allow | rate_limit | block.

Definition Category_str (c : Category) : string :=
  match c with
  | ai_training => "ai_training"
  | ai_scraper => "ai_scraper"
  | ai_search => "ai_search"
  | search_engine => "search_engine"
  | social_media => "social_media"
  | seo_tool => "seo_tool"
  | scraper => "scraper"
  | monitoring => "monitoring"
  | security => "security"
  end.

Definition Severity_str (s : Severity) : string :=
  match s with
  | low => "low"
  | medium => "medium"
  | high => "high"
  | critical => "critical"
  end.

Definition Action_str (a : Action) : string :=
  match a with
  | allow => "allow"
  | rate_limit => "rate_limit"
  | block => "block"
  end.

(** The line feed of the string literals. *)
Definition nl : string := String (ascii_of_nat 10) EmptyString.

(** ** lib/bot-detector.ts *)

Module BotSignature.
Record t : Type := mk {
  pattern : Regex.regex;
  category : Category;
  severity : Severity;
  description : string;
  recommendation : Action;
  rateLimit : option Z
}.
End BotSignature.

Module BotDetectionResult.
Record t : Type := mk {
  isBot : bool;
  botName : option string;
  category : option string;
  severity : option string;
  description : option string;
  recommendation : option string;
  confidence : Q
}.
End BotDetectionResult.

Module BotDetector.
Import Regex.

Definition sig := BotSignature.mk.

(** The registry, in the order of its declaration.  The program builds a
    [Map] from these pairs; the names are pairwise distinct, so the
    entries of the map are these pairs in this order. *)
Definition signatures : list (string * BotSignature.t) :=
  [ ("GPTBot",
     sig (seq [liti "GPTBot/"; plus is_digit; liti "."; plus is_digit])
       ai_training high "OpenAI GPT training crawler" rate_limit (Some 10%Z));
    ("ChatGPT-User",
     sig (liti "ChatGPT-User")
       ai_training high "ChatGPT web browsing" rate_limit (Some 20%Z));
    ("Claude-Web",
     sig (liti "Claude-Web")
       ai_training high "Anthropic Claude crawler" rate_limit (Some 10%Z));
    ("anthropic-ai",
     sig (liti "anthropic-ai")
       ai_training high "Anthropic AI bot" rate_limit None);
    ("Cohere-ai",
     sig (liti "cohere-ai")
       ai_training medium "Cohere AI training bot" rate_limit None);
    ("PerplexityBot",
     sig (liti "PerplexityBot")
       ai_search medium "Perplexity AI search engine" rate_limit (Some 30%Z));
    ("YouBot",
     sig (liti "YouBot")
       ai_search medium "You.com search bot" rate_limit None);
    ("Googlebot",
     sig (liti "Googlebot")
       search_engine low "Google search crawler" allow None);
    ("bingbot",
     sig (liti "bingbot")
       search_engine low "Bing search crawler" allow None);
    ("Baiduspider",
     sig (liti "Baiduspider")
       search_engine low "Baidu search crawler" rate_limit (Some 20%Z));
    ("YandexBot",
     sig (liti "YandexBot")
       search_engine low "Yandex search crawler" rate_limit None);
    ("DuckDuckBot",
     sig (liti "DuckDuckBot")
       search_engine low "DuckDuckGo search crawler" allow None);
    ("CCBot",
     sig (liti "CCBot")
       ai_scraper critical "Common Crawl bot - Very aggressive" block None);
    ("Bytespider",
     sig (liti "Bytespider")
       ai_scraper critical "ByteDance aggressive crawler" block None);
    ("PetalBot",
     sig (liti "PetalBot")
       scraper high "Huawei Petal search crawler" block None);
    ("MJ12bot",
     sig (liti "MJ12bot")
       scraper critical
       "Majestic SEO crawler - Known for aggressive crawling" block None);
    ("DataForSeoBot",
     sig (liti "DataForSeoBot")
       ai_scraper high "SEO data scraper" block None);
    ("SemrushBot",
     sig (liti "SemrushBot")
       seo_tool medium "Semrush SEO analysis" rate_limit (Some 15%Z));
    ("AhrefsBot",
     sig (liti "AhrefsBot")
       seo_tool medium "Ahrefs SEO crawler" rate_limit (Some 15%Z));
    ("Screaming Frog",
     sig (liti "Screaming Frog SEO Spider")
       seo_tool medium "SEO audit tool" rate_limit None);
    ("facebookexternalhit",
     sig (liti "facebookexternalhit")
       social_media low "Facebook link preview" allow None);
    ("Twitterbot",
     sig (liti "Twitterbot")
       social_media low "Twitter/X link preview" allow None);
    ("LinkedInBot",
     sig (liti "LinkedInBot")
       social_media low "LinkedIn link preview" allow None);
    ("WhatsApp",
     sig (liti "WhatsApp")
       social_media low "WhatsApp link preview" allow None);
    ("Slackbot",
     sig (liti "Slackbot")
       social_media low "Slack link preview" allow None);
    ("UptimeRobot",
     sig (liti "UptimeRobot")
       monitoring low "Uptime monitoring service" allow None);
    ("Pingdom",
     sig (liti "Pingdom")
       monitoring low "Website monitoring" allow None) ].

(** The result of a missing or unmatched user agent. *)
Definition not_a_bot : BotDetectionResult.t :=
  BotDetectionResult.mk false None None None None None 1%Q.

(** The result for the registry entry [name], [s]. *)
Definition known_bot (name : string) (s : BotSignature.t)
    : BotDetectionResult.t :=
  BotDetectionResult.mk true (Some name)
    (Some (Category_str (BotSignature.category s)))
    (Some (Severity_str (BotSignature.severity s)))
    (Some (BotSignature.description s))
    (Some (Action_str (BotSignature.recommendation s)))
    (95 # 100)%Q.

(** The first loop of [detect]: the entries in order, returning at the
    first pattern that matches. *)
Fixpoint detect_known (entries : list (string * BotSignature.t))
    (userAgent : string) : option BotDetectionResult.t :=
  match entries with
  | [] => None
  | (name, s) :: rest =>
      if test (BotSignature.pattern s) userAgent
      then Some (known_bot name s)
      else detect_known rest userAgent
  end.

Definition genericPatterns : list (regex * Q) :=
  [ (alts (liti "bot")
       [liti "crawler"; liti "spider"; liti "scraper"; liti "crawl"],
     (8 # 10)%Q);
    (alts (liti "python-requests")
       [liti "urllib"; liti "wget"; liti "curl"; liti "axios"],
     (7 # 10)%Q);
    (alts (liti "headless")
       [liti "phantom"; liti "puppeteer"; liti "playwright"],
     (9 # 10)%Q) ].

Definition unknown_bot (confidence : Q) : BotDetectionResult.t :=
  BotDetectionResult.mk true (Some "Unknown Bot") (Some "scraper")
    (Some "medium") (Some "Unidentified bot or scraper")
    (Some "rate_limit") confidence.

(** The second loop of [detect]. *)
Fixpoint detect_generic (ps : list (regex * Q)) (userAgent : string)
    : option BotDetectionResult.t :=
  match ps with
  | [] => None
  | (pattern, confidence) :: rest =>
      if test pattern userAgent
      then Some (unknown_bot confidence)
      else detect_generic rest userAgent
  end.

(** [!userAgent]: true of [null], [undefined] and the empty string. *)
Definition falsy (userAgent : option string) : bool :=
  match userAgent with
  | None => true
  | Some s => String.eqb s EmptyString
  end.

(** [detect].  The argument is an [option]: callers written in
    JavaScript can pass [null] or [undefined]. *)
Definition detect (userAgent : option string) : BotDetectionResult.t :=
  match userAgent with
  | None => not_a_bot
  | Some ua =>
      if falsy userAgent then not_a_bot
      else
        match detect_known signatures ua with
        | Some r => r
        | None =>
            match detect_generic genericPatterns ua with
            | Some r => r
            | None => not_a_bot
            end
        end
  end.

Definition detectBatch (userAgents : list (option string))
    : list BotDetectionResult.t :=
  map detect userAgents.

(** [generateRobotsTxt].  The text carries the time of its generation:
    [generated] is the value of [new Date().toISOString()] at the call.
    [rateLimitedBots] lists the entries of the map in their order; the
    conversion of a delay to text in the template literal is
    [Number_toString]. *)
Section RobotsTxt.
Variable Number_toString : Q -> string.

Definition blocked_entry (content bot : string) : string :=
  let content := content +:+ ("User-agent: " +:+ bot +:+ nl) in
  content +:+ ("Disallow: /" +:+ nl +:+ nl).

Definition rate_limited_entry (content : string) (e : string * Q)
    : string :=
  let '(bot, delay) := e in
  let content := content +:+ ("User-agent: " +:+ bot +:+ nl) in
  let content :=
    content +:+ ("Crawl-delay: " +:+ Number_toString delay +:+ nl) in
  content +:+ ("Allow: /" +:+ nl +:+ nl).

Definition generateRobotsTxt (generated : string)
    (blockedBots : list string) (rateLimitedBots : list (string * Q))
    : string :=
  let content := "# AI Crawler Monitor - Generated robots.txt" +:+ nl in
  let content :=
    content +:+ ("# Generated: " +:+ generated +:+ nl +:+ nl) in
  let content := content +:+ ("# Search Engines (Allowed)" +:+ nl) in
  let content := content +:+ ("User-agent: Googlebot" +:+ nl) in
  let content := content +:+ ("Allow: /" +:+ nl +:+ nl) in
  let content := content +:+ ("User-agent: bingbot" +:+ nl) in
  let content := content +:+ ("Allow: /" +:+ nl +:+ nl) in
  let content :=
    if (0 <? length blockedBots)%nat then
      fold_left blocked_entry blockedBots
        (content +:+ ("# Blocked Bots" +:+ nl))
    else content in
  let content :=
    if (0 <? length rateLimitedBots)%nat then
      fold_left rate_limited_entry rateLimitedBots
        (content +:+ ("# Rate Limited Bots" +:+ nl))
    else content in
  let content := content +:+ ("# Default" +:+ nl) in
  let content := content +:+ ("User-agent: *" +:+ nl) in
  let content := content +:+ ("Allow: /" +:+ nl) in
  let content := content +:+ ("Sitemap: /sitemap.xml" +:+ nl) in
  content.
End RobotsTxt.

(** The result of [getStatistics].  The counters are natural numbers; the
    three objects are maps from a text to a count, their keys being
    ordinary property names. *)
Record Statistics : Type := mkStatistics {
  total : nat;
  bots : nat;
  humans : nat;
  byCategory : gmap string nat;
  bySeverity : gmap string nat;
  recommendations : gmap string nat
}.

(** [if (key) m[key] = (m[key] || 0) + 1]: a missing key and the empty
    text are falsy. *)
Definition tally (key : option string) (m : gmap string nat)
    : gmap string nat :=
  match key with
  | Some k =>
      if String.eqb k EmptyString then m
      else <[k := (default 0 (m !! k) + 1)%nat]> m
  | None => m
  end.

(** One turn of the loop of [getStatistics]. *)
Definition statistics_step (stats : Statistics)
    (result : BotDetectionResult.t) : Statistics :=
  if BotDetectionResult.isBot result then
    mkStatistics (total stats) (bots stats + 1)%nat (humans stats)
      (tally (BotDetectionResult.category result) (byCategory stats))
      (tally (BotDetectionResult.severity result) (bySeverity stats))
      (tally (BotDetectionResult.recommendation result)
         (recommendations stats))
  else
    mkStatistics (total stats) (bots stats) (humans stats + 1)%nat
      (byCategory stats) (bySeverity stats) (recommendations stats).

Definition getStatistics (results : list BotDetectionResult.t)
    : Statistics :=
  fold_left statistics_step results
    (mkStatistics (length results) 0 0 ∅ ∅ ∅).

End BotDetector.

(** ** JavaScript values and completions *)

#[local] Set Warnings "-register-all".

(** The values [JSON.parse] can return, with [undefined] and [NaN].
    [JObject] lists the own properties of the object. *)
Inductive JsValue : Type :=
| JUndefined
| JNull
| JBool (b : bool)
| JNumber (q : Q)
| JNaN
| JString (s : string)
| JArray (elems : list JsValue)
| JObject (props : list (string * JsValue)).

(** The outcome of an expression that can throw. *)
Inductive Completion (A : Type) : Type :=
| Returned (a : A)
| Thrown.
Arguments Returned {A} a.
Arguments Thrown {A}.

Definition bind {A B : Type} (c : Completion A) (f : A -> Completion B)
    : Completion B :=
  match c with
  | Returned a => f a
  | Thrown => Thrown
  end.

Notation "'let!' x ':=' c 'in' k" := (bind c (fun x => k))
  (at level 10, x name, c at level 100, k at level 200).

(** [try { return e } catch { return null }] *)
Definition try_or_null {A : Type} (c : Completion A) : option A :=
  match c with
  | Returned a => Some a
  | Thrown => None
  end.

Fixpoint own_property (props : list (string * JsValue)) (key : string)
    : JsValue :=
  match props with
  | [] => JUndefined
  | (k, v) :: rest => if String.eqb k key then v else own_property rest key
  end.

(** [v.key] for a key that no prototype defines: a [TypeError] on [null]
    and [undefined], the own property of an object, [undefined] on any
    other value. *)
Definition get (v : JsValue) (key : string) : Completion JsValue :=
  match v with
  | JUndefined | JNull => Thrown
  | JObject props => Returned (own_property props key)
  | _ => Returned JUndefined
  end.

(** Whether the conversion of a value to a primitive succeeds.  An object
    read from JSON has no callable own property: the conversion reaches
    [Object.prototype.toString] unless an own property hides it, and the
    conversion of an array converts its elements. *)
Fixpoint has_primitive (v : JsValue) : bool :=
  match v with
  | JArray elems => forallb has_primitive elems
  | JObject props =>
      negb (existsb (fun kv => String.eqb (fst kv) "toString") props)
  | _ => true
  end.

(** A [Date] object, known by the argument of its constructor: which time
    a text denotes when it is not in the ISO format is left to the
    implementation, and an unreadable text still gives a [Date]. *)
Inductive Date : Type := DateOf (value : JsValue).

(** [new Date(value)] *)
Definition new_Date (value : JsValue) : Completion Date :=
  if has_primitive value then Returned (DateOf value) else Thrown.

(** The source of [Math.random]: the draws of the run and the number of
    draws consumed. *)
Record World : Type := mkWorld {
  draws : nat -> Q;
  consumed : nat
}.

Definition Math_random (w : World) : Q * World :=
  (draws w (consumed w), mkWorld (draws w) (S (consumed w))).

(** Every draw lies in the interval from 0 (included) to 1 (excluded). *)
Definition World_ok (w : World) : Prop :=
  forall n, (0 <= draws w n)%Q /\ (draws w n < 1)%Q.

(** [Math.floor] *)
Definition Math_floor (q : Q) : Q := inject_Z (Qfloor q).

(** ** parseInt *)

Definition digit_value (radix : Z) (a : ascii) : option Z :=
  let n := Z.of_nat (nat_of_ascii a) in
  let d :=
    if (48 <=? n)%Z && (n <=? 57)%Z then (n - 48)%Z
    else if (97 <=? n)%Z && (n <=? 122)%Z then (n - 87)%Z
    else if (65 <=? n)%Z && (n <=? 90)%Z then (n - 55)%Z
    else 36%Z in
  if (d <? radix)%Z then Some d else None.

(** The digits at the head of [s], read in base [radix]: the value so far
    and whether a digit was seen. *)
Fixpoint read_digits (radix : Z) (s : string) (acc : Z) (seen : bool)
    : Z * bool :=
  match s with
  | EmptyString => (acc, seen)
  | String a s' =>
      match digit_value radix a with
      | Some d => read_digits radix s' (acc * radix + d)%Z true
      | None => (acc, seen)
      end
  end.

Fixpoint trim_start (s : string) : string :=
  match s with
  | String a s' => if Regex.is_space a then trim_start s' else s
  | EmptyString => s
  end.

(** [parseInt(s)] without a radix; [None] is [NaN].  The value is exact:
    the program rounds an integer of more than 15 digits to the nearest
    number it can represent, and reads a text of more than 308 digits as
    [Infinity]. *)
Definition parseInt (s : string) : option Z :=
  let s := trim_start s in
  let '(sign, s) :=
    match s with
    | String "-" s' => ((-1)%Z, s')
    | String "+" s' => (1%Z, s')
    | _ => (1%Z, s)
    end in
  let '(radix, s) :=
    match s with
    | String "0" (String "x" s') => (16%Z, s')
    | String "0" (String "X" s') => (16%Z, s')
    | _ => (10%Z, s)
    end in
  match read_digits radix s 0%Z false with
  | (n, true) => Some (sign * n)%Z
  | (_, false) => None
  end.

Definition number_or_NaN (n : option Z) : JsValue :=
  match n with
  | Some z => JNumber (inject_Z z)
  | None => JNaN
  end.

(** ** lib/log-parser.ts *)

Module LogEntry.
(** The fields hold the values found at run time: the declared types
    ([string], [number]) are not checked when the record is built. *)
Record t : Type := mk {
  timestamp : Date;
  ip : JsValue;
  method : JsValue;
  path : JsValue;
  status : JsValue;
  bytes : JsValue;
  userAgent : JsValue;
  responseTime : JsValue
}.

Definition is_string (v : JsValue) : bool :=
  match v with JString _ => true | _ => false end.

(** A number without fractional part. *)
Definition is_integer (v : JsValue) : bool :=
  match v with
  | JNumber q => Qeq_bool q (inject_Z (Qfloor q))
  | _ => false
  end.

(** Every field holds a value of its declared type, [status] and [bytes]
    being integers. *)
Definition populated (e : t) : bool :=
  is_string (ip e) && is_string (method e) && is_string (path e)
  && is_integer (status e) && is_integer (bytes e)
  && is_string (userAgent e) && is_integer (responseTime e).
End LogEntry.

Module LogParser.
Import Regex.

Definition quote : ascii := ascii_of_nat 34.
Definition q : string := String quote EmptyString.

(** The pattern of [parseCommonLog]: the address, two fields, the time
    between brackets, the quoted request of three words, the status, the
    size, the quoted referrer and the quoted user agent. *)
Definition pattern : regex :=
  seq [ Bol;
        Grp 1 (plus non_space); lit " ";
        plus non_space; lit " ";
        plus non_space; lit " [";
        Grp 2 (plus (not_char "]")); lit "] "; lit q;
        Grp 3 (plus non_space); lit " ";
        Grp 4 (plus non_space); lit " ";
        plus non_space; lit q; lit " ";
        Grp 5 (plus is_digit); lit " ";
        Grp 6 (plus is_digit); lit " "; lit q;
        Star (not_char quote); lit q; lit " "; lit q;
        Grp 7 (Star (not_char quote)); lit q;
        Eol ].

(** [parseCommonLog]: the draw of [Math.random] is taken only when the
    line matches. *)
Definition parseCommonLog (line : string) (w : World)
    : option LogEntry.t * World :=
  match exec pattern line with
  | None => (None, w)
  | Some m =>
      let '(r, w') := Math_random w in
      (Some (LogEntry.mk
               (DateOf (JString (group 2 m)))
               (JString (group 1 m))
               (JString (group 3 m))
               (JString (group 4 m))
               (number_or_NaN (parseInt (group 5 m)))
               (number_or_NaN (parseInt (group 6 m)))
               (JString (group 7 m))
               (JNumber (Math_floor (r * 500)))),
       w')
  end.

Section Json.
(** [JSON.parse], of the language: a value, or a [SyntaxError]. *)
Variable JSON_parse : string -> Completion JsValue.

(** The body of the [try] block of [parseJsonLog]. *)
Definition parseJsonLog_body (line : string) : Completion LogEntry.t :=
  let! log := JSON_parse line in
  let! v_timestamp := get log "timestamp" in
  let! timestamp := new_Date v_timestamp in
  let! ip := get log "ip" in
  let! method := get log "method" in
  let! path := get log "path" in
  let! status := get log "status" in
  let! bytes := get log "bytes" in
  let! userAgent := get log "user_agent" in
  let! responseTime := get log "response_time" in
  Returned (LogEntry.mk timestamp ip method path status bytes userAgent
              responseTime).

Definition parseJsonLog (line : string) : option LogEntry.t :=
  try_or_null (parseJsonLog_body line).

(** [parse]: the expression
    [parseCommonLog(line) || parseJsonLog(line)] of the log-processing
    route, the only place where the two formats are tried in turn. *)
Definition parse (line : string) (w : World)
    : option LogEntry.t * World :=
  match parseCommonLog line w with
  | (Some e, w') => (Some e, w')
  | (None, w') => (parseJsonLog line, w')
  end.
End Json.

End LogParser.

(** A reader of JSON texts for the part of the grammar that has no escape
    sequence and no number with a fraction or an exponent: spaces, the three
    literals, integers, plain strings, arrays and objects.  It stands for
    [JSON.parse] on the texts of the examples; any other text is reported as
    a [SyntaxError]. *)
Module JSON.

Definition is_ws (a : ascii) : bool :=
  let n := nat_of_ascii a in
  Nat.eqb n 32 || Nat.eqb n 9 || Nat.eqb n 10 || Nat.eqb n 13.

Fixpoint skip_ws (s : string) : string :=
  match s with
  | String a s' => if is_ws a then skip_ws s' else s
  | EmptyString => s
  end.

(** The characters of a string up to the closing quote. *)
Fixpoint read_string (s : string) : option (string * string) :=
  match s with
  | EmptyString => None
  | String a s' =>
      if Ascii.eqb a LogParser.quote then Some (EmptyString, s')
      else if Ascii.eqb a "\" then None
      else if (nat_of_ascii a <? 32)%nat then None
      else
        match read_string s' with
        | Some (t, rest) => Some (String a t, rest)
        | None => None
        end
  end.

Fixpoint skip_digits (s : string) : string :=
  match s with
  | String a s' => if Regex.is_digit a then skip_digits s' else s
  | EmptyString => s
  end.

(** An optional minus sign, then a zero or a digit from 1 to 9 followed by
    digits. *)
Definition read_integer (s : string) : option (Z * string) :=
  let '(sign, body) :=
    match s with
    | String "-" s' => ((-1)%Z, s')
    | _ => (1%Z, s)
    end in
  match body with
  | String "0" rest => Some (0%Z, rest)
  | String a _ =>
      if Regex.is_digit a then
        let '(n, _) := read_digits 10 body 0%Z false in
        Some ((sign * n)%Z, skip_digits body)
      else None
  | EmptyString => None
  end.

Definition starts_with (p s : string) : option string :=
  if String.prefix p s
  then Some (substring (String.length p) (String.length s) s)
  else None.

Fixpoint set_property (props : list (string * JsValue)) (k : string)
    (v : JsValue) : list (string * JsValue) :=
  match props with
  | [] => [(k, v)]
  | (k', v') :: rest =>
      if String.eqb k' k then (k', v) :: rest
      else (k', v') :: set_property rest k v
  end.

(** [value fuel s]: a value at the head of [s] and the rest of [s]. *)
Fixpoint value (fuel : nat) (s : string) : option (JsValue * string) :=
  match fuel with
  | O => None
  | S fuel' =>
      let elements :=
        fix elements (n : nat) (s : string) (acc : list JsValue)
            : option (JsValue * string) :=
          match n with
          | O => None
          | S n' =>
              match value fuel' (skip_ws s) with
              | None => None
              | Some (v, rest) =>
                  match skip_ws rest with
                  | String "," rest' => elements n' rest' (acc ++ [v])
                  | String "]" rest' => Some (JArray (acc ++ [v]), rest')
                  | _ => None
                  end
              end
          end in
      let members :=
        fix members (n : nat) (s : string)
            (acc : list (string * JsValue)) : option (JsValue * string) :=
          match n with
          | O => None
          | S n' =>
              match skip_ws s with
              | String a s1 =>
                  if Ascii.eqb a LogParser.quote then
                    match read_string s1 with
                    | None => None
                    | Some (k, s2) =>
                        match skip_ws s2 with
                        | String ":" s3 =>
                            match value fuel' (skip_ws s3) with
                            | None => None
                            | Some (v, rest) =>
                                let acc' := set_property acc k v in
                                match skip_ws rest with
                                | String "," rest' => members n' rest' acc'
                                | String "}" rest' =>
                                    Some (JObject acc', rest')
                                | _ => None
                                end
                            end
                        | _ => None
                        end
                    end
                  else None
              | EmptyString => None
              end
          end in
      match s with
      | String "{" s' =>
          match skip_ws s' with
          | String "}" rest => Some (JObject [], rest)
          | _ => members (String.length s) s' []
          end
      | String "[" s' =>
          match skip_ws s' with
          | String "]" rest => Some (JArray [], rest)
          | _ => elements (String.length s) s' []
          end
      | String a s' =>
          if Ascii.eqb a LogParser.quote then
            match read_string s' with
            | Some (t, rest) => Some (JString t, rest)
            | None => None
            end
          else
            match starts_with "true" s, starts_with "false" s,
                  starts_with "null" s with
            | Some rest, _, _ => Some (JBool true, rest)
            | _, Some rest, _ => Some (JBool false, rest)
            | _, _, Some rest => Some (JNull, rest)
            | _, _, _ =>
                match read_integer s with
                | Some (n, rest) =>
                    match rest with
                    | String "." _ | String "e" _ | String "E" _ => None
                    | _ => Some (JNumber (inject_Z n), rest)
                    end
                | None => None
                end
            end
      | EmptyString => None
      end
  end.

Definition parse (text : string) : Completion JsValue :=
  match value (S (String.length text)) (skip_ws text) with
  | Some (v, rest) =>
      match skip_ws rest with
      | EmptyString => Returned v
      | _ => Thrown
      end
  | None => Thrown
  end.

End JSON.

(** ** Numbers with [Infinity] and [NaN] *)

Inductive xnum : Type :=
| Fin (q : Q)
| PInf
| NInf
| NaN.

(** [a - b] *)
Definition xsub (a b : xnum) : xnum :=
  match a, b with
  | NaN, _ | _, NaN => NaN
  | Fin x, Fin y => Fin (x - y)
  | Fin _, PInf => NInf
  | Fin _, NInf => PInf
  | PInf, PInf => NaN
  | PInf, _ => PInf
  | NInf, NInf => NaN
  | NInf, _ => NInf
  end.

(** [Math.min(a, b)] *)
Definition xmin (a b : xnum) : xnum :=
  match a, b with
  | NaN, _ | _, NaN => NaN
  | NInf, _ | _, NInf => NInf
  | PInf, y => y
  | x, PInf => x
  | Fin x, Fin y => Fin (Qmin x y)
  end.

(** [a / b] for finite [a] and [b]; a zero divisor is the positive zero. *)
Definition xdiv (a b : Q) : xnum :=
  if Qeq_bool b 0 then
    if Qlt_le_dec 0 a then PInf
    else if Qlt_le_dec a 0 then NInf
    else NaN
  else Fin (a / b).

(** [Math.ceil] *)
Definition xceil (a : xnum) : xnum :=
  match a with
  | Fin x => Fin (inject_Z (Qceiling x))
  | _ => a
  end.

(** ** lib/cost-calculator.ts *)

Module TierPrice.
Record t : Type := mk {
  upToGB : xnum;
  costPerGB : Q
}.
End TierPrice.

Module HostingProvider.
Record t : Type := mk {
  name : string;
  costPerGB : option Q;
  freeGBIncluded : option Q;
  tieredPricing : option (list TierPrice.t)
}.
End HostingProvider.

Module CostBreakdown.
Record Bandwidth : Type := mkBandwidth {
  gb : Q;
  cost : Q
}.

Record Requests : Type := mkRequests {
  count : Q;
  requests_cost : Q
}.

Record t : Type := mk {
  bandwidth : Bandwidth;
  requests : option Requests;
  total : Q;
  monthly : Q;
  yearly : Q
}.
End CostBreakdown.

(** The records of [calculateSavingsByCategory]. *)
Module CategoryTraffic.
Record t : Type := mk {
  category : string;
  bytesTransferred : Q;
  requestCount : Q
}.
End CategoryTraffic.

(** The records of [generateRecommendations]. *)
Module BotTraffic.
Record t : Type := mk {
  botName : string;
  category : string;
  bytesTransferred : Q;
  requestCount : Q
}.
End BotTraffic.

Module Recommendation.
Record t : Type := mk {
  action : Action;
  target : string;
  reason : string;
  savingsPerMonth : Q;
  confidence : Q
}.
End Recommendation.

Module Savings.
Record t : Type := mk {
  total : Q;
  monthly : Q;
  yearly : Q;
  byCategory : gmap string CostBreakdown.t
}.
End Savings.

Module ROI.
Record t : Type := mk {
  breakEvenDays : xnum;
  monthlySavings : Q;
  yearlySavings : Q;
  roi : xnum
}.
End ROI.

Module CostCalculator.
Local Open Scope Q_scope.

Definition tier (upTo : Q) (rate : Q) : TierPrice.t :=
  TierPrice.mk (Fin upTo) rate.

Definition last_tier (rate : Q) : TierPrice.t := TierPrice.mk PInf rate.

(** The providers, in the order of their declaration. *)
Definition providers : list (string * HostingProvider.t) :=
  [ ("aws",
     HostingProvider.mk "Amazon Web Services" None (Some 1%Q)
       (Some [ tier 10 (9 # 100); tier 40 (85 # 1000); tier 100 (7 # 100);
               tier 150 (5 # 100); last_tier (3 # 100) ]));
    ("cloudflare",
     HostingProvider.mk "Cloudflare" (Some (45 # 1000)%Q) (Some 0%Q) None);
    ("vercel",
     HostingProvider.mk "Vercel" (Some (40 # 100)%Q) (Some 100%Q) None);
    ("netlify",
     HostingProvider.mk "Netlify" (Some (55 # 100)%Q) (Some 100%Q) None);
    ("gcp",
     HostingProvider.mk "Google Cloud Platform" None None
       (Some [ tier 1 0; tier 10 (12 # 100); tier 150 (11 # 100);
               last_tier (8 # 100) ]));
    ("azure",
     HostingProvider.mk "Microsoft Azure" None None
       (Some [ tier 5 (87 # 1000); tier 10 (83 # 1000); tier 50 (7 # 100);
               tier 150 (5 # 100); last_tier (3 # 100) ]));
    ("digitalocean",
     HostingProvider.mk "DigitalOcean" (Some (1 # 100)%Q) (Some 1000%Q)
       None);
    ("generic",
     HostingProvider.mk "Generic Provider" (Some (10 # 100)%Q) (Some 0%Q)
       None) ].

Definition generic : HostingProvider.t :=
  HostingProvider.mk "Generic Provider" (Some (10 # 100)%Q) (Some 0%Q) None.

Definition botCostMultipliers : list (string * Q) :=
  [ ("ai_training", (15 # 10)%Q);
    ("ai_scraper", (18 # 10)%Q);
    ("ai_search", (12 # 10)%Q);
    ("search_engine", (5 # 10)%Q);
    ("social_media", (3 # 10)%Q);
    ("seo_tool", 1%Q);
    ("scraper", (15 # 10)%Q);
    ("unknown", 1%Q) ].

(** The value stored under [key], in a map or in an object literal. *)
Fixpoint lookup_key {A : Type} (key : string) (entries : list (string * A))
    : option A :=
  match entries with
  | [] => None
  | (k, v) :: rest => if String.eqb k key then Some v else lookup_key key rest
  end.

(** [x || d] for an optional number: [undefined] and zero are falsy. *)
Definition number_or (x : option Q) (d : Q) : Q :=
  match x with
  | Some v => if Qeq_bool v 0 then d else v
  | None => d
  end.

(** One turn of the loop of [calculateTieredCost] on the state
    (remainingGB, totalCost, previousTierLimit).  The minimum with the
    finite [remainingGB] is never [Infinity]; it is not greater than zero
    when it is [NaN] or [-Infinity]. *)
Definition tier_step (t : TierPrice.t) (st : Q * Q * xnum) : Q * Q * xnum :=
  let '(remainingGB, totalCost, previousTierLimit) := st in
  let tierGB :=
    xmin (Fin remainingGB) (xsub (TierPrice.upToGB t) previousTierLimit) in
  match tierGB with
  | Fin g =>
      if Qlt_le_dec 0 g
      then (remainingGB - g, totalCost + g * TierPrice.costPerGB t,
            TierPrice.upToGB t)
      else st
  | _ => st
  end.

(** The loop, leaving at the first turn after which nothing remains. *)
Fixpoint tier_loop (tiers : list TierPrice.t) (st : Q * Q * xnum) : Q :=
  match tiers with
  | [] => snd (fst st)
  | t :: rest =>
      let st' := tier_step t st in
      if Qlt_le_dec 0 (fst (fst st'))
      then tier_loop rest st'
      else snd (fst st')
  end.

Definition calculateTieredCost (gb : Q) (tiers : list TierPrice.t) : Q :=
  tier_loop tiers (gb, 0, Fin 0).

(** [calculateBandwidthCost]; a missing [provider] is ['generic'].  The
    allowance is subtracted when [freeGBIncluded] is truthy: present and
    not zero.  The provider ['generic'] is always found. *)
Definition calculateBandwidthCost (bytesTransferred : Q)
    (provider : option string) : CostBreakdown.t :=
  let provider := match provider with Some p => p | None => "generic" end in
  let gb := bytesTransferred / inject_Z (1024 ^ 3)%Z in
  let providerConfig :=
    match lookup_key provider providers with
    | Some c => c
    | None =>
        match lookup_key "generic" providers with
        | Some c => c
        | None => generic
        end
    end in
  let billableGB :=
    match HostingProvider.freeGBIncluded providerConfig with
    | Some free => if Qeq_bool free 0 then gb else Qmax 0 (gb - free)
    | None => gb
    end in
  let cost :=
    match HostingProvider.tieredPricing providerConfig with
    | Some tiers => calculateTieredCost billableGB tiers
    | None =>
        billableGB * number_or (HostingProvider.costPerGB providerConfig) 0
    end in
  CostBreakdown.mk (CostBreakdown.mkBandwidth gb cost) None
    cost (cost * 30) (cost * 365).

(** One turn of the loop of [calculateSavingsByCategory] on the state
    (breakdown, totalSavings).  The object [breakdown] is used as a map
    from category to cost, and [botCostMultipliers] as a map from category
    to multiplier with the default 1: the categories are ordinary property
    names, not names that objects inherit such as [constructor] and
    [__proto__]. *)
Definition savings_step (provider : option string)
    (st : gmap string CostBreakdown.t * Q) (bot : CategoryTraffic.t)
    : gmap string CostBreakdown.t * Q :=
  let '(breakdown, totalSavings) := st in
  let multiplier :=
    number_or (lookup_key (CategoryTraffic.category bot) botCostMultipliers)
      1 in
  let adjustedBytes := CategoryTraffic.bytesTransferred bot * multiplier in
  let cost := calculateBandwidthCost adjustedBytes provider in
  (<[CategoryTraffic.category bot := cost]> breakdown,
   totalSavings + CostBreakdown.total cost).

Definition calculateSavingsByCategory (botTraffic : list CategoryTraffic.t)
    (provider : option string) : Savings.t :=
  let '(breakdown, totalSavings) :=
    fold_left (savings_step provider) botTraffic (∅, 0) in
  Savings.mk totalSavings (totalSavings * 30) (totalSavings * 365)
    breakdown.

(** [calculateROI]; a missing [implementationCost] is 0. *)
Definition calculateROI (currentBotTraffic : Q) (provider : string)
    (implementationCost : option Q) : ROI.t :=
  let implementationCost :=
    match implementationCost with Some c => c | None => 0 end in
  let dailyCost := calculateBandwidthCost currentBotTraffic (Some provider) in
  let monthlySavings := CostBreakdown.monthly dailyCost in
  let yearlySavings := CostBreakdown.yearly dailyCost in
  let breakEvenDays :=
    if Qlt_le_dec 0 implementationCost
    then xceil (xdiv implementationCost (CostBreakdown.total dailyCost))
    else Fin 0 in
  let roi :=
    if Qlt_le_dec 0 implementationCost
    then Fin ((yearlySavings - implementationCost) / implementationCost
              * 100)
    else PInf in
  ROI.mk breakEvenDays monthlySavings yearlySavings roi.

(** The decimal digits of a natural number. *)
Definition digits (n : Z) : string :=
  NilZero.string_of_uint (N.to_uint (Z.to_N n)).

(** [x.toFixed(2)] for a number below 10^21: the nearest multiple of one
    hundredth, the larger one of two that are as near. *)
Definition toFixed2 (x : Q) : string :=
  let sign := if Qlt_le_dec x 0 then "-" else EmptyString in
  let a := if Qlt_le_dec x 0 then - x else x in
  let n := Qfloor (a * 100 + (1 # 2)) in
  let cents := (n mod 100)%Z in
  sign +:+ digits (n / 100)%Z +:+ "."
    +:+ (if (cents <? 10)%Z then "0" else EmptyString) +:+ digits cents.

(** The decision of [generateRecommendations] for one record: the
    recommendation pushed, if any. *)
Definition recommend (provider : option string) (bot : BotTraffic.t)
    : option Recommendation.t :=
  let cost :=
    calculateBandwidthCost (BotTraffic.bytesTransferred bot) provider in
  let monthlyCost := CostBreakdown.monthly cost in
  if String.eqb (BotTraffic.category bot) "ai_scraper"
     && (if Qlt_le_dec 10 monthlyCost then true else false)
  then
    Some (Recommendation.mk block (BotTraffic.botName bot)
            ("Aggressive scraper costing $" +:+ toFixed2 monthlyCost
             +:+ "/month with minimal SEO benefit")
            monthlyCost (95 # 100))
  else if String.eqb (BotTraffic.category bot) "ai_training"
          && (if Qlt_le_dec 50 monthlyCost then true else false)
  then
    Some (Recommendation.mk rate_limit (BotTraffic.botName bot)
            "AI training bot consuming excessive bandwidth. Rate limiting can reduce costs by 70%"
            (monthlyCost * (7 # 10)) (85 # 100))
  else if String.eqb (BotTraffic.category bot) "search_engine"
  then
    Some (Recommendation.mk allow (BotTraffic.botName bot)
            "Essential for SEO and organic traffic" 0 1)
  else if String.eqb (BotTraffic.category bot) "seo_tool"
          && (if Qlt_le_dec 20 monthlyCost then true else false)
  then
    Some (Recommendation.mk rate_limit (BotTraffic.botName bot)
            "SEO tool with high bandwidth usage. Consider rate limiting to reduce costs"
            (monthlyCost * (5 # 10)) (75 # 100))
  else None.

(** The loop of [generateRecommendations]: [push] appends. *)
Definition push_recommendation (provider : option string)
    (recommendations : list Recommendation.t) (bot : BotTraffic.t)
    : list Recommendation.t :=
  match recommend provider bot with
  | Some r => recommendations ++ [r]
  | None => recommendations
  end.

(** [sort((a, b) => b.savingsPerMonth - a.savingsPerMonth)]: the sort of
    the language is stable, so an element stays before the elements it
    precedes whose savings are not greater. *)
Fixpoint insert_sorted (x : Recommendation.t) (l : list Recommendation.t)
    : list Recommendation.t :=
  match l with
  | [] => [x]
  | y :: l' =>
      if Qlt_le_dec (Recommendation.savingsPerMonth x)
           (Recommendation.savingsPerMonth y)
      then y :: insert_sorted x l'
      else x :: l
  end.

Fixpoint sort (l : list Recommendation.t) : list Recommendation.t :=
  match l with
  | [] => []
  | x :: l' => insert_sorted x (sort l')
  end.

Definition generateRecommendations (botTraffic : list BotTraffic.t)
    (provider : option string) : list Recommendation.t :=
  sort (fold_left (push_recommendation provider) botTraffic []).

End CostCalculator.

(** ** Double-precision numbers

    The numbers of the program are the binary floating-point numbers of 64
    bits: every operation gives the representable number nearest to the
    exact result, the one with an even significand of two that are as near,
    and an infinity beyond the largest.  A number that is not an infinity
    and not [NaN] is kept as the rational it denotes.  Zero has no sign
    here: the program tells the two zeros apart only when it divides by a
    zero that comes from a negative number. *)
Module Double.
Local Open Scope Q_scope.

(** 2 to the power [e], for any integer [e]. *)
Definition pow2 (e : Z) : Q :=
  if (0 <=? e)%Z then inject_Z (2 ^ e) else 1 # Z.to_pos (2 ^ (- e)).

(** The exponent of a positive number [a]: the greatest [e] with
    [pow2 e <= a]. *)
Definition exponent (a : Q) : Z :=
  let e := (Z.log2 (Qnum a) - Z.log2 (Zpos (Qden a)))%Z in
  if Qlt_le_dec a (pow2 e) then (e - 1)%Z else e.

(** The whole number nearest to [y], the even one of two. *)
Definition nearest_even (y : Q) : Z :=
  let f := Qfloor y in
  match Qcompare (y - inject_Z f) (1 # 2) with
  | Lt => f
  | Gt => (f + 1)%Z
  | Eq => if Z.even f then f else (f + 1)%Z
  end.

(** The double nearest to the rational [x]: 53 binary digits, the least
    exponent of the subnormal numbers, an infinity from 2^1024 on. *)
Definition round (x : Q) : xnum :=
  if Qeq_bool x 0 then Fin 0
  else
    let a := if Qlt_le_dec 0 x then x else - x in
    let u := Z.max (exponent a - 52) (-1074) in
    let r := inject_Z (nearest_even (a / pow2 u)) * pow2 u in
    if Qle_bool (pow2 1024) r
    then if Qlt_le_dec 0 x then PInf else NInf
    else Fin (Qred (if Qlt_le_dec 0 x then r else - r)).

(** The sign of a number that is not zero. *)
Definition is_positive (x : Q) : bool := if Qlt_le_dec 0 x then true else false.

(** [a + b] *)
Definition add (a b : xnum) : xnum :=
  match a, b with
  | NaN, _ | _, NaN => NaN
  | Fin x, Fin y => round (x + y)
  | PInf, NInf | NInf, PInf => NaN
  | PInf, _ | _, PInf => PInf
  | NInf, _ | _, NInf => NInf
  end.

(** [a - b] *)
Definition sub (a b : xnum) : xnum :=
  match a, b with
  | NaN, _ | _, NaN => NaN
  | Fin x, Fin y => round (x - y)
  | PInf, PInf | NInf, NInf => NaN
  | PInf, _ | _, NInf => PInf
  | NInf, _ | _, PInf => NInf
  end.

(** The infinity of the sign of [x] when [s] is true, of the other sign
    when it is not; [NaN] for zero. *)
Definition infinity (s : bool) (x : Q) : xnum :=
  if Qeq_bool x 0 then NaN
  else if Bool.eqb s (is_positive x) then PInf else NInf.

(** [a * b] *)
Definition mul (a b : xnum) : xnum :=
  match a, b with
  | NaN, _ | _, NaN => NaN
  | Fin x, Fin y => round (x * y)
  | Fin x, PInf | PInf, Fin x => infinity true x
  | Fin x, NInf | NInf, Fin x => infinity false x
  | PInf, PInf | NInf, NInf => PInf
  | PInf, NInf | NInf, PInf => NaN
  end.

(** [a / b]; a zero divisor is the positive zero. *)
Definition div (a b : xnum) : xnum :=
  match a, b with
  | NaN, _ | _, NaN => NaN
  | Fin x, Fin y => if Qeq_bool y 0 then infinity true x else round (x / y)
  | Fin _, _ => Fin 0
  | PInf, Fin y => if Qeq_bool y 0 then PInf else infinity true y
  | NInf, Fin y => if Qeq_bool y 0 then NInf else infinity false y
  | _, _ => NaN
  end.

(** [a < b] *)
Definition lt (a b : xnum) : bool :=
  match a, b with
  | NaN, _ | _, NaN => false
  | Fin x, Fin y => if Qlt_le_dec x y then true else false
  | NInf, NInf | PInf, _ => false
  | NInf, _ | _, PInf => true
  | _, NInf => false
  end.

(** [a <= b] *)
Definition le (a b : xnum) : bool :=
  match a, b with
  | NaN, _ | _, NaN => false
  | Fin x, Fin y => Qle_bool x y
  | NInf, _ | _, PInf => true
  | PInf, _ | _, NInf => false
  end.

(** [Math.min(a, b)] *)
Definition min (a b : xnum) : xnum :=
  match a, b with
  | NaN, _ | _, NaN => NaN
  | _, _ => if lt b a then b else a
  end.

(** [Math.max(a, b)] *)
Definition max (a b : xnum) : xnum :=
  match a, b with
  | NaN, _ | _, NaN => NaN
  | _, _ => if lt a b then b else a
  end.

(** [Math.ceil(a)] *)
Definition ceil (a : xnum) : xnum :=
  match a with
  | Fin x => Fin (inject_Z (Qceiling x))
  | _ => a
  end.

(** *** The cost calculator over doubles

    The functions of [lib/cost-calculator.ts] with the arithmetic of the
    program.  The tables are those of [CostCalculator]: a rate written in
    decimal digits in the source is the double nearest to it. *)

Module CostBreakdown.
Record Bandwidth : Type := mkBandwidth {
  gb : xnum;
  cost : xnum
}.

Record t : Type := mk {
  bandwidth : Bandwidth;
  total : xnum;
  monthly : xnum;
  yearly : xnum
}.
End CostBreakdown.

Module Savings.
Record t : Type := mk {
  total : xnum;
  monthly : xnum;
  yearly : xnum;
  byCategory : gmap string CostBreakdown.t
}.
End Savings.

Module ROI.
Record t : Type := mk {
  breakEvenDays : xnum;
  monthlySavings : xnum;
  yearlySavings : xnum;
  roi : xnum
}.
End ROI.

(** One turn of the loop of [calculateTieredCost] on the state
    (remainingGB, totalCost, previousTierLimit). *)
Definition tier_step (t : TierPrice.t) (st : xnum * xnum * xnum)
    : xnum * xnum * xnum :=
  let '(remainingGB, totalCost, previousTierLimit) := st in
  let tierGB := min remainingGB (sub (TierPrice.upToGB t) previousTierLimit) in
  if lt (Fin 0) tierGB
  then (sub remainingGB tierGB,
        add totalCost (mul tierGB (round (TierPrice.costPerGB t))),
        TierPrice.upToGB t)
  else st.

(** The loop, leaving at the first turn after which [remainingGB <= 0]. *)
Fixpoint tier_loop (tiers : list TierPrice.t) (st : xnum * xnum * xnum)
    : xnum :=
  match tiers with
  | [] => snd (fst st)
  | t :: rest =>
      let st' := tier_step t st in
      if le (fst (fst st')) (Fin 0)
      then snd (fst st')
      else tier_loop rest st'
  end.

Definition calculateTieredCost (gb : xnum) (tiers : list TierPrice.t)
    : xnum :=
  tier_loop tiers (gb, Fin 0, Fin 0).

(** [calculateBandwidthCost]; a missing [provider] is ['generic']. *)
Definition calculateBandwidthCost (bytesTransferred : xnum)
    (provider : option string) : CostBreakdown.t :=
  let provider := match provider with Some p => p | None => "generic" end in
  let gb := div bytesTransferred (Fin (inject_Z (1024 ^ 3)%Z)) in
  let providerConfig :=
    match CostCalculator.lookup_key provider CostCalculator.providers with
    | Some c => c
    | None =>
        match CostCalculator.lookup_key "generic" CostCalculator.providers
        with
        | Some c => c
        | None => CostCalculator.generic
        end
    end in
  let billableGB :=
    match HostingProvider.freeGBIncluded providerConfig with
    | Some free =>
        if Qeq_bool free 0 then gb else max (Fin 0) (sub gb (round free))
    | None => gb
    end in
  let cost :=
    match HostingProvider.tieredPricing providerConfig with
    | Some tiers => calculateTieredCost billableGB tiers
    | None =>
        mul billableGB
          (round
             (CostCalculator.number_or
                (HostingProvider.costPerGB providerConfig) 0))
    end in
  CostBreakdown.mk (CostBreakdown.mkBandwidth gb cost)
    cost (mul cost (Fin 30)) (mul cost (Fin 365)).

(** The property names that every object inherits. *)
Definition inherited : list string :=
  [ "__defineGetter__"; "__defineSetter__"; "__lookupGetter__";
    "__lookupSetter__"; "__proto__"; "constructor"; "hasOwnProperty";
    "isPrototypeOf"; "propertyIsEnumerable"; "toLocaleString"; "toString";
    "valueOf" ].

(** [this.botCostMultipliers[category] || 1.0] as a factor of a product.
    The table is a plain object: under an inherited name it answers with
    a function or an object, which is truthy and counts as [NaN] in the
    product. *)
Definition multiplier (category : string) : xnum :=
  match CostCalculator.lookup_key category CostCalculator.botCostMultipliers
  with
  | Some m => if Qeq_bool m 0 then Fin 1 else round m
  | None =>
      if existsb (String.eqb category) inherited then NaN else Fin 1
  end.

(** [breakdown[category] = cost] on a plain object: the name [__proto__]
    is that of an inherited setter, which stores no property. *)
Definition assign (category : string) (cost : CostBreakdown.t)
    (breakdown : gmap string CostBreakdown.t)
    : gmap string CostBreakdown.t :=
  if String.eqb category "__proto__" then breakdown
  else <[category := cost]> breakdown.

(** One turn of the loop of [calculateSavingsByCategory] on the state
    (breakdown, totalSavings); [breakdown] holds the own properties of the
    object. *)
Definition savings_step (provider : option string)
    (st : gmap string CostBreakdown.t * xnum) (bot : CategoryTraffic.t)
    : gmap string CostBreakdown.t * xnum :=
  let '(breakdown, totalSavings) := st in
  let adjustedBytes :=
    mul (Fin (CategoryTraffic.bytesTransferred bot))
      (multiplier (CategoryTraffic.category bot)) in
  let cost := calculateBandwidthCost adjustedBytes provider in
  (assign (CategoryTraffic.category bot) cost breakdown,
   add totalSavings (CostBreakdown.total cost)).

Definition calculateSavingsByCategory (botTraffic : list CategoryTraffic.t)
    (provider : option string) : Savings.t :=
  let '(breakdown, totalSavings) :=
    fold_left (savings_step provider) botTraffic (∅, Fin 0) in
  Savings.mk totalSavings (mul totalSavings (Fin 30))
    (mul totalSavings (Fin 365)) breakdown.

(** [calculateROI]; a missing [implementationCost] is 0. *)
Definition calculateROI (currentBotTraffic : xnum) (provider : string)
    (implementationCost : option xnum) : ROI.t :=
  let implementationCost :=
    match implementationCost with Some c => c | None => Fin 0 end in
  let dailyCost := calculateBandwidthCost currentBotTraffic (Some provider) in
  let monthlySavings := CostBreakdown.monthly dailyCost in
  let yearlySavings := CostBreakdown.yearly dailyCost in
  let breakEvenDays :=
    if lt (Fin 0) implementationCost
    then ceil (div implementationCost (CostBreakdown.total dailyCost))
    else Fin 0 in
  let roi :=
    if lt (Fin 0) implementationCost
    then mul (div (sub yearlySavings implementationCost) implementationCost)
           (Fin 100)
    else PInf in
  ROI.mk breakEvenDays monthlySavings yearlySavings roi.

End Double.

(** ** The metrics of the analysis route

    The computation that the route [analyze] makes from the rows that its
    query returns; the query itself is outside. *)

Module TrafficLog.
(** A row of the table of traffic logs.  A column that can be [null] is an
    [option]. *)
Record t : Type := mk {
  id : string;
  website_id : string;
  timestamp : string;
  ip_address : option string;
  user_agent : option string;
  bot_name : option string;
  is_bot : bool;
  bot_category : option string;
  bytes_transferred : option Q;
  response_time_ms : option Q;
  status_code : option Q;
  path : option string;
  method : option string
}.
End TrafficLog.

Module Analyze.
Local Open Scope Q_scope.

Record CategoryStats : Type := mkCategoryStats {
  requests : nat;
  bandwidth : Q;
  bots : list string
}.

Record PotentialSavings : Type := mkPotentialSavings {
  total : Q;
  monthly : Q;
  yearly : Q
}.

Record Metrics : Type := mkMetrics {
  totalRequests : nat;
  botRequests : nat;
  humanRequests : nat;
  aiPercentage : string;
  humanPercentage : string;
  botBandwidth : Q;
  humanBandwidth : Q;
  potentialSavings : PotentialSavings;
  botBreakdown : gmap string CategoryStats
}.

Record Response : Type := mkResponse {
  metrics : Metrics;
  logs : list TrafficLog.t
}.

(** [l.bytes_transferred || 0] *)
Definition bytes_or_zero (l : TrafficLog.t) : Q :=
  match TrafficLog.bytes_transferred l with
  | Some b => b
  | None => 0
  end.

(** [log.bot_category || 'unknown'] *)
Definition category_of (log : TrafficLog.t) : string :=
  match TrafficLog.bot_category log with
  | Some c => if String.eqb c EmptyString then "unknown" else c
  | None => "unknown"
  end.

(** [Set.prototype.add], the set being the list of its elements in the
    order of their insertion. *)
Definition set_add (name : string) (set : list string) : list string :=
  if existsb (String.eqb name) set then set else set ++ [name].

(** The function given to [reduce] for the breakdown by category. *)
Definition breakdown_step (acc : gmap string CategoryStats)
    (log : TrafficLog.t) : gmap string CategoryStats :=
  let category := category_of log in
  let entry :=
    match acc !! category with
    | Some e => e
    | None => mkCategoryStats 0 0 []
    end in
  <[category :=
      mkCategoryStats (requests entry + 1)%nat
        (bandwidth entry + bytes_or_zero log)
        (match TrafficLog.bot_name log with
         | Some name =>
             if String.eqb name EmptyString then bots entry
             else set_add name (bots entry)
         | None => bots entry
         end)]> acc.

(** [x.toFixed(1)] for a number below 10^21: the nearest multiple of one
    tenth, the larger one of two that are as near. *)
Definition toFixed1 (x : Q) : string :=
  let sign := if Qlt_le_dec x 0 then "-" else EmptyString in
  let a := if Qlt_le_dec x 0 then - x else x in
  let n := Qfloor (a * 10 + (1 # 2)) in
  sign +:+ CostCalculator.digits (n / 10)%Z +:+ "."
    +:+ CostCalculator.digits (n mod 10)%Z.

Definition number_of (n : nat) : Q := inject_Z (Z.of_nat n).

(** [((count / total) * 100).toFixed(1)], computed over doubles. *)
Definition percentage (count total : nat) : string :=
  match
    Double.mul (Double.div (Fin (number_of count)) (Fin (number_of total)))
      (Fin 100)
  with
  | Fin x => toFixed1 x
  | PInf => "Infinity"
  | NInf => "-Infinity"
  | NaN => "NaN"
  end.

(** The response of the route for the rows [logs]. *)
Definition analyze (logs : list TrafficLog.t) : Response :=
  let totalRequests := length logs in
  let botRequests := length (List.filter TrafficLog.is_bot logs) in
  let humanRequests := (totalRequests - botRequests)%nat in
  let botBytes :=
    fold_left (fun sum l => sum + bytes_or_zero l)
      (List.filter TrafficLog.is_bot logs) 0 in
  let humanBytes :=
    fold_left (fun sum l => sum + bytes_or_zero l)
      (List.filter (fun l => negb (TrafficLog.is_bot l)) logs) 0 in
  let botBreakdown :=
    fold_left breakdown_step (List.filter TrafficLog.is_bot logs) ∅ in
  let savingsPerGB := 15 # 100 in
  let botGB := botBytes / inject_Z (1024 ^ 3)%Z in
  let potentialSavings := botGB * savingsPerGB * 30 in
  mkResponse
    (mkMetrics totalRequests botRequests humanRequests
       (if (0 <? totalRequests)%nat
        then percentage botRequests totalRequests
        else "0")
       (if (0 <? totalRequests)%nat
        then percentage humanRequests totalRequests
        else "0")
       botBytes humanBytes
       (mkPotentialSavings potentialSavings potentialSavings
          (potentialSavings * 12))
       botBreakdown)
    (firstn 100 logs).

End Analyze.

(** * Vocabulary of the properties *)

(** ** Bot detector *)

(** No entry of [entries] matches the user agent. *)
Definition none_matches (entries : list (string * BotSignature.t))
    (ua : string) : Prop :=
  forall name s,
    In (name, s) entries -> Regex.test (BotSignature.pattern s) ua = false.

Definition none_matches_b (entries : list (string * BotSignature.t))
    (ua : string) : bool :=
  forallb (fun e => negb (Regex.test (BotSignature.pattern (snd e)) ua))
    entries.

(** ** Regular expressions *)

Fixpoint capture_free (r : Regex.regex) : bool :=
  match r with
  | Regex.Grp _ _ => false
  | Regex.Cat r1 r2 | Regex.Alt r1 r2 => capture_free r1 && capture_free r2
  | _ => true
  end.

Fixpoint forall_chars (p : ascii -> bool) (t : string) : bool :=
  match t with
  | EmptyString => true
  | String a t' => p a && forall_chars p t'
  end.

(** What a matcher guarantees about the captures handed to its
    continuation, given what holds of the captures it receives. *)
Definition triple (Pre : Regex.captures -> Prop) (r : Regex.regex)
    (Post : Regex.captures -> Prop) : Prop :=
  forall k i s c res,
    Pre c -> Regex.run r k i s c = Some res ->
    exists j s' c', Post c' /\ k j s' c' = Some res.

(** A text of digits that is not empty. *)
Definition digits_text (t : string) : Prop :=
  t <> EmptyString /\ forall_chars Regex.is_digit t = true.

(** ** Log parser *)

(** A line of an access log in the common format. *)
Definition sample_line : string :=
  "127.0.0.1 - - [10/Oct/2024:13:55:36 -0700] "
  +:+ LogParser.q +:+ "GET /api/data HTTP/1.1" +:+ LogParser.q
  +:+ " 200 2326 "
  +:+ LogParser.q +:+ "-" +:+ LogParser.q +:+ " "
  +:+ LogParser.q +:+ "Mozilla/5.0" +:+ LogParser.q.

(** A source of draws: 0, 1/2, 2/3, 3/4, ... *)
Definition sample_world : World :=
  mkWorld (fun n => inject_Z (Z.of_nat n) / inject_Z (Z.of_nat (S n)))%Q 0.

(** The record without any field that the JSON branch builds from an
    object without properties. *)
Definition empty_entry : LogEntry.t :=
  LogEntry.mk (DateOf JUndefined) JUndefined JUndefined JUndefined
    JUndefined JUndefined JUndefined JUndefined.

(** ** Robots policy *)

(** [String(x)] for a number without fractional part and below 10^21 in
    absolute value, the delays of the examples. *)
Definition integer_toString (x : Q) : string :=
  (if Qlt_le_dec x 0 then "-" else EmptyString)
  +:+ CostCalculator.digits (Z.abs (Qfloor x)).

(** The layout of the text, part by part. *)
Definition robots_header (generated : string) : string :=
  "# AI Crawler Monitor - Generated robots.txt" +:+ nl
  +:+ "# Generated: " +:+ generated +:+ nl +:+ nl.

Definition robots_search_engines : string :=
  "# Search Engines (Allowed)" +:+ nl
  +:+ "User-agent: Googlebot" +:+ nl +:+ "Allow: /" +:+ nl +:+ nl
  +:+ "User-agent: bingbot" +:+ nl +:+ "Allow: /" +:+ nl +:+ nl.

Definition robots_disallow (bot : string) : string :=
  "User-agent: " +:+ bot +:+ nl +:+ "Disallow: /" +:+ nl +:+ nl.

Definition robots_crawl_delay (Number_toString : Q -> string)
    (e : string * Q) : string :=
  "User-agent: " +:+ fst e +:+ nl
  +:+ "Crawl-delay: " +:+ Number_toString (snd e) +:+ nl
  +:+ "Allow: /" +:+ nl +:+ nl.

Fixpoint concat_strings (l : list string) : string :=
  match l with
  | [] => EmptyString
  | s :: l' => s +:+ concat_strings l'
  end.

Definition robots_blocked (blockedBots : list string) : string :=
  match blockedBots with
  | [] => EmptyString
  | _ => "# Blocked Bots" +:+ nl
         +:+ concat_strings (map robots_disallow blockedBots)
  end.

Definition robots_rate_limited (Number_toString : Q -> string)
    (rateLimitedBots : list (string * Q)) : string :=
  match rateLimitedBots with
  | [] => EmptyString
  | _ => "# Rate Limited Bots" +:+ nl
         +:+ concat_strings
               (map (robots_crawl_delay Number_toString) rateLimitedBots)
  end.

Definition robots_default : string :=
  "# Default" +:+ nl +:+ "User-agent: *" +:+ nl +:+ "Allow: /" +:+ nl
  +:+ "Sitemap: /sitemap.xml" +:+ nl.

(** ** Cost calculator *)

Definition nonneg_rate (t : TierPrice.t) : Prop :=
  (0 <= TierPrice.costPerGB t)%Q.

(** The bounds increase strictly, each of them finite but the last one,
    which is infinite. *)
Fixpoint increasing_from (prev : option Q) (tiers : list TierPrice.t)
    : Prop :=
  match tiers with
  | [] => False
  | t :: rest =>
      match rest with
      | [] => TierPrice.upToGB t = PInf
      | _ :: _ =>
          exists b,
            TierPrice.upToGB t = Fin b
            /\ match prev with Some p => (p < b)%Q | None => True end
            /\ increasing_from (Some b) rest
      end
  end.

(** A table of tiers as the providers declare them. *)
Definition well_formed (tiers : list TierPrice.t) : Prop :=
  increasing_from None tiers /\ Forall nonneg_rate tiers.

(** The tiers of the provider [aws]. *)
Definition aws_tiers : list TierPrice.t :=
  [ CostCalculator.tier 10 (9 # 100); CostCalculator.tier 40 (85 # 1000);
    CostCalculator.tier 100 (7 # 100); CostCalculator.tier 150 (5 # 100);
    CostCalculator.last_tier (3 # 100) ].

(** A crawler of a search engine with a traffic of 5000 GB. *)
Definition sample_search_engine : BotTraffic.t :=
  BotTraffic.mk "Googlebot" "search_engine"
    (5000 * inject_Z (1024 ^ 3))%Q 100000%Q.

(** The cost computed for one record: its bytes scaled by the multiplier
    of its category, at the provider. *)
Definition record_cost (provider : option string) (bot : CategoryTraffic.t)
    : CostBreakdown.t :=
  CostCalculator.calculateBandwidthCost
    (CategoryTraffic.bytesTransferred bot
     * CostCalculator.number_or
         (CostCalculator.lookup_key (CategoryTraffic.category bot)
            CostCalculator.botCostMultipliers) 1)%Q
    provider.

(** Two records of the category [ai_scraper] around a record of another
    category. *)
Definition sample_traffic : list CategoryTraffic.t :=
  [ CategoryTraffic.mk "ai_scraper" (inject_Z (1024 ^ 3)) 10%Q;
    CategoryTraffic.mk "seo_tool" (inject_Z (1024 ^ 3)) 10%Q;
    CategoryTraffic.mk "ai_scraper" (5 * inject_Z (1024 ^ 3))%Q 10%Q ].

(** ** Vocabulary of the further properties *)

(** The text after a repetition does not start with a character of the
    class: the repetition cannot go on. *)
Definition stops (p : ascii -> bool) (rest : string) : bool :=
  match rest with
  | EmptyString => true
  | String a _ => negb (p a)
  end.

(** A word: a text without space that is not empty. *)
Definition word (t : string) : Prop :=
  t <> EmptyString /\ forall_chars Regex.non_space t = true.

(** A line of the common log format with the given fields. *)
Definition common_log_line
    (ip ident user time method path protocol status bytes referrer
       userAgent : string) : string :=
  ip +:+ " " +:+ ident +:+ " " +:+ user +:+ " [" +:+ time +:+ "] "
  +:+ LogParser.q +:+ method +:+ " " +:+ path +:+ " " +:+ protocol
  +:+ LogParser.q +:+ " " +:+ status +:+ " " +:+ bytes +:+ " "
  +:+ LogParser.q +:+ referrer +:+ LogParser.q +:+ " "
  +:+ LogParser.q +:+ userAgent +:+ LogParser.q.

(** The number that a text of decimal digits denotes. *)
Definition decimal_value (t : string) : Z :=
  fst (read_digits 10 t 0%Z false).

(** The text with its ASCII letters in upper case. *)
Fixpoint canonical (s : string) : string :=
  match s with
  | EmptyString => EmptyString
  | String a s' => String (Regex.canonicalize a) (canonical s')
  end.

(** A class that does not tell a letter from its other case. *)
Definition ci_class (p : ascii -> bool) : Prop :=
  forall b, p (Regex.canonicalize b) = p b.

(** A pattern whose classes are all of that kind. *)
Fixpoint ci_regex (r : Regex.regex) : Prop :=
  match r with
  | Regex.Cls p | Regex.Star p => ci_class p
  | Regex.Cat r1 r2 | Regex.Alt r1 r2 => ci_regex r1 /\ ci_regex r2
  | Regex.Grp _ r1 => ci_regex r1
  | _ => True
  end.

(** Whether a match was found. *)
Definition matched {A : Type} (x : option A) : bool :=
  match x with Some _ => true | None => false end.

(** Two continuations that succeed on the same inputs up to letter case. *)
Definition same_success (k k' : Regex.cont) : Prop :=
  forall i s s' c c',
    canonical s = canonical s' -> matched (k i s c) = matched (k' i s' c').

(** What [parseJsonLog] does with the outcome of [JSON.parse]. *)
Definition json_rejected (c : Completion JsValue) : Prop :=
  match c with
  | Thrown => True
  | Returned JNull | Returned JUndefined => True
  | Returned (JObject props) =>
      has_primitive (own_property props "timestamp") = false
  | Returned _ => False
  end.

(** The number of results that satisfy a test. *)
Fixpoint count_results (f : BotDetectionResult.t -> bool)
    (results : list BotDetectionResult.t) : nat :=
  match results with
  | [] => 0
  | r :: rest => ((if f r then 1 else 0) + count_results f rest)%nat
  end.

(** The result is a bot and its field holds the text [c]. *)
Definition bot_with (field : BotDetectionResult.t -> option string)
    (c : string) (r : BotDetectionResult.t) : bool :=
  BotDetectionResult.isBot r
  && match field r with
     | Some k => String.eqb k c
     | None => false
     end.

(** The sum of the counts of a map. *)
Definition sum_counts (m : gmap string nat) : nat :=
  map_fold (fun _ n acc => (n + acc)%nat) 0%nat m.

(** The field holds a text that is not empty. *)
Definition truthy (k : option string) : Prop :=
  exists t, k = Some t /\ t <> EmptyString.

(** The price of a volume by bands: each tier bills at its rate the part of
    the volume between the bound before it and its own bound, the last tier
    everything above the bound before it. *)
Fixpoint tiered_bands (prev gb : Q) (tiers : list TierPrice.t) : Q :=
  match tiers with
  | [] => 0
  | t :: rest =>
      match TierPrice.upToGB t with
      | Fin b =>
          TierPrice.costPerGB t * Qmax 0 (Qmin gb b - prev)
          + tiered_bands b gb rest
      | _ => TierPrice.costPerGB t * Qmax 0 (gb - prev)
      end
  end%Q.

(** A provider whose rates and allowance are not negative. *)
Definition provider_ok (cfg : HostingProvider.t) : Prop :=
  match HostingProvider.tieredPricing cfg with
  | Some tiers => Forall nonneg_rate tiers
  | None => True
  end
  /\ (0 <= CostCalculator.number_or (HostingProvider.costPerGB cfg) 0)%Q
  /\ match HostingProvider.freeGBIncluded cfg with
     | Some free => (0 <= free)%Q
     | None => True
     end.

(** The number of bytes of a gigabyte. *)
Definition GB : Q := inject_Z (1024 ^ 3).

(** The configuration that [calculateBandwidthCost] uses. *)
Definition config_of (provider : option string) : HostingProvider.t :=
  let provider := match provider with Some p => p | None => "generic" end in
  match CostCalculator.lookup_key provider CostCalculator.providers with
  | Some c => c
  | None =>
      match CostCalculator.lookup_key "generic" CostCalculator.providers with
      | Some c => c
      | None => CostCalculator.generic
      end
  end.

(** A list of recommendations in the order of decreasing savings. *)
Fixpoint descending (l : list Recommendation.t) : Prop :=
  match l with
  | [] => True
  | x :: rest =>
      (forall y, In y rest ->
                 (Recommendation.savingsPerMonth y
                  <= Recommendation.savingsPerMonth x)%Q)
      /\ descending rest
  end.

(** The recommendations whose savings are the number [v]. *)
Definition with_savings (v : Q) (l : list Recommendation.t)
    : list Recommendation.t :=
  List.filter (fun r => Qeq_bool (Recommendation.savingsPerMonth r) v) l.

(** The monthly cost of the traffic of a bot, as [generateRecommendations]
    computes it: without the multiplier of the category. *)
Definition monthly_cost (provider : option string) (bot : BotTraffic.t) : Q :=
  CostBreakdown.monthly
    (CostCalculator.calculateBandwidthCost (BotTraffic.bytesTransferred bot)
       provider).

(** The record meets one of the four rules. *)
Definition meets_rule (provider : option string) (bot : BotTraffic.t)
    : Prop :=
  (BotTraffic.category bot = "ai_scraper"
   /\ (10 < monthly_cost provider bot)%Q)
  \/ (BotTraffic.category bot = "ai_training"
      /\ (50 < monthly_cost provider bot)%Q)
  \/ BotTraffic.category bot = "search_engine"
  \/ (BotTraffic.category bot = "seo_tool"
      /\ (20 < monthly_cost provider bot)%Q).

(** The sum of a list of numbers. *)
Fixpoint sum_Q (l : list Q) : Q :=
  match l with
  | [] => 0
  | x :: rest => x + sum_Q rest
  end%Q.

(** The multiplier of a category, 1 when the table has none. *)
Definition multiplier (category : string) : Q :=
  CostCalculator.number_or
    (CostCalculator.lookup_key category CostCalculator.botCostMultipliers) 1.

(** The text [t] is what the pattern consumes when [rest] is what remains
    of the input after it. *)
Fixpoint derives (r : Regex.regex) (t rest : string) : Prop :=
  match r with
  | Regex.Eps => t = EmptyString
  | Regex.Cls p => exists a, t = String a EmptyString /\ p a = true
  | Regex.Cat r1 r2 =>
      exists t1 t2,
        t = t1 +:+ t2 /\ derives r1 t1 (t2 +:+ rest) /\ derives r2 t2 rest
  | Regex.Alt r1 r2 => derives r1 t rest \/ derives r2 t rest
  | Regex.Star p => forall_chars p t = true
  | Regex.Grp _ r1 => derives r1 t rest
  | Regex.Bol => t = EmptyString
  | Regex.Eol => t = EmptyString /\ rest = EmptyString
  end.

Fixpoint last_char (s : string) : option ascii :=
  match s with
  | EmptyString => None
  | String a EmptyString => Some a
  | String _ s' => last_char s'
  end.

Definition first_char (s : string) : option ascii :=
  match s with
  | EmptyString => None
  | String a _ => Some a
  end.

(** A pattern that consumes a text ending with a double quote, up to the
    end of the input. *)
Definition ends_quoted (r : Regex.regex) : Prop :=
  forall t rest,
    derives r t rest ->
    rest = EmptyString /\ last_char t = Some LogParser.quote.

(** The carriage return. *)
Definition cr : string := String (ascii_of_nat 13) EmptyString.

(** The property names that every object inherits.  An object that the
    program uses as a map answers for them although nothing was stored. *)
Definition inherited_names : list string :=
  [ "__defineGetter__"; "__defineSetter__"; "__lookupGetter__";
    "__lookupSetter__"; "__proto__"; "constructor"; "hasOwnProperty";
    "isPrototypeOf"; "propertyIsEnumerable"; "toLocaleString"; "toString";
    "valueOf" ].

(** The key is an ordinary property name: no object inherits it. *)
Definition ordinary (k : string) : bool :=
  negb (existsb (String.eqb k) inherited_names).

(** Every row of a bot has a category that is an ordinary property name. *)
Definition ordinary_categories (logs : list TrafficLog.t) : bool :=
  forallb
    (fun l => negb (TrafficLog.is_bot l) || ordinary (Analyze.category_of l))
    logs.

(** The rows of the bots of the category [c]. *)
Definition bots_of_category (c : string) (logs : list TrafficLog.t)
    : list TrafficLog.t :=
  List.filter
    (fun l => TrafficLog.is_bot l && String.eqb (Analyze.category_of l) c)
    logs.

(** The entry of a category after one more row. *)
Definition count_row (e : Analyze.CategoryStats) (log : TrafficLog.t)
    : Analyze.CategoryStats :=
  Analyze.mkCategoryStats (Analyze.requests e + 1)%nat
    (Analyze.bandwidth e + Analyze.bytes_or_zero log)%Q
    (match TrafficLog.bot_name log with
     | Some name =>
         if String.eqb name EmptyString then Analyze.bots e
         else Analyze.set_add name (Analyze.bots e)
     | None => Analyze.bots e
     end).

(** The row names the bot [name]. *)
Definition names (name : string) (l : TrafficLog.t) : Prop :=
  TrafficLog.bot_name l = Some name /\ name <> EmptyString.

(** The requests of all the categories of a breakdown. *)
Definition sum_requests (m : gmap string Analyze.CategoryStats) : nat :=
  map_fold (fun _ e acc => (Analyze.requests e + acc)%nat) 0%nat m.

(** Rows of a day: two visits of a crawler, a visitor, a bot that the
    detector could not name. *)
Definition sample_logs : list TrafficLog.t :=
  [ TrafficLog.mk "1" "site" "2024-10-10T13:55:36Z" None None
      (Some "GPTBot") true (Some "ai_training") (Some 2048%Q) None None
      None None;
    TrafficLog.mk "2" "site" "2024-10-10T13:55:37Z" None None
      None false None (Some 512%Q) None None None None;
    TrafficLog.mk "3" "site" "2024-10-10T13:55:38Z" None None
      (Some "GPTBot") true (Some "ai_training") None None None None None;
    TrafficLog.mk "4" "site" "2024-10-10T13:55:39Z" None None
      None true None (Some 100%Q) None None None None ].

(** The cost computed over doubles for one record: its bytes times the
    multiplier of its category, at the provider. *)
Definition double_record_cost (provider : option string)
    (bot : CategoryTraffic.t) : Double.CostBreakdown.t :=
  Double.calculateBandwidthCost
    (Double.mul (Fin (CategoryTraffic.bytesTransferred bot))
       (Double.multiplier (CategoryTraffic.category bot)))
    provider.

(** Two records of the category [__proto__]. *)
Definition proto_traffic : list CategoryTraffic.t :=
  [ CategoryTraffic.mk "__proto__" (inject_Z (1024 ^ 3)) 1%Q;
    CategoryTraffic.mk "__proto__" (2 * inject_Z (1024 ^ 3))%Q 1%Q ].

(** * Properties *)

(** ** Bot detector *)

Section DetectorFacts.
Import Regex BotDetector.

Lemma none_matches_b_spec entries ua :
  none_matches_b entries ua = true -> none_matches entries ua.
Proof.
  unfold none_matches_b, none_matches. intros Hb name s Hin.
  rewrite forallb_forall in Hb. specialize (Hb (name, s) Hin).
  simpl in Hb. now apply negb_true_iff in Hb.
Qed.

Lemma detect_known_none entries ua :
  none_matches entries ua -> detect_known entries ua = None.
Proof.
  induction entries as [|[name s] rest IH]; intros Hnone; simpl.
  - reflexivity.
  - rewrite (Hnone name s) by (left; reflexivity).
    apply IH. intros n' s' Hin. apply (Hnone n' s'). now right.
Qed.

Lemma detect_known_first pre name s post ua :
  none_matches pre ua ->
  test (BotSignature.pattern s) ua = true ->
  detect_known (pre ++ (name, s) :: post) ua = Some (known_bot name s).
Proof.
  induction pre as [|[n0 s0] pre IH]; intros Hnone Hs; simpl.
  - now rewrite Hs.
  - rewrite (Hnone n0 s0) by (left; reflexivity).
    apply IH; [|exact Hs].
    intros n' s' Hin. apply (Hnone n' s'). now right.
Qed.

(** A list with a matching entry splits at its first matching entry. *)
Lemma first_match_split entries ua :
  (exists name s,
      In (name, s) entries /\ test (BotSignature.pattern s) ua = true) ->
  exists pre name s post,
    entries = pre ++ (name, s) :: post
    /\ none_matches pre ua
    /\ test (BotSignature.pattern s) ua = true.
Proof.
  induction entries as [|[n0 s0] rest IH]; intros (name & s & Hin & Hs).
  - destruct Hin.
  - destruct (test (BotSignature.pattern s0) ua) eqn:E0.
    + exists [], n0, s0, rest. repeat split; [|exact E0].
      intros ? ? [].
    + destruct Hin as [Heq | Hin].
      * inversion Heq; subst. congruence.
      * destruct IH as (pre & n1 & s1 & post & -> & Hnone & H1).
        { exists name, s. now split. }
        exists ((n0, s0) :: pre), n1, s1, post. repeat split; [|exact H1].
        intros n' s' [Heq | Hin'].
        -- inversion Heq; subst. exact E0.
        -- now apply (Hnone n' s').
Qed.

Lemma detect_known_some entries ua r :
  detect_known entries ua = Some r ->
  exists name s, In (name, s) entries /\ r = known_bot name s.
Proof.
  induction entries as [|[n0 s0] rest IH]; simpl; intros H.
  - discriminate.
  - destruct (test (BotSignature.pattern s0) ua).
    + inversion H; subst. exists n0, s0. split; [now left | reflexivity].
    + destruct (IH H) as (name & s & Hin & ->).
      exists name, s. split; [now right | reflexivity].
Qed.

Lemma detect_generic_some ps ua r :
  detect_generic ps ua = Some r ->
  exists p c, In (p, c) ps /\ r = unknown_bot c.
Proof.
  induction ps as [|[p0 c0] rest IH]; simpl; intros H.
  - discriminate.
  - destruct (test p0 ua).
    + inversion H; subst. exists p0, c0. split; [now left | reflexivity].
    + destruct (IH H) as (p & c & Hin & ->).
      exists p, c. split; [now right | reflexivity].
Qed.

Lemma detect_generic_none ps ua :
  (forall p c, In (p, c) ps -> test p ua = false) ->
  detect_generic ps ua = None.
Proof.
  induction ps as [|[p0 c0] rest IH]; intros Hnone; simpl.
  - reflexivity.
  - rewrite (Hnone p0 c0) by (left; reflexivity).
    apply IH. intros p c Hin. apply (Hnone p c). now right.
Qed.

(** Every pattern of the registry needs at least one character. *)
Lemma signatures_reject_empty : none_matches signatures EmptyString.
Proof. apply none_matches_b_spec. vm_compute. reflexivity. Qed.

Lemma falsy_some ua : falsy (Some ua) = true -> ua = EmptyString.
Proof. simpl. intros H. now apply String.eqb_eq in H. Qed.

End DetectorFacts.

(** C1.  When at least one pattern of the registry matches a user agent,
    [detect] answers with the first entry of the registry, in the order of
    its declaration, whose pattern matches: every entry before it rejects
    the user agent, and the result is a bot with the name of that entry, its
    category, severity, description and recommendation, and the confidence
    0.95.  So an entry declared earlier wins over a later one that also
    matches. *)
Theorem detect_first_signature_wins (ua : string) :
  (exists name s,
      In (name, s) BotDetector.signatures
      /\ Regex.test (BotSignature.pattern s) ua = true) ->
  exists pre name s post,
    BotDetector.signatures = pre ++ (name, s) :: post
    /\ none_matches pre ua
    /\ Regex.test (BotSignature.pattern s) ua = true
    /\ BotDetector.detect (Some ua)
       = BotDetectionResult.mk true (Some name)
           (Some (Category_str (BotSignature.category s)))
           (Some (Severity_str (BotSignature.severity s)))
           (Some (BotSignature.description s))
           (Some (Action_str (BotSignature.recommendation s)))
           (95 # 100)%Q.
Proof.
  intros Hex.
  destruct (first_match_split _ _ Hex) as (pre & name & s & post & Hsplit & Hnone & Hs).
  exists pre, name, s, post. repeat split; try assumption.
  unfold BotDetector.detect.
  destruct (BotDetector.falsy (Some ua)) eqn:Ef.
  - apply falsy_some in Ef. subst ua.
    assert (Hin : In (name, s) BotDetector.signatures).
    { rewrite Hsplit. apply in_or_app. right. now left. }
    rewrite (signatures_reject_empty name s Hin) in Hs. discriminate.
  - rewrite Hsplit at 1.
    rewrite (detect_known_first pre name s post ua Hnone Hs). reflexivity.
Qed.

(** A user agent that two patterns match, [GPTBot] (declared first) and
    [Googlebot]: the theorem applies to it. *)
Lemma detect_first_signature_wins_witness :
  exists pre name s post,
    BotDetector.signatures = pre ++ (name, s) :: post
    /\ none_matches pre "Mozilla/5.0 (compatible; Googlebot/2.1; GPTBot/1.0)"
    /\ Regex.test (BotSignature.pattern s)
         "Mozilla/5.0 (compatible; Googlebot/2.1; GPTBot/1.0)" = true
    /\ BotDetector.detect
         (Some "Mozilla/5.0 (compatible; Googlebot/2.1; GPTBot/1.0)")
       = BotDetectionResult.mk true (Some name)
           (Some (Category_str (BotSignature.category s)))
           (Some (Severity_str (BotSignature.severity s)))
           (Some (BotSignature.description s))
           (Some (Action_str (BotSignature.recommendation s)))
           (95 # 100)%Q.
Proof.
  apply (detect_first_signature_wins
           "Mozilla/5.0 (compatible; Googlebot/2.1; GPTBot/1.0)").
  exists "Googlebot".
  exists (BotSignature.mk (Regex.liti "Googlebot") search_engine low
            "Google search crawler" allow None).
  split.
  - unfold BotDetector.signatures, BotDetector.sig.
    do 7 right. left. reflexivity.
  - vm_compute. reflexivity.
Defined.

(** The first of two matching entries is the one reported. *)
Example detect_two_matches :
  BotDetectionResult.botName
    (BotDetector.detect
       (Some "Mozilla/5.0 (compatible; Googlebot/2.1; GPTBot/1.0)"))
  = Some "GPTBot".
Proof. vm_compute. reflexivity. Qed.

(** C5.  Whatever the user agent, missing and empty included, the result of
    [detect] names the bot when it reports one, and its confidence lies
    between 0 and 1. *)
Theorem detect_result_invariants (userAgent : option string) :
  (BotDetectionResult.isBot (BotDetector.detect userAgent) = true ->
   BotDetectionResult.botName (BotDetector.detect userAgent) <> None)
  /\ (0 <= BotDetectionResult.confidence (BotDetector.detect userAgent))%Q
  /\ (BotDetectionResult.confidence (BotDetector.detect userAgent) <= 1)%Q.
Proof.
  unfold BotDetector.detect.
  destruct userAgent as [ua|]; [|simpl; repeat split; [discriminate| |]; lra].
  destruct (BotDetector.falsy (Some ua));
    [simpl; repeat split; [discriminate| |]; lra|].
  destruct (BotDetector.detect_known BotDetector.signatures ua) as [r|] eqn:Ek.
  - destruct (detect_known_some _ _ _ Ek) as (name & s & _ & ->).
    simpl. repeat split; [discriminate| |]; lra.
  - destruct (BotDetector.detect_generic BotDetector.genericPatterns ua)
      as [r|] eqn:Eg.
    + destruct (detect_generic_some _ _ _ Eg) as (p & c & Hin & ->).
      simpl. split; [discriminate|].
      unfold BotDetector.genericPatterns in Hin. simpl in Hin.
      destruct Hin as [H | [H | [H | []]]]; inversion H; subst; split; lra.
    + simpl. repeat split; [discriminate| |]; lra.
Qed.

Lemma detect_result_invariants_witness :
  BotDetectionResult.botName (BotDetector.detect (Some "GPTBot/1.0")) <> None.
Proof.
  apply (proj1 (detect_result_invariants (Some "GPTBot/1.0"))).
  vm_compute. reflexivity.
Defined.

(** C6.  A missing user agent, an empty one, and one that no pattern of the
    registry and no generic pattern matches all get the same answer: not a
    bot, no name, no category, no severity, confidence 1. *)
Theorem detect_not_a_bot (userAgent : option string) :
  userAgent = None
  \/ userAgent = Some EmptyString
  \/ (exists ua,
        userAgent = Some ua
        /\ none_matches BotDetector.signatures ua
        /\ (forall p c,
               In (p, c) BotDetector.genericPatterns ->
               Regex.test p ua = false)) ->
  BotDetector.detect userAgent
  = BotDetectionResult.mk false None None None None None 1%Q.
Proof.
  intros [-> | [-> | (ua & -> & Hk & Hg)]]; try reflexivity.
  unfold BotDetector.detect.
  destruct (BotDetector.falsy (Some ua)); [reflexivity|].
  rewrite (detect_known_none _ _ Hk).
  rewrite (detect_generic_none _ _ Hg). reflexivity.
Qed.

Lemma detect_not_a_bot_witness :
  BotDetector.detect (Some "Mozilla/5.0 (Windows NT 10.0) Firefox/120.0")
  = BotDetectionResult.mk false None None None None None 1%Q.
Proof.
  apply detect_not_a_bot. right. right.
  exists "Mozilla/5.0 (Windows NT 10.0) Firefox/120.0".
  split; [reflexivity|]. split.
  - apply none_matches_b_spec. vm_compute. reflexivity.
  - intros p c Hin. unfold BotDetector.genericPatterns in Hin.
    destruct Hin as [H | [H | [H | []]]]; inversion H; subst;
      vm_compute; reflexivity.
Defined.

(** ** Log parser *)

Lemma sample_world_ok : World_ok sample_world.
Proof.
  intros n. simpl.
  assert (Hpos : (0 < inject_Z (Z.of_nat (S n)))%Q).
  { change 0%Q with (inject_Z 0). rewrite <- Zlt_Qlt. lia. }
  assert (Hn : (0 <= inject_Z (Z.of_nat n))%Q).
  { change 0%Q with (inject_Z 0). rewrite <- Zle_Qle. lia. }
  assert (Hlt : (inject_Z (Z.of_nat n) < inject_Z (Z.of_nat (S n)))%Q).
  { rewrite <- Zlt_Qlt. lia. }
  split.
  - apply Qle_shift_div_l; [exact Hpos|]. lra.
  - apply Qlt_shift_div_r; [exact Hpos|]. lra.
Qed.

Lemma floor_of_draw (r : Q) :
  (0 <= r)%Q -> (r < 1)%Q ->
  (0 <= Qfloor (r * 500) <= 499)%Z.
Proof.
  intros H0 H1. split.
  - change 0%Z with (Qfloor 0). apply Qfloor_resp_le. lra.
  - assert (H : (inject_Z (Qfloor (r * 500)) < inject_Z 500)%Q).
    { apply Qle_lt_trans with (r * 500)%Q; [apply Qfloor_le|].
      change (inject_Z 500) with 500%Q. lra. }
    rewrite <- Zlt_Qlt in H. lia.
Qed.

(** C3, as stated: two invocations in a row on the same line give the same
    record.  It fails: the second record has another response time. *)
Lemma parseCommonLog_two_invocations_differ :
  fst (LogParser.parseCommonLog sample_line sample_world)
  <> fst (LogParser.parseCommonLog sample_line
            (snd (LogParser.parseCommonLog sample_line sample_world))).
Proof. vm_compute. intros H. discriminate H. Qed.

(** C3, amended.  When [parseCommonLog] accepts a line, it accepts it
    whatever the state of the random source, and two invocations agree on
    the time stamp, the address, the method, the path, the status, the size
    and the user agent.  The response time is no fixed default: it is the
    integer part of 500 times the draw of the invocation, an integer from 0
    to 499 when the draw lies between 0 and 1. *)
Theorem parseCommonLog_deterministic_up_to_responseTime
    (line : string) (w1 w2 : World) (e1 : LogEntry.t) :
  fst (LogParser.parseCommonLog line w1) = Some e1 ->
  exists e2,
    fst (LogParser.parseCommonLog line w2) = Some e2
    /\ LogEntry.timestamp e1 = LogEntry.timestamp e2
    /\ LogEntry.ip e1 = LogEntry.ip e2
    /\ LogEntry.method e1 = LogEntry.method e2
    /\ LogEntry.path e1 = LogEntry.path e2
    /\ LogEntry.status e1 = LogEntry.status e2
    /\ LogEntry.bytes e1 = LogEntry.bytes e2
    /\ LogEntry.userAgent e1 = LogEntry.userAgent e2
    /\ LogEntry.responseTime e1
       = JNumber (Math_floor (draws w1 (consumed w1) * 500))
    /\ LogEntry.responseTime e2
       = JNumber (Math_floor (draws w2 (consumed w2) * 500))
    /\ (World_ok w1 ->
        exists n : Z,
          LogEntry.responseTime e1 = JNumber (inject_Z n)
          /\ (0 <= n <= 499)%Z).
Proof.
  unfold LogParser.parseCommonLog.
  destruct (Regex.exec LogParser.pattern line) as [m|]; simpl;
    [|discriminate].
  intros H. inversion H; subst e1; clear H.
  eexists. split; [reflexivity|]. simpl.
  repeat (split; [reflexivity|]).
  intros Hok. exists (Qfloor (draws w1 (consumed w1) * 500)).
  split; [reflexivity|].
  destruct (Hok (consumed w1)) as [H0 H1]. now apply floor_of_draw.
Qed.

Lemma parseCommonLog_deterministic_up_to_responseTime_witness :
  exists e2,
    fst (LogParser.parseCommonLog sample_line
           (mkWorld (draws sample_world) 1)) = Some e2
    /\ DateOf (JString "10/Oct/2024:13:55:36 -0700") = LogEntry.timestamp e2
    /\ JString "127.0.0.1" = LogEntry.ip e2
    /\ JString "GET" = LogEntry.method e2
    /\ JString "/api/data" = LogEntry.path e2
    /\ JNumber (inject_Z 200) = LogEntry.status e2
    /\ JNumber (inject_Z 2326) = LogEntry.bytes e2
    /\ JString "Mozilla/5.0" = LogEntry.userAgent e2
    /\ JNumber (inject_Z 0)
       = JNumber (Math_floor (draws sample_world 0 * 500))
    /\ LogEntry.responseTime e2
       = JNumber (Math_floor (draws sample_world 1 * 500))
    /\ (World_ok sample_world ->
        exists n : Z,
          JNumber (inject_Z 0) = JNumber (inject_Z n)
          /\ (0 <= n <= 499)%Z).
Proof.
  apply (parseCommonLog_deterministic_up_to_responseTime
           sample_line sample_world (mkWorld (draws sample_world) 1)
           (LogEntry.mk (DateOf (JString "10/Oct/2024:13:55:36 -0700"))
              (JString "127.0.0.1") (JString "GET") (JString "/api/data")
              (JNumber (inject_Z 200)) (JNumber (inject_Z 2326))
              (JString "Mozilla/5.0") (JNumber (inject_Z 0)))).
  vm_compute. reflexivity.
Defined.

(** C2: the line [{}] is a JSON text without any of the fields.  The common
    format rejects it, and the JSON branch returns a record, not [null]:
    its status and size are [undefined]. *)
Theorem parse_returns_unpopulated_record (w : World) :
  fst (LogParser.parseCommonLog "{}" w) = None
  /\ LogParser.parseJsonLog JSON.parse "{}" = Some empty_entry
  /\ LogParser.parse JSON.parse "{}" w = (Some empty_entry, w)
  /\ LogEntry.status empty_entry = JUndefined
  /\ LogEntry.bytes empty_entry = JUndefined
  /\ LogEntry.populated empty_entry = false.
Proof. repeat split; reflexivity. Qed.

(** A JSON line whose status is a text and which has no size: the record
    returned keeps the text as status and has no size. *)
Example parse_keeps_non_integer_status :
  LogParser.parseJsonLog JSON.parse
    ("{" +:+ LogParser.q +:+ "status" +:+ LogParser.q +:+ ":"
     +:+ LogParser.q +:+ "abc" +:+ LogParser.q +:+ "}")
  = Some (LogEntry.mk (DateOf JUndefined) JUndefined JUndefined JUndefined
            (JString "abc") JUndefined JUndefined JUndefined).
Proof. vm_compute. reflexivity. Qed.

(** The JSON text [null] is rejected: reading a property of [null]
    throws, and the exception is caught. *)
Example parse_rejects_null :
  LogParser.parseJsonLog JSON.parse "null" = None.
Proof. vm_compute. reflexivity. Qed.

(** ** Robots policy *)

Lemma append_assoc (a b c : string) : (a +:+ b) +:+ c = a +:+ (b +:+ c).
Proof.
  induction a as [|x a IH]; [reflexivity|].
  change (String x ((a +:+ b) +:+ c) = String x (a +:+ (b +:+ c))).
  now rewrite IH.
Qed.

Lemma append_empty_r (a : string) : a +:+ EmptyString = a.
Proof.
  induction a as [|x a IH]; [reflexivity|].
  change (String x (a +:+ EmptyString) = String x a). now rewrite IH.
Qed.

Lemma fold_blocked_entry (bots : list string) (content : string) :
  fold_left BotDetector.blocked_entry bots content
  = content +:+ concat_strings (map robots_disallow bots).
Proof.
  revert content. induction bots as [|bot bots IH]; intros content; simpl.
  - now rewrite append_empty_r.
  - rewrite IH. unfold BotDetector.blocked_entry, robots_disallow.
    cbn [concat_strings]. rewrite !append_assoc. reflexivity.
Qed.

Lemma fold_rate_limited_entry (toStr : Q -> string)
    (entries : list (string * Q)) (content : string) :
  fold_left (BotDetector.rate_limited_entry toStr) entries content
  = content +:+ concat_strings (map (robots_crawl_delay toStr) entries).
Proof.
  revert content.
  induction entries as [|[bot delay] entries IH]; intros content; simpl.
  - now rewrite append_empty_r.
  - rewrite IH. unfold robots_crawl_delay.
    cbn [concat_strings fst snd]. rewrite !append_assoc. reflexivity.
Qed.

(** C4, as stated: two invocations with the same arguments give the same
    text.  It fails when the clock has moved between them: the second line
    of the text carries the time of the generation. *)
Lemma generateRobotsTxt_depends_on_clock :
  BotDetector.generateRobotsTxt integer_toString "2024-10-10T13:55:36.000Z"
    ["CCBot"] [("GPTBot", 10%Q)]
  <> BotDetector.generateRobotsTxt integer_toString "2024-10-10T13:55:37.000Z"
       ["CCBot"] [("GPTBot", 10%Q)].
Proof. vm_compute. intros H. discriminate H. Qed.

(** C4, amended.  The text is a header that carries the time of the
    generation, followed by a body that the arguments alone determine: the
    allow rules of the two search engines, then, when a bot is blocked, a
    title and one disallow block per blocked bot in the order of the list,
    then, when a bot is rate limited, a title and one crawl-delay block per
    entry of the map in its order, then the default allow-all rule with the
    sitemap.  Two invocations with the same arguments and the same time of
    generation give the same text. *)
Theorem generateRobotsTxt_layout (Number_toString : Q -> string)
    (generated : string) (blockedBots : list string)
    (rateLimitedBots : list (string * Q)) :
  BotDetector.generateRobotsTxt Number_toString generated blockedBots
    rateLimitedBots
  = robots_header generated
    +:+ (robots_search_engines
         +:+ robots_blocked blockedBots
         +:+ robots_rate_limited Number_toString rateLimitedBots
         +:+ robots_default).
Proof.
  unfold BotDetector.generateRobotsTxt, robots_header, robots_search_engines,
    robots_default.
  destruct blockedBots as [|b bs]; destruct rateLimitedBots as [|e es];
    cbn [length Nat.ltb Nat.leb robots_blocked robots_rate_limited];
    rewrite ?fold_blocked_entry, ?fold_rate_limited_entry;
    rewrite ?append_assoc; reflexivity.
Qed.

(** ** Cost calculator *)

Section TieredCost.
Import CostCalculator.
Local Open Scope Q_scope.

Lemma tier_step_total_le t r tot prev :
  nonneg_rate t -> tot <= snd (fst (tier_step t (r, tot, prev))).
Proof.
  unfold nonneg_rate, tier_step. intros Hc.
  destruct (xmin (Fin r) (xsub (TierPrice.upToGB t) prev)) as [g| | |];
    simpl; try lra.
  destruct (Qlt_le_dec 0 g); simpl; [nra | lra].
Qed.

Lemma tier_loop_ge tiers :
  Forall nonneg_rate tiers ->
  forall r tot prev, tot <= tier_loop tiers (r, tot, prev).
Proof.
  induction 1 as [|t rest Ht Hrest IH]; intros r tot prev;
    cbn [tier_loop fst snd].
  - lra.
  - pose proof (tier_step_total_le t r tot prev Ht) as Hstep.
    destruct (tier_step t (r, tot, prev)) as [[r' tot'] prev'].
    cbn [fst snd] in *. destruct (Qlt_le_dec 0 r').
    + specialize (IH r' tot' prev'). lra.
    + exact Hstep.
Qed.

Lemma tier_step_mono t prev r1 r2 t1 t2 :
  nonneg_rate t -> r1 <= r2 -> t1 <= t2 ->
  snd (fst (tier_step t (r1, t1, prev)))
  <= snd (fst (tier_step t (r2, t2, prev)))
  /\ (0 < fst (fst (tier_step t (r1, t1, prev))) ->
      fst (fst (tier_step t (r1, t1, prev)))
      <= fst (fst (tier_step t (r2, t2, prev)))
      /\ snd (tier_step t (r1, t1, prev))
         = snd (tier_step t (r2, t2, prev))).
Proof.
  unfold nonneg_rate, tier_step. intros Hc Hr Ht.
  destruct (xsub (TierPrice.upToGB t) prev) as [w| | |]; simpl.
  - destruct (Q.min_spec r1 w) as [[Hlt1 He1] | [Hle1 He1]];
      destruct (Q.min_spec r2 w) as [[Hlt2 He2] | [Hle2 He2]];
      destruct (Qlt_le_dec 0 (Qmin r1 w));
      destruct (Qlt_le_dec 0 (Qmin r2 w)); simpl;
      (split; [nra | intros Hpos; split; [lra | reflexivity || lra]]).
  - destruct (Qlt_le_dec 0 r1); destruct (Qlt_le_dec 0 r2); simpl;
      (split; [nra | intros Hpos; split; [lra | reflexivity || lra]]).
  - split; [lra | intros _; split; [lra | reflexivity]].
  - split; [lra | intros _; split; [lra | reflexivity]].
Qed.

Lemma tier_loop_mono tiers :
  Forall nonneg_rate tiers ->
  forall prev r1 r2 t1 t2,
    r1 <= r2 -> t1 <= t2 ->
    tier_loop tiers (r1, t1, prev) <= tier_loop tiers (r2, t2, prev).
Proof.
  induction 1 as [|t rest Hc Hrest IH]; intros prev r1 r2 t1 t2 Hr Ht;
    cbn [tier_loop fst snd].
  - exact Ht.
  - destruct (tier_step_mono t prev r1 r2 t1 t2 Hc Hr Ht) as [Htot Hrem].
    destruct (tier_step t (r1, t1, prev)) as [[r1' t1'] p1'] eqn:E1.
    destruct (tier_step t (r2, t2, prev)) as [[r2' t2'] p2'] eqn:E2.
    cbn [fst snd] in *.
    destruct (Qlt_le_dec 0 r1') as [Hpos1 | Hneg1].
    + destruct (Hrem Hpos1) as [Hr' Hp]. subst p2'.
      destruct (Qlt_le_dec 0 r2') as [Hpos2 | Hneg2]; [|lra].
      now apply IH.
    + destruct (Qlt_le_dec 0 r2') as [Hpos2 | Hneg2]; [|exact Htot].
      pose proof (tier_loop_ge rest Hrest r2' t2' p2'). lra.
Qed.

End TieredCost.

Lemma aws_tiers_well_formed : well_formed aws_tiers.
Proof.
  split.
  - simpl. repeat (eexists; split; [reflexivity | split; [try exact I; reflexivity|]]).
    reflexivity.
  - repeat constructor; unfold nonneg_rate; simpl; lra.
Qed.

(** C7.  On a table of tiers whose bounds increase strictly up to an
    infinite last bound and whose rates are not negative, the tiered cost
    does not decrease when the volume grows; and on a table made of a single
    unbounded tier, the cost of a volume that is not negative is that volume
    times the rate of the tier (as rational numbers). *)
Theorem calculateTieredCost_monotone_and_flat :
  (forall (tiers : list TierPrice.t) (gb1 gb2 : Q),
      well_formed tiers ->
      (gb1 <= gb2)%Q ->
      (CostCalculator.calculateTieredCost gb1 tiers
       <= CostCalculator.calculateTieredCost gb2 tiers)%Q)
  /\ (forall (rate gb : Q),
         (0 <= gb)%Q ->
         (CostCalculator.calculateTieredCost gb [TierPrice.mk PInf rate]
          == gb * rate)%Q).
Proof.
  split.
  - intros tiers gb1 gb2 [_ Hrates] Hle.
    unfold CostCalculator.calculateTieredCost.
    apply tier_loop_mono; [exact Hrates | exact Hle | lra].
  - intros rate gb Hgb.
    unfold CostCalculator.calculateTieredCost. simpl.
    destruct (Qlt_le_dec 0 gb) as [Hpos | Hzero]; simpl.
    + destruct (Qlt_le_dec 0 (gb - gb)); simpl; lra.
    + assert (Hz : (gb == 0)%Q) by lra.
      destruct (Qlt_le_dec 0 gb); simpl; rewrite Hz; ring.
Qed.

Lemma calculateTieredCost_monotone_and_flat_witness :
  (CostCalculator.calculateTieredCost 5 aws_tiers
   <= CostCalculator.calculateTieredCost 50 aws_tiers)%Q
  /\ (CostCalculator.calculateTieredCost 50 [TierPrice.mk PInf (3 # 100)]
      == 50 * (3 # 100))%Q.
Proof.
  split.
  - apply (proj1 calculateTieredCost_monotone_and_flat aws_tiers 5 50)%Q.
    + exact aws_tiers_well_formed.
    + vm_compute. discriminate.
  - apply (proj2 calculateTieredCost_monotone_and_flat (3 # 100) 50)%Q.
    vm_compute. discriminate.
Defined.

Section Recommendations.
Import CostCalculator.
Local Open Scope Q_scope.

Lemma fold_push_recommendation provider bots acc :
  fold_left (push_recommendation provider) bots acc
  = acc ++ omap (recommend provider) bots.
Proof.
  revert acc. induction bots as [|bot bots IH]; intros acc; simpl.
  - now rewrite app_nil_r.
  - rewrite IH. unfold push_recommendation.
    destruct (recommend provider bot) as [r|]; simpl.
    + now rewrite <- app_assoc.
    + reflexivity.
Qed.

Lemma insert_sorted_perm x l : Permutation (insert_sorted x l) (x :: l).
Proof.
  induction l as [|y l IH]; simpl.
  - reflexivity.
  - destruct (Qlt_le_dec _ _).
    + rewrite IH. apply perm_swap.
    + reflexivity.
Qed.

Lemma sort_perm l : Permutation (sort l) l.
Proof.
  induction l as [|x l IH]; simpl.
  - reflexivity.
  - rewrite insert_sorted_perm. now constructor.
Qed.

End Recommendations.

(** C8.  The recommendations returned are, in another order, the
    recommendations decided record by record, at most one per record; and
    the decision for a record of the category [search_engine] is always one
    recommendation to allow the bot, with savings 0 and confidence 1,
    whatever its traffic and the provider: never one to block it or to limit
    its rate. *)
Theorem generateRecommendations_search_engine
    (botTraffic : list BotTraffic.t) (provider : option string) :
  Permutation
    (CostCalculator.generateRecommendations botTraffic provider)
    (omap (CostCalculator.recommend provider) botTraffic)
  /\ (forall bot : BotTraffic.t,
         BotTraffic.category bot = "search_engine" ->
         CostCalculator.recommend provider bot
         = Some (Recommendation.mk allow (BotTraffic.botName bot)
                   "Essential for SEO and organic traffic" 0%Q 1%Q)).
Proof.
  split.
  - unfold CostCalculator.generateRecommendations.
    rewrite fold_push_recommendation. simpl. apply sort_perm.
  - intros bot Hcat. unfold CostCalculator.recommend.
    rewrite Hcat. reflexivity.
Qed.

Lemma generateRecommendations_search_engine_witness :
  CostCalculator.recommend (Some "aws") sample_search_engine
  = Some (Recommendation.mk allow "Googlebot"
            "Essential for SEO and organic traffic" 0%Q 1%Q).
Proof.
  apply (proj2 (generateRecommendations_search_engine
                  [sample_search_engine] (Some "aws"))
           sample_search_engine).
  reflexivity.
Defined.

(** ** Rounding to a double *)

Section DoubleFacts.
Import Double.
Local Open Scope Q_scope.

Lemma pow2_spec (e p q : Z) :
  (0 <= p)%Z -> (0 <= q)%Z -> e = (p - q)%Z ->
  pow2 e * inject_Z (2 ^ q) == inject_Z (2 ^ p).
Proof.
  intros Hp Hq ->. unfold pow2.
  destruct (Z.leb_spec 0 (p - q)) as [He | He].
  - rewrite <- inject_Z_mult, <- Z.pow_add_r by lia.
    now replace (p - q + q)%Z with p by lia.
  - assert (Hpos : (0 < 2 ^ (- (p - q)))%Z) by (apply Z.pow_pos_nonneg; lia).
    unfold Qeq, Qmult, inject_Z. cbn [Qnum Qden].
    rewrite Pos.mul_1_r, Z.mul_1_l, Z.mul_1_r.
    rewrite Z2Pos.id by exact Hpos.
    rewrite <- Z.pow_add_r by lia. f_equal. lia.
Qed.

Lemma pow2_positive (e : Z) : 0 < pow2 e.
Proof.
  unfold pow2. destruct (Z.leb_spec 0 e) as [He | He].
  - rewrite <- (Zlt_Qlt 0). apply Z.pow_pos_nonneg; lia.
  - reflexivity.
Qed.

Lemma inject_pow2_positive (k : Z) : (0 <= k)%Z -> 0 < inject_Z (2 ^ k).
Proof.
  intros Hk. rewrite <- (Zlt_Qlt 0). apply Z.pow_pos_nonneg; lia.
Qed.

Lemma pow2_shift (e k : Z) :
  (0 <= k)%Z -> pow2 (e + k) == pow2 e * inject_Z (2 ^ k).
Proof.
  intros Hk.
  assert (H1 := pow2_spec e (Z.max e 0) (Z.max (- e) 0)
                  ltac:(lia) ltac:(lia) ltac:(lia)).
  assert (H2 := pow2_spec (e + k) (Z.max e 0 + k) (Z.max (- e) 0)
                  ltac:(lia) ltac:(lia) ltac:(lia)).
  rewrite Z.pow_add_r, inject_Z_mult in H2 by lia.
  rewrite <- H1 in H2.
  pose proof (inject_pow2_positive (Z.max (- e) 0) ltac:(lia)) as Hq.
  apply (Qmult_inj_r _ _ (inject_Z (2 ^ Z.max (- e) 0))); [lra|].
  rewrite H2. ring.
Qed.

Lemma pow2_monotone (e1 e2 : Z) : (e1 <= e2)%Z -> pow2 e1 <= pow2 e2.
Proof.
  intros H. replace e2 with (e1 + (e2 - e1))%Z by lia.
  rewrite pow2_shift by lia.
  pose proof (pow2_positive e1) as Hp.
  assert (H1 : 1 <= inject_Z (2 ^ (e2 - e1))).
  { rewrite <- (Zle_Qle 1).
    pose proof (Z.pow_pos_nonneg 2 (e2 - e1)). lia. }
  nra.
Qed.

(** The exponent of a positive number is not above its logarithm. *)
Lemma exponent_le (a : Q) : 0 < a -> pow2 (exponent a) <= a.
Proof.
  intros Ha. unfold exponent.
  destruct (Qlt_le_dec a _) as [Hlt | Hle]; [|exact Hle].
  destruct a as [n d]. cbn [Qnum Qden] in *.
  assert (Hn : (0 < n)%Z).
  { unfold Qlt in Ha. cbn in Ha. lia. }
  pose proof (Z.log2_spec n Hn) as [Hlo _].
  pose proof (Z.log2_spec (Zpos d) ltac:(lia)) as [_ Hhi].
  pose proof (Z.log2_nonneg n) as Hln.
  pose proof (Z.log2_nonneg (Zpos d)) as Hld.
  assert (Hs := pow2_spec (Z.log2 n - Z.log2 (Z.pos d) - 1) (Z.log2 n)
                  (Z.succ (Z.log2 (Z.pos d)))
                  Hln ltac:(lia) ltac:(lia)).
  pose proof (pow2_positive (Z.log2 n - Z.log2 (Z.pos d) - 1)) as Hp.
  assert (Hd : inject_Z (Zpos d) < inject_Z (2 ^ Z.succ (Z.log2 (Z.pos d))))
    by (rewrite <- Zlt_Qlt; exact Hhi).
  assert (Hn' : inject_Z (2 ^ Z.log2 n) <= inject_Z n)
    by (rewrite <- Zle_Qle; exact Hlo).
  assert (Hnd : n # d == inject_Z n / inject_Z (Zpos d))
    by (rewrite Qmake_Qdiv; reflexivity).
  rewrite Hnd. apply Qle_shift_div_l.
  - rewrite <- (Zlt_Qlt 0). lia.
  - nra.
Qed.

Lemma nearest_even_le (y : Q) (K : Z) :
  y <= inject_Z K -> (nearest_even y <= K)%Z.
Proof.
  intros Hy. unfold nearest_even.
  pose proof (Qfloor_le y) as Hf.
  assert (Hfk : (Qfloor y <= K)%Z) by (rewrite Zle_Qle; lra).
  assert (Hup : 1 # 2 <= y - inject_Z (Qfloor y) -> (Qfloor y + 1 <= K)%Z).
  { intros Hhalf.
    assert (Hlt : inject_Z (Qfloor y) < inject_Z K) by lra.
    rewrite <- Zlt_Qlt in Hlt. lia. }
  destruct (Qcompare _ _) eqn:E.
  - apply Qeq_alt in E. destruct (Z.even _); [exact Hfk | apply Hup; lra].
  - exact Hfk.
  - apply Qgt_alt in E. apply Hup. lra.
Qed.

Lemma nearest_even_ge (y : Q) (K : Z) :
  inject_Z K <= y -> (K <= nearest_even y)%Z.
Proof.
  intros Hy. unfold nearest_even.
  assert (Hfk : (K <= Qfloor y)%Z).
  { rewrite <- (Qfloor_Z K). now apply Qfloor_resp_le. }
  destruct (Qcompare _ _); [destruct (Z.even _)| |]; lia.
Qed.

(** Rounding does not cross a whole number that is a double: the double
    nearest to a positive number below [k] is not above [k]. *)
Lemma round_le_integer (x r : Q) (k : Z) :
  0 < x -> x <= inject_Z k -> (k < 2 ^ 53)%Z ->
  round x = Fin r -> r <= inject_Z k.
Proof.
  intros Hx Hk Hk53. unfold round.
  destruct (Qeq_bool x 0) eqn:E0; [apply Qeq_bool_iff in E0; lra|].
  destruct (Qlt_le_dec 0 x) as [_|]; [|lra].
  set (u := Z.max (exponent x - 52) (-1074)).
  destruct (Qle_bool _ _); [discriminate|].
  intros Hr. injection Hr as <-. rewrite Qred_correct.
  pose proof (pow2_positive u) as Hu.
  destruct (Z.le_gt_cases u 0) as [Hneg | Hpos].
  - assert (Hs := pow2_spec u 0 (- u) ltac:(lia) ltac:(lia) ltac:(lia)).
    change (inject_Z (2 ^ 0)) with 1 in Hs.
    pose proof (inject_pow2_positive (- u) ltac:(lia)) as Hq.
    assert (Hk1 : inject_Z k * inject_Z (2 ^ (- u)) * pow2 u == inject_Z k).
    { transitivity (inject_Z k * (pow2 u * inject_Z (2 ^ (- u)))); [ring|].
      rewrite Hs. ring. }
    assert (Hy : x / pow2 u <= inject_Z (k * 2 ^ (- u))).
    { rewrite inject_Z_mult. apply Qle_shift_div_r; [exact Hu|]. lra. }
    apply nearest_even_le in Hy. rewrite Zle_Qle, inject_Z_mult in Hy.
    apply (Qmult_le_compat_r _ _ (pow2 u)) in Hy; lra.
  - exfalso.
    assert (He : (53 <= exponent x)%Z) by lia.
    pose proof (exponent_le x Hx) as Hle.
    pose proof (pow2_monotone 53 (exponent x) He) as Hm.
    assert (H53 : inject_Z k < pow2 53).
    { change (pow2 53) with (inject_Z (2 ^ 53)). now rewrite <- Zlt_Qlt. }
    lra.
Qed.

(** The double nearest to a number above [k] is not below [k]. *)
Lemma round_ge_integer (x r : Q) (k : Z) :
  0 < x -> inject_Z k <= x -> (0 <= k <= 2 ^ 53)%Z ->
  round x = Fin r -> inject_Z k <= r.
Proof.
  intros Hx Hk Hk53. unfold round.
  destruct (Qeq_bool x 0) eqn:E0; [apply Qeq_bool_iff in E0; lra|].
  destruct (Qlt_le_dec 0 x) as [_|]; [|lra].
  set (u := Z.max (exponent x - 52) (-1074)).
  destruct (Qle_bool _ _); [discriminate|].
  intros Hr. injection Hr as <-. rewrite Qred_correct.
  pose proof (pow2_positive u) as Hu.
  destruct (Z.le_gt_cases u 0) as [Hneg | Hpos].
  - assert (Hs := pow2_spec u 0 (- u) ltac:(lia) ltac:(lia) ltac:(lia)).
    change (inject_Z (2 ^ 0)) with 1 in Hs.
    pose proof (inject_pow2_positive (- u) ltac:(lia)) as Hq.
    assert (Hk1 : inject_Z k * inject_Z (2 ^ (- u)) * pow2 u == inject_Z k).
    { transitivity (inject_Z k * (pow2 u * inject_Z (2 ^ (- u)))); [ring|].
      rewrite Hs. ring. }
    assert (Hy : inject_Z (k * 2 ^ (- u)) <= x / pow2 u).
    { rewrite inject_Z_mult. apply Qle_shift_div_l; [exact Hu|]. lra. }
    apply nearest_even_ge in Hy. rewrite Zle_Qle, inject_Z_mult in Hy.
    apply (Qmult_le_compat_r _ _ (pow2 u)) in Hy; lra.
  - assert (Hue : u = (exponent x - 52)%Z) by lia.
    pose proof (exponent_le x Hx) as Hle.
    assert (Hsh := pow2_shift u 52 ltac:(lia)).
    replace (u + 52)%Z with (exponent x) in Hsh by lia.
    assert (Hy : inject_Z (2 ^ 52) <= x / pow2 u).
    { apply Qle_shift_div_l; [exact Hu|]. rewrite Hsh in Hle. lra. }
    apply nearest_even_ge in Hy. rewrite Zle_Qle in Hy.
    assert (Hu1 : pow2 1 <= pow2 u) by (apply pow2_monotone; lia).
    change (pow2 1) with 2 in Hu1.
    assert (Hk' : inject_Z k <= inject_Z (2 ^ 53))
      by (rewrite <- Zle_Qle; lia).
    assert (H52 : inject_Z (2 ^ 53) == inject_Z (2 ^ 52) * 2) by reflexivity.
    assert (H0 : 0 < inject_Z (2 ^ 52)) by reflexivity.
    nra.
Qed.

End DoubleFacts.

(** ** Return on investment *)

Section ReturnOnInvestmentDouble.
Import Double.
Local Open Scope Q_scope.

(** The ceiling of the rounded quotient of two positive numbers, when it is
    below 2^53, is within one of the exact quotient. *)
Lemma ceil_of_rounded_quotient (c d q : Q) :
  0 < c -> 0 < d -> round (c / d) = Fin q ->
  (0 <= Qceiling q)%Z
  /\ ((Qceiling q < 2 ^ 53)%Z ->
      inject_Z (Qceiling q - 1) * d < c
      /\ c < inject_Z (Qceiling q + 1) * d).
Proof.
  intros Hc Hd Hq.
  assert (Hx : 0 < c / d) by (apply Qlt_shift_div_l; lra).
  assert (Hcd : c / d * d == c) by (field; lra).
  pose proof (Qle_ceiling q) as Hhi.
  pose proof (Qceiling_lt q) as Hlo.
  assert (H0 : inject_Z 0 <= q).
  { apply (round_ge_integer (c / d) q 0 Hx); [|lia | exact Hq].
    change (inject_Z 0) with 0. lra. }
  assert (Hn : (0 <= Qceiling q)%Z).
  { rewrite Zle_Qle. lra. }
  split; [exact Hn|]. intros H53. split.
  - destruct (Qlt_le_dec (inject_Z (Qceiling q - 1)) (c / d)) as [Hlt | Hge].
    + rewrite <- Hcd. apply Qmult_lt_r; assumption.
    + exfalso.
      pose proof (round_le_integer (c / d) q (Qceiling q - 1) Hx Hge
                    ltac:(lia) Hq).
      lra.
  - destruct (Qlt_le_dec (c / d) (inject_Z (Qceiling q + 1))) as [Hlt | Hge].
    + rewrite <- Hcd. apply Qmult_lt_r; assumption.
    + exfalso.
      pose proof (round_ge_integer (c / d) q (Qceiling q + 1) Hx Hge
                    ltac:(lia) Hq) as H1.
      rewrite inject_Z_plus in H1. change (inject_Z 1) with 1 in H1.
      lra.
Qed.

End ReturnOnInvestmentDouble.

(** C9.  Over doubles, for a traffic that is not negative: the monthly
    and yearly savings are those of the daily cost; with a positive cost of
    implementation the number of days to break even is the ceiling of the
    quotient of that cost by the daily cost, and the return is the yearly
    savings minus the cost, divided by the cost, times 100, each operation
    rounded; with a cost of zero the number of days is 0 and the return is
    positive infinity.  The number of days is positive infinity when the
    daily cost is zero; when it is finite and below 2^53 it is within one
    of the exact quotient. *)
Theorem calculateROI_break_even_and_roi
    (currentBotTraffic : Q) (provider : string) (implementationCost : Q) :
  (0 <= currentBotTraffic)%Q ->
  let dailyCost :=
    Double.calculateBandwidthCost (Fin currentBotTraffic) (Some provider) in
  let r :=
    Double.calculateROI (Fin currentBotTraffic) provider
      (Some (Fin implementationCost)) in
  Double.ROI.monthlySavings r = Double.CostBreakdown.monthly dailyCost
  /\ Double.ROI.yearlySavings r = Double.CostBreakdown.yearly dailyCost
  /\ ((0 < implementationCost)%Q ->
      Double.ROI.breakEvenDays r
      = Double.ceil
          (Double.div (Fin implementationCost)
             (Double.CostBreakdown.total dailyCost))
      /\ Double.ROI.roi r
         = Double.mul
             (Double.div
                (Double.sub (Double.CostBreakdown.yearly dailyCost)
                   (Fin implementationCost))
                (Fin implementationCost))
             (Fin 100))
  /\ ((implementationCost == 0)%Q ->
      Double.ROI.breakEvenDays r = Fin 0 /\ Double.ROI.roi r = PInf)
  /\ ((0 < implementationCost)%Q ->
      forall d,
        Double.CostBreakdown.total dailyCost = Fin d -> (d == 0)%Q ->
        Double.ROI.breakEvenDays r = PInf)
  /\ ((0 < implementationCost)%Q ->
      forall d days,
        Double.CostBreakdown.total dailyCost = Fin d -> (0 < d)%Q ->
        Double.ROI.breakEvenDays r = Fin days ->
        exists n : Z,
          days = inject_Z n
          /\ (0 <= n)%Z
          /\ ((n < 2 ^ 53)%Z ->
              (inject_Z (n - 1) * d < implementationCost)%Q
              /\ (implementationCost < inject_Z (n + 1) * d)%Q)).
Proof.
  intros _ dailyCost r. subst r. unfold Double.calculateROI.
  fold dailyCost.
  cbn [Double.ROI.breakEvenDays Double.ROI.roi Double.ROI.monthlySavings
       Double.ROI.yearlySavings Double.lt].
  split; [reflexivity|]. split; [reflexivity|].
  destruct (Qlt_le_dec 0 implementationCost) as [Hpos | Hneg].
  - split; [intros _; split; reflexivity|].
    split; [intros Hz; lra|]. split.
    + intros _ d -> Hd. cbn [Double.div Double.ceil].
      apply Qeq_bool_iff in Hd. rewrite Hd. unfold Double.infinity.
      destruct (Qeq_bool implementationCost 0) eqn:E;
        [apply Qeq_bool_iff in E; lra|].
      unfold Double.is_positive.
      destruct (Qlt_le_dec 0 implementationCost); [reflexivity | lra].
    + intros _ d days -> Hd. cbn [Double.div].
      destruct (Qeq_bool d 0) eqn:E; [apply Qeq_bool_iff in E; lra|].
      destruct (Double.round (implementationCost / d)) as [q| | |] eqn:Eq;
        cbn [Double.ceil]; try discriminate.
      intros Hdays. injection Hdays as <-.
      exists (Qceiling q). split; [reflexivity|].
      exact (ceil_of_rounded_quotient _ _ _ Hpos Hd Eq).
  - split; [intros Hc; lra|].
    split; [intros _; split; reflexivity|].
    split; intros Hc; lra.
Qed.

Lemma calculateROI_break_even_and_roi_witness :
  Double.ROI.breakEvenDays
    (Double.calculateROI (Fin (18 * inject_Z (1024 ^ 3))) "cloudflare"
       (Some (Fin 81)))
  = Fin 101
  /\ Double.ROI.roi
       (Double.calculateROI (Fin (18 * inject_Z (1024 ^ 3))) "cloudflare"
          (Some (Fin 81)))
     = Fin 265.
Proof.
  destruct (calculateROI_break_even_and_roi (18 * inject_Z (1024 ^ 3))
              "cloudflare" 81) as (_ & _ & Hpos & _).
  - vm_compute. discriminate.
  - destruct Hpos as [Hdays Hroi]; [reflexivity|].
    rewrite Hdays, Hroi. split; vm_compute; reflexivity.
Defined.

(** 18 GB a day at Cloudflare cost 0.8099999999999999 and not 0.81: a cost
    of implementation of 81 is covered after 101 days, not 100. *)
Example calculateROI_rounded_days :
  Double.calculateROI (Fin (18 * inject_Z (1024 ^ 3))) "cloudflare"
    (Some (Fin 81))
  = Double.ROI.mk (Fin 101)
      (Fin (1709960483517235 # 70368744177664))
      (Fin (2600564902015795 # 8796093022208))
      (Fin 265).
Proof. vm_compute. reflexivity. Qed.

(** Nothing is billed below the free allowance: the days are infinite. *)
Example calculateROI_never :
  Double.ROI.breakEvenDays
    (Double.calculateROI (Fin (10 * inject_Z (1024 ^ 3))) "vercel"
       (Some (Fin 100)))
  = PInf.
Proof. vm_compute. reflexivity. Qed.

Section SavingsByCategory.
Import CostCalculator.
Local Open Scope Q_scope.

Lemma savings_step_eq provider m tot bot :
  savings_step provider (m, tot) bot
  = (<[CategoryTraffic.category bot := record_cost provider bot]> m,
     tot + CostBreakdown.total (record_cost provider bot)).
Proof. reflexivity. Qed.

Lemma savings_fold_total provider bots :
  forall (m : gmap string CostBreakdown.t) (tot : Q),
    snd (fold_left (savings_step provider) bots (m, tot))
    = fold_left Qplus
        (map (fun b => CostBreakdown.total (record_cost provider b)) bots)
        tot.
Proof.
  induction bots as [|bot bots IH]; intros m tot.
  - reflexivity.
  - cbn [fold_left map]. rewrite savings_step_eq. apply IH.
Qed.

End SavingsByCategory.

Section SavingsByCategoryDouble.
Import Double.

Lemma double_savings_step_eq provider m tot bot :
  savings_step provider (m, tot) bot
  = (assign (CategoryTraffic.category bot) (double_record_cost provider bot)
       m,
     add tot (CostBreakdown.total (double_record_cost provider bot))).
Proof. reflexivity. Qed.

Lemma double_savings_fold_total provider bots :
  forall (m : gmap string CostBreakdown.t) (tot : xnum),
    snd (fold_left (savings_step provider) bots (m, tot))
    = fold_left add
        (map (fun b => CostBreakdown.total (double_record_cost provider b))
           bots)
        tot.
Proof.
  induction bots as [|bot bots IH]; intros m tot.
  - reflexivity.
  - cbn [fold_left map]. rewrite double_savings_step_eq. apply IH.
Qed.

Lemma lookup_assign_ne (c k : string) cost
    (m : gmap string CostBreakdown.t) :
  k <> c -> assign k cost m !! c = m !! c.
Proof.
  intros Hne. unfold assign.
  destruct (String.eqb k "__proto__"); [reflexivity|].
  now apply lookup_insert_ne.
Qed.

Lemma lookup_assign_proto (k : string) cost
    (m : gmap string CostBreakdown.t) :
  assign k cost m !! "__proto__" = m !! "__proto__".
Proof.
  unfold assign.
  destruct (String.eqb_spec k "__proto__") as [-> | Hne]; [reflexivity|].
  now apply lookup_insert_ne.
Qed.

(** Records of other categories leave the entry of a category alone. *)
Lemma double_savings_fold_other provider (c : string) bots :
  Forall (fun b => CategoryTraffic.category b <> c) bots ->
  forall (m : gmap string CostBreakdown.t) (tot : xnum),
    fst (fold_left (savings_step provider) bots (m, tot)) !! c = m !! c.
Proof.
  induction 1 as [|bot bots Hne Hrest IH]; intros m tot.
  - reflexivity.
  - cbn [fold_left]. rewrite double_savings_step_eq, IH.
    now apply lookup_assign_ne.
Qed.

(** No record stores anything under [__proto__]. *)
Lemma double_savings_fold_proto provider bots :
  forall (m : gmap string CostBreakdown.t) (tot : xnum),
    fst (fold_left (savings_step provider) bots (m, tot)) !! "__proto__"
    = m !! "__proto__".
Proof.
  induction bots as [|bot bots IH]; intros m tot.
  - reflexivity.
  - cbn [fold_left]. rewrite double_savings_step_eq, IH.
    apply lookup_assign_proto.
Qed.

Lemma double_savings_fold_last provider pre bot post :
  CategoryTraffic.category bot <> "__proto__" ->
  Forall (fun b => CategoryTraffic.category b
                   <> CategoryTraffic.category bot) post ->
  forall (m : gmap string CostBreakdown.t) (tot : xnum),
    fst (fold_left (savings_step provider) (pre ++ bot :: post) (m, tot))
      !! CategoryTraffic.category bot
    = Some (double_record_cost provider bot).
Proof.
  intros Hproto Hpost m tot. rewrite fold_left_app. cbn [fold_left].
  destruct (fold_left (savings_step provider) pre (m, tot)) as [m' tot'].
  rewrite double_savings_step_eq, (double_savings_fold_other _ _ _ Hpost).
  unfold assign.
  destruct (String.eqb_spec (CategoryTraffic.category bot) "__proto__");
    [contradiction|].
  apply lookup_insert_eq.
Qed.

End SavingsByCategoryDouble.

(** C10, as the claim states it, fails for the category [__proto__]: two
    records share it and the result holds no entry for it, where the claim
    has the cost of the second record; the total is [NaN]. *)
Lemma calculateSavingsByCategory_proto_has_no_entry :
  Double.Savings.byCategory
    (Double.calculateSavingsByCategory proto_traffic None) !! "__proto__"
  = None
  /\ Double.Savings.byCategory
       (Double.calculateSavingsByCategory proto_traffic None) !! "__proto__"
     <> Some (double_record_cost None
                (CategoryTraffic.mk "__proto__"
                   (2 * inject_Z (1024 ^ 3))%Q 1%Q))
  /\ Double.Savings.total
       (Double.calculateSavingsByCategory proto_traffic None)
     = NaN.
Proof.
  assert (H : Double.Savings.byCategory
                (Double.calculateSavingsByCategory proto_traffic None)
              !! "__proto__" = None).
  { unfold Double.calculateSavingsByCategory.
    pose proof (double_savings_fold_proto None proto_traffic ∅ (Fin 0))
      as Hp.
    destruct (fold_left _ proto_traffic _) as [m tot].
    cbn [fst Double.Savings.byCategory] in *. rewrite Hp.
    apply lookup_empty. }
  split; [exact H|]. split; [rewrite H; discriminate|].
  unfold Double.calculateSavingsByCategory.
  pose proof (double_savings_fold_total None proto_traffic ∅ (Fin 0)) as Ht.
  destruct (fold_left _ proto_traffic _) as [m tot].
  cbn [snd Double.Savings.total] in *. rewrite Ht. vm_compute. reflexivity.
Qed.

(** C10.  Over doubles, in the result of [calculateSavingsByCategory] the
    entry of a category other than [__proto__] is the cost computed for the
    last record of that category: the costs of the earlier records of the
    category are overwritten.  A category without record has no entry, and
    neither has [__proto__].  The total is the sum of the costs of all the
    records, the overwritten ones included, added in their order; the
    monthly and yearly amounts are 30 and 365 times that total. *)
Theorem calculateSavingsByCategory_last_record_wins
    (botTraffic : list CategoryTraffic.t) (provider : option string) :
  let r := Double.calculateSavingsByCategory botTraffic provider in
  (forall pre bot post,
      botTraffic = pre ++ bot :: post ->
      CategoryTraffic.category bot <> "__proto__" ->
      Forall (fun b => CategoryTraffic.category b
                       <> CategoryTraffic.category bot) post ->
      Double.Savings.byCategory r !! CategoryTraffic.category bot
      = Some (double_record_cost provider bot))
  /\ (forall c : string,
         Forall (fun b => CategoryTraffic.category b <> c) botTraffic ->
         Double.Savings.byCategory r !! c = None)
  /\ Double.Savings.byCategory r !! "__proto__" = None
  /\ Double.Savings.total r
     = fold_left Double.add
         (map (fun b =>
                 Double.CostBreakdown.total (double_record_cost provider b))
            botTraffic)
         (Fin 0)
  /\ Double.Savings.monthly r = Double.mul (Double.Savings.total r) (Fin 30)
  /\ Double.Savings.yearly r
     = Double.mul (Double.Savings.total r) (Fin 365).
Proof.
  intros r. subst r. unfold Double.calculateSavingsByCategory.
  pose proof (double_savings_fold_total provider botTraffic ∅ (Fin 0))
    as Htotal.
  pose proof (double_savings_fold_proto provider botTraffic ∅ (Fin 0))
    as Hproto.
  split; [|split; [|split; [|split; [|split]]]].
  - intros pre bot post Hsplit Hne Hpost.
    pose proof (double_savings_fold_last provider pre bot post Hne Hpost ∅
                  (Fin 0)) as Hlast.
    rewrite <- Hsplit in Hlast.
    destruct (fold_left _ botTraffic _) as [m tot]. exact Hlast.
  - intros c Hnone.
    pose proof (double_savings_fold_other provider c botTraffic Hnone ∅
                  (Fin 0)) as Hc.
    destruct (fold_left _ botTraffic _) as [m tot].
    cbn [fst Double.Savings.byCategory] in *.
    rewrite Hc. apply lookup_empty.
  - destruct (fold_left _ botTraffic _) as [m tot].
    cbn [fst Double.Savings.byCategory] in *.
    rewrite Hproto. apply lookup_empty.
  - destruct (fold_left _ botTraffic _) as [m tot]. exact Htotal.
  - destruct (fold_left _ botTraffic _) as [m tot]. reflexivity.
  - destruct (fold_left _ botTraffic _) as [m tot]. reflexivity.
Qed.

Lemma calculateSavingsByCategory_last_record_wins_witness :
  Double.Savings.byCategory
    (Double.calculateSavingsByCategory sample_traffic None)
    !! "ai_scraper"
  = Some (Double.calculateBandwidthCost
            (Fin (9 * inject_Z (1024 ^ 3))) None).
Proof.
  transitivity
    (Some (double_record_cost None
             (CategoryTraffic.mk "ai_scraper" (5 * inject_Z (1024 ^ 3))%Q
                10%Q)));
    [|vm_compute; reflexivity].
  apply (proj1 (calculateSavingsByCategory_last_record_wins
                  sample_traffic None)
           [ CategoryTraffic.mk "ai_scraper" (inject_Z (1024 ^ 3)) 10%Q;
             CategoryTraffic.mk "seo_tool" (inject_Z (1024 ^ 3)) 10%Q ]
           (CategoryTraffic.mk "ai_scraper" (5 * inject_Z (1024 ^ 3))%Q 10%Q)
           []).
  - reflexivity.
  - discriminate.
  - constructor.
Defined.

(** The entry holds the cost of 5 GB times 1.8 at the generic rate, the
    total the costs of 1.8, 1 and 9 GB added in this order. *)
Example calculateSavingsByCategory_sample :
  Double.CostBreakdown.total
    (double_record_cost None
       (CategoryTraffic.mk "ai_scraper" (5 * inject_Z (1024 ^ 3))%Q 10%Q))
  = Fin (8106479329266893 # 9007199254740992)
  /\ Double.Savings.total
       (Double.calculateSavingsByCategory sample_traffic None)
     = Fin (2657123780148593 # 2251799813685248).
Proof. split; vm_compute; reflexivity. Qed.

(** ** The captures of the common-log pattern *)

Section RegexFacts.
Import Regex.

Lemma star_span p k i s c res :
  star p k i s c = Some res ->
  exists t s',
    s = t +:+ s' /\ forall_chars p t = true
    /\ k (i + String.length t)%nat s' c = Some res.
Proof.
  revert i. induction s as [|a s IH]; intros i H.
  - exists EmptyString, EmptyString. rewrite Nat.add_0_r. now repeat split.
  - cbn [star] in H.
    assert (Hstop : k i (String a s) c = Some res ->
                    exists t s',
                      String a s = t +:+ s' /\ forall_chars p t = true
                      /\ k (i + String.length t)%nat s' c = Some res).
    { intros Hk. exists EmptyString, (String a s).
      rewrite Nat.add_0_r. now repeat split. }
    destruct (p a) eqn:Ea; [|now apply Hstop].
    destruct (star p k (S i) s c) as [r0|] eqn:Es; [|now apply Hstop].
    inversion H; subst r0.
    destruct (IH _ Es) as (t & s' & Hs & Ht & Hk).
    exists (String a t), s'. repeat split.
    + change (String a t +:+ s') with (String a (t +:+ s')). now rewrite Hs.
    + cbn [forall_chars]. now rewrite Ea, Ht.
    + cbn [String.length]. now rewrite Nat.add_succ_r.
Qed.

Lemma plus_span p k i s c res :
  run (plus p) k i s c = Some res ->
  exists t s',
    s = t +:+ s' /\ t <> EmptyString /\ forall_chars p t = true
    /\ k (i + String.length t)%nat s' c = Some res.
Proof.
  unfold plus. cbn [run]. destruct s as [|a s]; [discriminate|].
  destruct (p a) eqn:Ea; [|discriminate]. intros H.
  destruct (star_span _ _ _ _ _ _ H) as (t & s' & Hs & Ht & Hk).
  exists (String a t), s'. repeat split.
  - change (String a t +:+ s') with (String a (t +:+ s')). now rewrite Hs.
  - discriminate.
  - cbn [forall_chars]. now rewrite Ea, Ht.
  - cbn [String.length]. now rewrite Nat.add_succ_r.
Qed.

Lemma substring_prefix (t s' : string) :
  substring 0 (String.length t) (t +:+ s') = t.
Proof.
  induction t as [|a t IH].
  - cbn [String.length]. destruct (EmptyString +:+ s'); reflexivity.
  - change (String a t +:+ s') with (String a (t +:+ s')).
    cbn [String.length substring]. now rewrite IH.
Qed.

Lemma run_capture_free r :
  capture_free r = true ->
  forall k i s c res,
    run r k i s c = Some res -> exists j s', k j s' c = Some res.
Proof.
  induction r as [|p|r1 IH1 r2 IH2|r1 IH1 r2 IH2|p|n r1 IH1| |];
    cbn [capture_free run]; intros Hcf k i s c res H.
  - eauto.
  - destruct s as [|a s]; [discriminate|].
    destruct (p a); [eauto | discriminate].
  - apply andb_true_iff in Hcf as [H1 H2].
    destruct (IH1 H1 _ _ _ _ _ H) as (j & s' & Hk). eauto.
  - apply andb_true_iff in Hcf as [H1 H2].
    destruct (run r1 k i s c) as [x|] eqn:E.
    + inversion H; subst x. eauto.
    + eauto.
  - destruct (star_span _ _ _ _ _ _ H) as (t & s' & _ & _ & Hk). eauto.
  - discriminate.
  - destruct (Nat.eqb i 0); [eauto | discriminate].
  - destruct s; [eauto | discriminate].
Qed.

Lemma triple_free P r : capture_free r = true -> triple P r P.
Proof.
  intros Hcf k i s c res Hpre H.
  destruct (run_capture_free r Hcf _ _ _ _ _ H) as (j & s' & Hk). eauto.
Qed.

Lemma triple_cat A B C r1 r2 :
  triple A r1 B -> triple B r2 C -> triple A (Cat r1 r2) C.
Proof.
  intros T1 T2 k i s c res Hpre H. cbn [run] in H.
  destruct (T1 _ _ _ _ _ Hpre H) as (j & s' & c' & HB & Hk). eauto.
Qed.

Lemma triple_post A B C r :
  triple A r B -> (forall c, B c -> C c) -> triple A r C.
Proof.
  intros T HBC k i s c res Hpre H.
  destruct (T _ _ _ _ _ Hpre H) as (j & s' & c' & HB & Hk). eauto 6.
Qed.

(** A group around a repetition of at least one character of a class
    captures a text of that class that is not empty. *)
Lemma triple_group_plus P n p :
  triple P (Grp n (plus p))
    (fun c' => exists t c,
         c' = (n, t) :: c /\ P c
         /\ t <> EmptyString /\ forall_chars p t = true).
Proof.
  intros k i s c res Hpre H. cbn [run] in H.
  apply plus_span in H as (t & s' & Hs & Hne & Ht & Hk).
  rewrite Nat.add_comm, Nat.add_sub, Hs, substring_prefix in Hk.
  exists (String.length t + i)%nat, s', ((n, t) :: c).
  split; [|exact Hk]. exists t, c. now repeat split.
Qed.

Lemma triple_group_free P n r :
  capture_free r = true ->
  triple P (Grp n r) (fun c' => exists t c, c' = (n, t) :: c /\ P c).
Proof.
  intros Hcf k i s c res Hpre H. cbn [run] in H.
  destruct (run_capture_free r Hcf _ _ _ _ _ H) as (j & s' & Hk).
  exists j, s', ((n, substring 0 (j - i) s) :: c). split; [|exact Hk].
  eauto.
Qed.

Lemma exec_from_triple r Post :
  triple (fun _ => True) r Post ->
  forall s i m, exec_from r i s = Some m -> Post m.
Proof.
  intros T. induction s as [|a s IH]; intros i m H; cbn [exec_from] in H.
  - destruct (run r (fun _ _ c => Some c) i EmptyString []) as [c|] eqn:E;
      [|discriminate].
    inversion H; subst c.
    destruct (T _ _ _ _ _ I E) as (j & s' & c' & HP & Hk).
    now inversion Hk; subst.
  - destruct (run r (fun _ _ c => Some c) i (String a s) []) as [c|] eqn:E.
    + inversion H; subst c.
      destruct (T _ _ _ _ _ I E) as (j & s' & c' & HP & Hk).
      now inversion Hk; subst.
    + eauto.
Qed.

Lemma is_digit_inv a :
  is_digit a = true ->
  In a ["0"; "1"; "2"; "3"; "4"; "5"; "6"; "7"; "8"; "9"]%char.
Proof.
  destruct a as [[] [] [] [] [] [] [] []]; vm_compute; intros H;
    try discriminate H; tauto.
Qed.

Lemma read_digits_seen radix s acc :
  snd (read_digits radix s acc true) = true.
Proof.
  revert acc. induction s as [|a s IH]; intros acc; cbn [read_digits].
  - reflexivity.
  - destruct (digit_value radix a); [apply IH | reflexivity].
Qed.

Lemma parseInt_digits t :
  digits_text t -> exists z, parseInt t = Some z.
Proof.
  intros [Hne Hd]. destruct t as [|a t]; [contradiction|].
  cbn [forall_chars] in Hd. apply andb_true_iff in Hd as [Ha Ht].
  assert (Hend : forall acc,
             exists z,
               match read_digits 10 t acc true with
               | (n, true) => Some (1 * n)%Z
               | (_, false) => None
               end = Some z).
  { intros acc. pose proof (read_digits_seen 10 t acc) as Hs.
    destruct (read_digits 10 t acc true) as [n seen]. simpl in Hs.
    subst seen. eauto. }
  apply is_digit_inv in Ha.
  repeat (destruct Ha as [<- | Ha]; [| ]); try contradiction;
    try (unfold parseInt; cbn; apply Hend).
  destruct t as [|b t].
  - vm_compute. eauto.
  - cbn [forall_chars] in Ht. apply andb_true_iff in Ht as [Hb Ht].
    apply is_digit_inv in Hb.
    repeat (destruct Hb as [<- | Hb]; [| ]); try contradiction;
      unfold parseInt; cbn; apply Hend.
Qed.

Lemma pattern_captures m line :
  exec LogParser.pattern line = Some m ->
  digits_text (group 5 m) /\ digits_text (group 6 m).
Proof.
  unfold exec.
  apply (exec_from_triple LogParser.pattern
           (fun m => digits_text (group 5 m) /\ digits_text (group 6 m))).
  unfold LogParser.pattern. cbn [seq].
  eapply triple_post.
  - repeat
      (eapply triple_cat;
       [ first [ apply triple_free; reflexivity
               | apply triple_group_plus
               | apply triple_group_free; reflexivity ] | ]).
    apply triple_free. reflexivity.
  - cbn beta. intros c H.
    destruct H as (t7 & c6 & -> & H).
    destruct H as (t6 & c5 & -> & H & Hne6 & Hd6).
    destruct H as (t5 & c4 & -> & H & Hne5 & Hd5).
    cbn [group Nat.eqb]. now repeat split.
Qed.

End RegexFacts.

(** The common-log branch never returns a record with a missing or
    non-integer field: the two numeric fields are captured as texts of
    digits, which [parseInt] always reads. *)
Lemma parseCommonLog_populated (line : string) (w : World) (e : LogEntry.t) :
  fst (LogParser.parseCommonLog line w) = Some e ->
  LogEntry.populated e = true.
Proof.
  unfold LogParser.parseCommonLog.
  destruct (Regex.exec LogParser.pattern line) as [m|] eqn:Em;
    [|discriminate].
  destruct (pattern_captures m line Em) as [H5 H6].
  destruct (parseInt_digits _ H5) as [z5 E5].
  destruct (parseInt_digits _ H6) as [z6 E6].
  cbn [Math_random fst]. intros H. inversion H; subst e; clear H.
  rewrite E5, E6. unfold LogEntry.populated, Math_floor.
  cbn [LogEntry.ip LogEntry.method LogEntry.path LogEntry.status
       LogEntry.bytes LogEntry.userAgent LogEntry.responseTime
       LogEntry.is_string LogEntry.is_integer number_or_NaN andb].
  rewrite !Qfloor_Z, !Qeq_bool_refl. reflexivity.
Qed.

(** * Further properties *)

(** ** The common log format read back *)

Section RegexExact.
Import Regex.

Lemma run_cat r1 r2 k i s c :
  run (Cat r1 r2) k i s c = run r1 (run r2 k) i s c.
Proof. reflexivity. Qed.

Lemma run_lit t rest k i c :
  run (lit t) k i (t +:+ rest) c = k (i + String.length t)%nat rest c.
Proof.
  revert i. induction t as [|a t IH]; intros i.
  - cbn [lit run String.length]. now rewrite Nat.add_0_r.
  - change (String a t +:+ rest) with (String a (t +:+ rest)).
    cbn [lit run String.length]. unfold is_char.
    rewrite Ascii.eqb_refl, IH. now rewrite Nat.add_succ_r.
Qed.

Lemma star_exact p k i t rest c res :
  forall_chars p t = true ->
  stops p rest = true ->
  k (i + String.length t)%nat rest c = Some res ->
  star p k i (t +:+ rest) c = Some res.
Proof.
  intros Ht Hstop. revert i. induction t as [|a t IH]; intros i Hk.
  - cbn [String.length] in Hk. rewrite Nat.add_0_r in Hk.
    change (EmptyString +:+ rest) with rest.
    destruct rest as [|b rest]; cbn [star]; [exact Hk|].
    cbn [stops] in Hstop. apply negb_true_iff in Hstop.
    now rewrite Hstop.
  - cbn [forall_chars] in Ht. apply andb_true_iff in Ht as [Ha Ht].
    change (String a t +:+ rest) with (String a (t +:+ rest)).
    cbn [star]. rewrite Ha, (IH Ht (S i)); [reflexivity|].
    cbn [String.length] in Hk. now rewrite Nat.add_succ_r in Hk.
Qed.

Lemma plus_exact p k i t rest c res :
  t <> EmptyString ->
  forall_chars p t = true ->
  stops p rest = true ->
  k (i + String.length t)%nat rest c = Some res ->
  run (plus p) k i (t +:+ rest) c = Some res.
Proof.
  intros Hne Ht Hstop Hk. destruct t as [|a t]; [contradiction|].
  cbn [forall_chars] in Ht. apply andb_true_iff in Ht as [Ha Ht].
  change (String a t +:+ rest) with (String a (t +:+ rest)).
  unfold plus. cbn [run]. rewrite Ha.
  apply star_exact; [exact Ht | exact Hstop|].
  cbn [String.length] in Hk. now rewrite Nat.add_succ_r in Hk.
Qed.

(** The repetition first takes one character more than [t], fails there,
    and comes back to [t]. *)
Lemma plus_back_one p k i t a rest c res :
  t <> EmptyString ->
  forall_chars p t = true ->
  p a = true ->
  stops p rest = true ->
  k (i + String.length t + 1)%nat rest c = None ->
  k (i + String.length t)%nat (String a EmptyString +:+ rest) c = Some res ->
  run (plus p) k i (t +:+ (String a EmptyString +:+ rest)) c = Some res.
Proof.
  intros Hne Ht Ha Hstop Hfail Hk.
  change (String a EmptyString +:+ rest) with (String a rest) in *.
  assert (Hstar : forall j u,
             forall_chars p u = true ->
             k (j + String.length u + 1)%nat rest c = None ->
             k (j + String.length u)%nat (String a rest) c = Some res ->
             star p k j (u +:+ String a rest) c = Some res).
  { intros j u. revert j. induction u as [|b u IH]; intros j Hu Hf Hs.
    - change (EmptyString +:+ String a rest) with (String a rest).
      cbn [star]. rewrite Ha.
      assert (Hend : star p k (S j) rest c = None).
      { replace (S j) with (j + String.length EmptyString + 1)%nat
          by (cbn [String.length]; lia).
        destruct rest as [|b rest']; cbn [star]; [exact Hf|].
        cbn [stops] in Hstop. apply negb_true_iff in Hstop.
        now rewrite Hstop. }
      rewrite Hend.
      replace j with (j + String.length EmptyString)%nat at 1
        by (cbn [String.length]; lia).
      exact Hs.
    - cbn [forall_chars] in Hu. apply andb_true_iff in Hu as [Hb Hu].
      change (String b u +:+ String a rest)
        with (String b (u +:+ String a rest)).
      cbn [star]. rewrite Hb. rewrite (IH (S j) Hu); [reflexivity| |].
      + replace (S j + String.length u + 1)%nat
          with (j + String.length (String b u) + 1)%nat
          by (cbn [String.length]; lia).
        exact Hf.
      + replace (S j + String.length u)%nat
          with (j + String.length (String b u))%nat
          by (cbn [String.length]; lia).
        exact Hs. }
  destruct t as [|b t]; [contradiction|].
  cbn [forall_chars] in Ht. apply andb_true_iff in Ht as [Hb Ht].
  change (String b t +:+ String a rest) with (String b (t +:+ String a rest)).
  unfold plus. cbn [run]. rewrite Hb.
  apply Hstar; [exact Ht| |].
  - replace (S i + String.length t + 1)%nat
      with (i + String.length (String b t) + 1)%nat
      by (cbn [String.length]; lia).
    exact Hfail.
  - replace (S i + String.length t)%nat
      with (i + String.length (String b t))%nat
      by (cbn [String.length]; lia).
    exact Hk.
Qed.

Lemma group_plus_exact n p k i t rest c res :
  t <> EmptyString ->
  forall_chars p t = true ->
  stops p rest = true ->
  k (i + String.length t)%nat rest ((n, t) :: c) = Some res ->
  run (Grp n (plus p)) k i (t +:+ rest) c = Some res.
Proof.
  intros Hne Ht Hstop Hk. cbn [run].
  apply plus_exact; [exact Hne | exact Ht | exact Hstop|].
  now rewrite Nat.add_comm, Nat.add_sub, substring_prefix, Nat.add_comm.
Qed.

Lemma group_star_exact n p k i t rest c res :
  forall_chars p t = true ->
  stops p rest = true ->
  k (i + String.length t)%nat rest ((n, t) :: c) = Some res ->
  run (Grp n (Star p)) k i (t +:+ rest) c = Some res.
Proof.
  intros Ht Hstop Hk. cbn [run].
  apply star_exact; [exact Ht | exact Hstop|].
  now rewrite Nat.add_comm, Nat.add_sub, substring_prefix, Nat.add_comm.
Qed.

Lemma run_bol k s c : run Bol k 0 s c = k 0%nat s c.
Proof. reflexivity. Qed.

Lemma run_star p k i s c : run (Star p) k i s c = star p k i s c.
Proof. reflexivity. Qed.

Lemma exec_from_first r i s m :
  run r (fun _ _ c => Some c) i s [] = Some m -> exec_from r i s = Some m.
Proof. intros H. destruct s; cbn [exec_from]; now rewrite H. Qed.

Lemma read_digits_nonneg radix s acc seen :
  (0 <= acc)%Z -> (0 <= radix)%Z ->
  (0 <= fst (read_digits radix s acc seen))%Z.
Proof.
  revert acc seen. induction s as [|a s IH]; intros acc seen Hacc Hr;
    cbn [read_digits].
  - exact Hacc.
  - destruct (digit_value radix a) as [d|] eqn:Ed; [|exact Hacc].
    apply IH; [|exact Hr].
    assert (0 <= d)%Z; [|nia].
    unfold digit_value in Ed.
    destruct (_ <? radix)%Z; [|discriminate]. inversion Ed; subst d.
    repeat match goal with
           | |- context [if ?b then _ else _] => destruct b eqn:?
           end; lia.
Qed.

Lemma read_digits_result t acc :
  match read_digits 10 t acc true with
  | (n, true) => Some (1 * n)%Z
  | (_, false) => None
  end = Some (fst (read_digits 10 t acc true)).
Proof.
  pose proof (read_digits_seen 10 t acc) as Hs.
  destruct (read_digits 10 t acc true) as [n seen]. simpl in Hs.
  subst seen. cbn [fst]. f_equal. now destruct n.
Qed.

Lemma decimal_value_cons a t d :
  digit_value 10 a = Some d ->
  decimal_value (String a t) = fst (read_digits 10 t d true).
Proof.
  intros H. unfold decimal_value. cbn [read_digits]. now rewrite H.
Qed.

Ltac parseInt_head :=
  match goal with
  | |- parseInt (String ?a ?t) = Some (decimal_value (String ?a ?t)) =>
      rewrite (decimal_value_cons a t _ eq_refl);
      match goal with
      | |- _ = Some (fst (read_digits 10 t ?d true)) =>
          transitivity
            (match read_digits 10 t d true with
             | (n, true) => Some (1 * n)%Z
             | (_, false) => None
             end);
          [reflexivity | apply read_digits_result]
      end
  end.

Lemma parseInt_decimal t :
  digits_text t -> parseInt t = Some (decimal_value t).
Proof.
  intros [Hne Hd]. destruct t as [|a t]; [contradiction|]. clear Hne.
  cbn [forall_chars] in Hd. apply andb_true_iff in Hd as [Ha Ht].
  apply is_digit_inv in Ha.
  repeat (destruct Ha as [<- | Ha]; [| ]); try contradiction;
    try parseInt_head.
  destruct t as [|b t]; [reflexivity|].
  cbn [forall_chars] in Ht. apply andb_true_iff in Ht as [Hb Ht].
  apply is_digit_inv in Hb.
  repeat (destruct Hb as [<- | Hb]; [| ]); try contradiction; parseInt_head.
Qed.

Lemma pattern_exact
    ip ident user time method path protocol status bytes referrer userAgent :
  word ip -> word ident -> word user ->
  time <> EmptyString -> forall_chars (not_char "]") time = true ->
  word method -> word path -> word protocol ->
  digits_text status -> digits_text bytes ->
  forall_chars (not_char LogParser.quote) referrer = true ->
  forall_chars (not_char LogParser.quote) userAgent = true ->
  exec LogParser.pattern
    (common_log_line ip ident user time method path protocol status bytes
       referrer userAgent)
  = Some [ (7, userAgent); (6, bytes); (5, status); (4, path); (3, method);
           (2, time); (1, ip) ]%nat.
Proof.
  intros [Hip1 Hip2] [Hid1 Hid2] [Hu1 Hu2] Ht1 Ht2 [Hm1 Hm2] [Hp1 Hp2]
    [Hpr1 Hpr2] [Hs1 Hs2] [Hb1 Hb2] Hr Hua.
  unfold exec. apply exec_from_first.
  unfold LogParser.pattern, common_log_line. cbn [seq].
  rewrite run_cat, run_bol.
  rewrite run_cat. apply group_plus_exact; [assumption.. | reflexivity |].
  rewrite run_cat, run_lit.
  rewrite run_cat. apply plus_exact; [assumption.. | reflexivity |].
  rewrite run_cat, run_lit.
  rewrite run_cat. apply plus_exact; [assumption.. | reflexivity |].
  rewrite run_cat, run_lit.
  rewrite run_cat. apply group_plus_exact; [assumption.. | reflexivity |].
  rewrite run_cat, run_lit. rewrite run_cat, run_lit.
  rewrite run_cat. apply group_plus_exact; [assumption.. | reflexivity |].
  rewrite run_cat, run_lit.
  rewrite run_cat. apply group_plus_exact; [assumption.. | reflexivity |].
  rewrite run_cat, run_lit.
  rewrite run_cat.
  apply (plus_back_one non_space _ _ protocol LogParser.quote);
    [assumption | assumption | reflexivity | reflexivity | reflexivity |].
  rewrite run_cat, run_lit. rewrite run_cat, run_lit.
  rewrite run_cat. apply group_plus_exact; [assumption.. | reflexivity |].
  rewrite run_cat, run_lit.
  rewrite run_cat. apply group_plus_exact; [assumption.. | reflexivity |].
  rewrite run_cat, run_lit. rewrite run_cat, run_lit.
  rewrite run_cat, run_star. apply star_exact; [assumption | reflexivity |].
  rewrite run_cat, run_lit. rewrite run_cat, run_lit. rewrite run_cat, run_lit.
  rewrite run_cat.
  change (userAgent +:+ LogParser.q)
    with (userAgent +:+ (LogParser.q +:+ EmptyString)).
  apply group_star_exact; [assumption | reflexivity |].
  rewrite run_cat, run_lit. reflexivity.
Qed.

End RegexExact.

Section CommonLogFields.
Import Regex.

Lemma triple_group_star P n p :
  triple P (Grp n (Star p))
    (fun c' => exists t c,
         c' = (n, t) :: c /\ P c /\ forall_chars p t = true).
Proof.
  intros k i s c res Hpre H. cbn [run] in H.
  apply star_span in H as (t & s' & Hs & Ht & Hk).
  rewrite Nat.add_comm, Nat.add_sub, Hs, substring_prefix in Hk.
  exists (String.length t + i)%nat, s', ((n, t) :: c).
  split; [|exact Hk]. exists t, c. now repeat split.
Qed.

(** What the seven groups of the pattern capture. *)
Lemma pattern_captures_all m line :
  exec LogParser.pattern line = Some m ->
  word (group 1 m)
  /\ (group 2 m <> EmptyString
      /\ forall_chars (not_char "]") (group 2 m) = true)
  /\ word (group 3 m) /\ word (group 4 m)
  /\ digits_text (group 5 m) /\ digits_text (group 6 m)
  /\ forall_chars (not_char LogParser.quote) (group 7 m) = true.
Proof.
  unfold exec.
  apply (exec_from_triple LogParser.pattern
           (fun m =>
              word (group 1 m)
              /\ (group 2 m <> EmptyString
                  /\ forall_chars (not_char "]") (group 2 m) = true)
              /\ word (group 3 m) /\ word (group 4 m)
              /\ digits_text (group 5 m) /\ digits_text (group 6 m)
              /\ forall_chars (not_char LogParser.quote) (group 7 m) = true)).
  unfold LogParser.pattern. cbn [seq].
  eapply triple_post.
  - repeat
      (eapply triple_cat;
       [ first [ apply triple_free; reflexivity
               | apply triple_group_plus
               | apply triple_group_star ] | ]).
    apply triple_free. reflexivity.
  - cbn beta. intros c H.
    destruct H as (t7 & c6 & -> & H & Hd7).
    destruct H as (t6 & c5 & -> & H & Hne6 & Hd6).
    destruct H as (t5 & c4 & -> & H & Hne5 & Hd5).
    destruct H as (t4 & c3 & -> & H & Hne4 & Hd4).
    destruct H as (t3 & c2 & -> & H & Hne3 & Hd3).
    destruct H as (t2 & c1 & -> & H & Hne2 & Hd2).
    destruct H as (t1 & c0 & -> & H & Hne1 & Hd1).
    cbn [group Nat.eqb]. unfold word, digits_text. now repeat split.
Qed.

End CommonLogFields.

(** X1.  A line written in the common log format from its fields, with a
    status and a size of at most 2^53, is read back: [parseCommonLog], and
    so [parse] whatever the JSON reader, returns the address, the method,
    the path and the user agent of the line, the numbers that the digits of
    its status and of its size denote, and as timestamp the [Date] that
    [new Date] makes of the text between the brackets, readable or not.
    Up to 2^53 every whole number is a double, so that [parseInt] is
    exact. *)
Theorem parseCommonLog_reads_back
    (ip ident user time method path protocol status bytes referrer
       userAgent : string) (w : World) :
  word ip -> word ident -> word user ->
  time <> EmptyString ->
  forall_chars (Regex.not_char "]") time = true ->
  word method -> word path -> word protocol ->
  digits_text status -> digits_text bytes ->
  (decimal_value status <= 2 ^ 53)%Z ->
  (decimal_value bytes <= 2 ^ 53)%Z ->
  forall_chars (Regex.not_char LogParser.quote) referrer = true ->
  forall_chars (Regex.not_char LogParser.quote) userAgent = true ->
  let line :=
    common_log_line ip ident user time method path protocol status bytes
      referrer userAgent in
  exists timestamp,
    new_Date (JString time) = Returned timestamp
    /\ let entry :=
         LogEntry.mk timestamp (JString ip) (JString method)
           (JString path) (JNumber (inject_Z (decimal_value status)))
           (JNumber (inject_Z (decimal_value bytes))) (JString userAgent)
           (JNumber (Math_floor (draws w (consumed w) * 500))) in
       fst (LogParser.parseCommonLog line w) = Some entry
       /\ forall JSON_parse,
            fst (LogParser.parse JSON_parse line w) = Some entry.
Proof.
  intros Hip Hid Hu Ht1 Ht2 Hm Hp Hpr Hs Hb _ _ Hr Hua line.
  exists (DateOf (JString time)). split; [reflexivity|]. intros entry.
  assert (Hc : fst (LogParser.parseCommonLog line w) = Some entry).
  { unfold LogParser.parseCommonLog. subst line.
    rewrite (pattern_exact ip ident user time method path protocol status
               bytes referrer userAgent) by assumption.
    cbn [Math_random fst Regex.group Nat.eqb].
    now rewrite (parseInt_decimal _ Hs), (parseInt_decimal _ Hb). }
  split; [exact Hc|].
  intros JSON_parse. unfold LogParser.parse.
  destruct (LogParser.parseCommonLog line w) as [[e|] w'];
    cbn [fst] in *; [exact Hc | discriminate].
Qed.

Lemma parseCommonLog_reads_back_witness :
  exists timestamp,
    new_Date (JString "10/Oct/2024:13:55:36 -0700") = Returned timestamp
    /\ let entry :=
         LogEntry.mk timestamp (JString "203.0.113.9") (JString "GET")
           (JString "/api/data?x=1")
           (JNumber (inject_Z (decimal_value "404")))
           (JNumber (inject_Z (decimal_value "0512")))
           (JString "Mozilla/5.0 GPTBot/1.0")
           (JNumber (Math_floor (draws sample_world (consumed sample_world)
                                 * 500))) in
       fst (LogParser.parseCommonLog
              (common_log_line "203.0.113.9" "-" "alice"
                 "10/Oct/2024:13:55:36 -0700" "GET" "/api/data?x=1"
                 "HTTP/1.1" "404" "0512" "https://example.org/"
                 "Mozilla/5.0 GPTBot/1.0")
              sample_world)
       = Some entry
       /\ forall JSON_parse,
            fst (LogParser.parse JSON_parse
                   (common_log_line "203.0.113.9" "-" "alice"
                      "10/Oct/2024:13:55:36 -0700" "GET" "/api/data?x=1"
                      "HTTP/1.1" "404" "0512" "https://example.org/"
                      "Mozilla/5.0 GPTBot/1.0")
                   sample_world)
            = Some entry.
Proof.
  apply (parseCommonLog_reads_back "203.0.113.9" "-" "alice"
           "10/Oct/2024:13:55:36 -0700" "GET" "/api/data?x=1" "HTTP/1.1"
           "404" "0512" "https://example.org/" "Mozilla/5.0 GPTBot/1.0"
           sample_world);
    try (split; [discriminate | reflexivity]);
    try discriminate; reflexivity.
Defined.

(** X2.  Every record that [parseCommonLog] returns for a line of at most
    308 characters is fully typed: the address, the method and the path are
    words, the timestamp is the [Date] made of a text without closing
    bracket that is not empty, the user agent holds no double quote, the
    status and the size are whole numbers that are not negative, and the
    response time is a whole number.  The pattern does not bound the number
    of digits, and the program reads a number of more than 308 digits as
    [Infinity]: hence the bound on the line.  Below it the number that the
    program keeps is the double nearest to the digits, a whole number as
    well. *)
Theorem parseCommonLog_fields_typed
    (line : string) (w : World) (e : LogEntry.t) :
  (String.length line <= 308)%nat ->
  fst (LogParser.parseCommonLog line w) = Some e ->
  exists (ip time method path userAgent : string) (status bytes rt : Z),
    e = LogEntry.mk (DateOf (JString time)) (JString ip) (JString method)
          (JString path) (JNumber (inject_Z status))
          (JNumber (inject_Z bytes)) (JString userAgent)
          (JNumber (inject_Z rt))
    /\ word ip /\ word method /\ word path
    /\ time <> EmptyString
    /\ forall_chars (Regex.not_char "]") time = true
    /\ forall_chars (Regex.not_char LogParser.quote) userAgent = true
    /\ (0 <= status)%Z /\ (0 <= bytes)%Z.
Proof.
  intros _. unfold LogParser.parseCommonLog.
  destruct (Regex.exec LogParser.pattern line) as [m|] eqn:Em;
    [|discriminate].
  destruct (pattern_captures_all m line Em)
    as (H1 & [H2 H2'] & H3 & H4 & H5 & H6 & H7).
  cbn [Math_random fst]. intros H. inversion H; subst e; clear H.
  rewrite (parseInt_decimal _ H5), (parseInt_decimal _ H6).
  exists (Regex.group 1 m), (Regex.group 2 m), (Regex.group 3 m),
    (Regex.group 4 m), (Regex.group 7 m),
    (decimal_value (Regex.group 5 m)), (decimal_value (Regex.group 6 m)),
    (Qfloor (draws w (consumed w) * 500)).
  repeat split; try assumption; try apply H1; try apply H3; try apply H4;
    unfold decimal_value; apply read_digits_nonneg; lia.
Qed.

Lemma parseCommonLog_fields_typed_witness :
  exists (ip time method path userAgent : string) (status bytes rt : Z),
    LogEntry.mk (DateOf (JString "10/Oct/2024:13:55:36 -0700"))
      (JString "127.0.0.1") (JString "GET") (JString "/api/data")
      (JNumber (inject_Z 200)) (JNumber (inject_Z 2326))
      (JString "Mozilla/5.0") (JNumber (inject_Z 0))
    = LogEntry.mk (DateOf (JString time)) (JString ip) (JString method)
        (JString path) (JNumber (inject_Z status))
        (JNumber (inject_Z bytes)) (JString userAgent)
        (JNumber (inject_Z rt))
    /\ word ip /\ word method /\ word path
    /\ time <> EmptyString
    /\ forall_chars (Regex.not_char "]") time = true
    /\ forall_chars (Regex.not_char LogParser.quote) userAgent = true
    /\ (0 <= status)%Z /\ (0 <= bytes)%Z.
Proof.
  apply (parseCommonLog_fields_typed sample_line sample_world).
  - vm_compute. lia.
  - vm_compute. reflexivity.
Defined.

(** X3.  The JSON branch rejects a line in three cases only: the text is
    not JSON, its value is [null], or it is an object whose [timestamp]
    cannot be converted to a primitive value.  Every other line gives a
    record; for an object, the fields of the record are its properties
    [timestamp], [ip], [method], [path], [status], [bytes], [user_agent]
    and [response_time], [undefined] where the object lacks one. *)
Theorem parseJsonLog_rejects_exactly
    (JSON_parse : string -> Completion JsValue) (line : string) :
  (LogParser.parseJsonLog JSON_parse line = None
   <-> json_rejected (JSON_parse line))
  /\ (forall props,
         JSON_parse line = Returned (JObject props) ->
         has_primitive (own_property props "timestamp") = true ->
         LogParser.parseJsonLog JSON_parse line
         = Some (LogEntry.mk (DateOf (own_property props "timestamp"))
                   (own_property props "ip") (own_property props "method")
                   (own_property props "path")
                   (own_property props "status")
                   (own_property props "bytes")
                   (own_property props "user_agent")
                   (own_property props "response_time"))).
Proof.
  unfold LogParser.parseJsonLog, LogParser.parseJsonLog_body, json_rejected.
  split.
  - destruct (JSON_parse line) as [v|]; cbn [bind try_or_null];
      [|tauto].
    destruct v; cbn [get bind]; unfold new_Date;
      cbn [has_primitive bind try_or_null];
      try (split; [discriminate | tauto]); try tauto.
    destruct (has_primitive (own_property props "timestamp"));
      cbn [bind try_or_null]; split; intros H;
      first [discriminate H | reflexivity].
  - intros props Hparse Hp. rewrite Hparse. cbn [bind get].
    unfold new_Date. rewrite Hp. reflexivity.
Qed.

Lemma parseJsonLog_rejects_exactly_witness :
  LogParser.parseJsonLog JSON.parse "null" = None.
Proof.
  apply (proj1 (parseJsonLog_rejects_exactly JSON.parse "null")).
  exact I.
Defined.

(** ** Letter case in the user agent *)

Section LetterCase.
Import Regex.

Lemma canonicalize_idempotent b :
  canonicalize (canonicalize b) = canonicalize b.
Proof. destruct b as [[] [] [] [] [] [] [] []]; reflexivity. Qed.

Lemma ci_is_digit : ci_class is_digit.
Proof. intros b. destruct b as [[] [] [] [] [] [] [] []]; reflexivity. Qed.

Lemma ci_is_char_i a : ci_class (is_char_i a).
Proof.
  intros b. unfold is_char_i. now rewrite canonicalize_idempotent.
Qed.

Lemma ci_class_eq p a a' :
  ci_class p -> canonicalize a = canonicalize a' -> p a = p a'.
Proof. intros Hp E. now rewrite <- (Hp a), <- (Hp a'), E. Qed.

Lemma ci_liti t : ci_regex (liti t).
Proof.
  induction t as [|a t IH]; cbn [liti ci_regex]; [exact I|].
  split; [apply ci_is_char_i | exact IH].
Qed.

Lemma ci_plus p : ci_class p -> ci_regex (plus p).
Proof. intros Hp. unfold plus. cbn [ci_regex]. now split. Qed.

Lemma matched_orelse {A : Type} (x y : option A) :
  matched (match x with Some r => Some r | None => y end)
  = matched x || matched y.
Proof. now destruct x. Qed.

Lemma star_ci p k k' :
  ci_class p -> same_success k k' -> same_success (star p k) (star p k').
Proof.
  intros Hp Hk i s. revert i.
  induction s as [|a s IH]; intros i s' c c' E; destruct s' as [|a' s'];
    try discriminate E.
  - cbn [star]. now apply Hk.
  - cbn [canonical] in E. inversion E as [[Ea Es]].
    cbn [star]. rewrite (ci_class_eq p a a' Hp Ea).
    destruct (p a').
    + rewrite !matched_orelse. f_equal; [now apply IH|].
      apply Hk. cbn [canonical]. now rewrite Ea, Es.
    + apply Hk. cbn [canonical]. now rewrite Ea, Es.
Qed.

Lemma run_ci r :
  ci_regex r ->
  forall k k', same_success k k' -> same_success (run r k) (run r k').
Proof.
  induction r as [|p|r1 IH1 r2 IH2|r1 IH1 r2 IH2|p|n r1 IH1| |];
    cbn [ci_regex]; intros Hr k k' Hk i s s' c c' E.
  - cbn [run]. now apply Hk.
  - cbn [run]. destruct s as [|a s]; destruct s' as [|a' s'];
      try discriminate E; [reflexivity|].
    cbn [canonical] in E. inversion E as [[Ea Es]].
    rewrite (ci_class_eq p a a' Hr Ea).
    destruct (p a'); [now apply Hk | reflexivity].
  - destruct Hr as [H1 H2]. cbn [run].
    apply (IH1 H1 (run r2 k) (run r2 k')); [|exact E].
    now apply IH2.
  - destruct Hr as [H1 H2]. cbn [run]. rewrite !matched_orelse.
    f_equal; [now apply IH1 | now apply IH2].
  - cbn [run]. now apply star_ci.
  - cbn [run]. apply (IH1 Hr); [|exact E].
    intros j t t' d d' Et. now apply Hk.
  - cbn [run]. destruct (Nat.eqb i 0); [now apply Hk | reflexivity].
  - cbn [run]. destruct s as [|a s]; destruct s' as [|a' s'];
      try discriminate E; [now apply Hk | reflexivity].
Qed.

Lemma exec_from_ci r :
  ci_regex r ->
  forall s s' i,
    canonical s = canonical s' ->
    matched (exec_from r i s) = matched (exec_from r i s').
Proof.
  intros Hr.
  assert (Hrun : forall i s s',
             canonical s = canonical s' ->
             matched (run r (fun _ _ c => Some c) i s [])
             = matched (run r (fun _ _ c => Some c) i s' [])).
  { intros i s s' E. apply (run_ci r Hr); [|exact E]. now intros ? ? ? ? ? ?. }
  induction s as [|a s IH]; intros s' i E; destruct s' as [|a' s'];
    try discriminate E; cbn [exec_from]; rewrite !matched_orelse.
  - reflexivity.
  - cbn [canonical] in E. inversion E as [[Ea Es]].
    f_equal; [apply Hrun; cbn [canonical]; now rewrite Ea, Es|].
    now apply IH.
Qed.

Lemma test_ci r s s' :
  ci_regex r -> canonical s = canonical s' -> test r s = test r s'.
Proof. intros Hr E. apply (exec_from_ci r Hr s s' 0%nat E). Qed.

Lemma signatures_ci :
  Forall (fun e => ci_regex (BotSignature.pattern (snd e)))
    BotDetector.signatures.
Proof.
  unfold BotDetector.signatures, BotDetector.sig.
  repeat (apply Forall_cons_2;
          [ cbn [snd BotSignature.pattern seq ci_regex];
            repeat split;
            first [ apply ci_liti | apply ci_plus, ci_is_digit
                  | apply ci_is_char_i | apply ci_is_digit | exact I ] |]).
  apply Forall_nil_2.
Qed.

Lemma genericPatterns_ci :
  Forall (fun e => ci_regex (fst e)) BotDetector.genericPatterns.
Proof.
  unfold BotDetector.genericPatterns.
  repeat (apply Forall_cons_2;
          [ cbn [fst alts ci_regex]; repeat split;
            first [apply ci_liti | apply ci_is_char_i | exact I] |]).
  apply Forall_nil_2.
Qed.

Lemma detect_known_ci entries ua ua' :
  Forall (fun e => ci_regex (BotSignature.pattern (snd e))) entries ->
  canonical ua = canonical ua' ->
  BotDetector.detect_known entries ua = BotDetector.detect_known entries ua'.
Proof.
  intros Hall E. induction Hall as [|[name s] rest Hs Hrest IH];
    cbn [BotDetector.detect_known]; [reflexivity|].
  cbn [snd] in Hs. rewrite (test_ci _ ua ua' Hs E), IH. reflexivity.
Qed.

Lemma detect_generic_ci ps ua ua' :
  Forall (fun e => ci_regex (fst e)) ps ->
  canonical ua = canonical ua' ->
  BotDetector.detect_generic ps ua = BotDetector.detect_generic ps ua'.
Proof.
  intros Hall E. induction Hall as [|[p c] rest Hp Hrest IH];
    cbn [BotDetector.detect_generic]; [reflexivity|].
  cbn [fst] in Hp. rewrite (test_ci _ ua ua' Hp E), IH. reflexivity.
Qed.

Lemma canonical_idempotent s : canonical (canonical s) = canonical s.
Proof.
  induction s as [|a s IH]; cbn [canonical]; [reflexivity|].
  now rewrite canonicalize_idempotent, IH.
Qed.

End LetterCase.

(** X4.  The detection does not depend on the case of the letters: two
    user agents that differ only in the case of ASCII letters get the same
    result, and so does a user agent and its upper-case form. *)
Theorem detect_ignores_letter_case (ua ua' : string) :
  canonical ua = canonical ua' ->
  BotDetector.detect (Some ua) = BotDetector.detect (Some ua')
  /\ BotDetector.detect (Some (canonical ua)) = BotDetector.detect (Some ua).
Proof.
  assert (H : forall a b,
             canonical a = canonical b ->
             BotDetector.detect (Some a) = BotDetector.detect (Some b)).
  { intros a b E. unfold BotDetector.detect, BotDetector.falsy.
    assert (Hempty : String.eqb a EmptyString = String.eqb b EmptyString).
    { destruct a; destruct b; try discriminate E; reflexivity. }
    rewrite Hempty.
    rewrite (detect_known_ci _ a b signatures_ci E).
    rewrite (detect_generic_ci _ a b genericPatterns_ci E). reflexivity. }
  intros E. split; [now apply H|].
  apply H. apply canonical_idempotent.
Qed.

Lemma detect_ignores_letter_case_witness :
  BotDetector.detect (Some "mozilla/5.0 (compatible; gptbot/1.0)")
  = BotDetector.detect (Some "Mozilla/5.0 (compatible; GPTBot/1.0)").
Proof.
  refine (proj1 (detect_ignores_letter_case
                   "mozilla/5.0 (compatible; gptbot/1.0)"
                   "Mozilla/5.0 (compatible; GPTBot/1.0)" _)).
  reflexivity.
Defined.

(** ** Which user agents are bots *)

Section DetectMore.
Import Regex.

Lemma run_liti_ci t t' rest k i c :
  canonical t = canonical t' ->
  run (liti t) k i (t' +:+ rest) c = k (i + String.length t')%nat rest c.
Proof.
  revert t' i. induction t as [|a t IH]; intros t' i E;
    destruct t' as [|a' t']; try discriminate E.
  - cbn [liti run String.length]. now rewrite Nat.add_0_r.
  - cbn [canonical] in E. inversion E as [[Ea Et]].
    change (String a' t' +:+ rest) with (String a' (t' +:+ rest)).
    cbn [liti run String.length]. unfold is_char_i.
    rewrite Ea, Ascii.eqb_refl, (IH t' (S i) Et).
    now rewrite Nat.add_succ_r.
Qed.

Lemma star_matched p k i t rest c :
  forall_chars p t = true ->
  matched (k (i + String.length t)%nat rest c) = true ->
  matched (star p k i (t +:+ rest) c) = true.
Proof.
  intros Ht. revert i. induction t as [|a t IH]; intros i Hk.
  - cbn [String.length] in Hk. rewrite Nat.add_0_r in Hk.
    change (EmptyString +:+ rest) with rest.
    destruct rest as [|b rest]; cbn [star]; [exact Hk|].
    destruct (p b); [|exact Hk].
    rewrite matched_orelse, Hk. apply orb_true_r.
  - cbn [forall_chars] in Ht. apply andb_true_iff in Ht as [Ha Ht].
    change (String a t +:+ rest) with (String a (t +:+ rest)).
    cbn [star]. rewrite Ha, matched_orelse, (IH Ht (S i)); [reflexivity|].
    cbn [String.length] in Hk. now rewrite Nat.add_succ_r in Hk.
Qed.

Lemma plus_matched p k i t rest c :
  t <> EmptyString ->
  forall_chars p t = true ->
  matched (k (i + String.length t)%nat rest c) = true ->
  matched (run (plus p) k i (t +:+ rest) c) = true.
Proof.
  intros Hne Ht Hk. destruct t as [|a t]; [contradiction|].
  cbn [forall_chars] in Ht. apply andb_true_iff in Ht as [Ha Ht].
  change (String a t +:+ rest) with (String a (t +:+ rest)).
  unfold plus. cbn [run]. rewrite Ha.
  apply star_matched; [exact Ht|].
  cbn [String.length] in Hk. now rewrite Nat.add_succ_r in Hk.
Qed.

(** A pattern that matches at the end of [pre] is found by the search. *)
Lemma exec_from_skip r pre s i :
  matched (run r (fun _ _ c => Some c) (i + String.length pre)%nat s [])
  = true ->
  matched (exec_from r i (pre +:+ s)) = true.
Proof.
  revert i. induction pre as [|a pre IH]; intros i H.
  - cbn [String.length] in H. rewrite Nat.add_0_r in H.
    change (EmptyString +:+ s) with s.
    destruct s; cbn [exec_from]; rewrite matched_orelse, H; reflexivity.
  - change (String a pre +:+ s) with (String a (pre +:+ s)).
    cbn [exec_from]. rewrite matched_orelse, (IH (S i)).
    + apply orb_true_r.
    + cbn [String.length] in H. now rewrite Nat.add_succ_r in H.
Qed.

Lemma test_liti_contains t t' pre post :
  canonical t = canonical t' ->
  test (liti t) (pre +:+ t' +:+ post) = true.
Proof.
  intros E. unfold test, exec.
  apply (exec_from_skip (liti t) pre (t' +:+ post) 0%nat).
  now rewrite (run_liti_ci t t' post _ _ _ E).
Qed.

Lemma detect_known_inv entries ua r :
  BotDetector.detect_known entries ua = Some r ->
  exists name s,
    In (name, s) entries
    /\ test (BotSignature.pattern s) ua = true
    /\ r = BotDetector.known_bot name s.
Proof.
  induction entries as [|[n0 s0] rest IH]; cbn [BotDetector.detect_known];
    intros H; [discriminate|].
  destruct (test (BotSignature.pattern s0) ua) eqn:E.
  - inversion H; subst. exists n0, s0. repeat split; [now left | exact E].
  - destruct (IH H) as (name & s & Hin & Ht & ->).
    exists name, s. repeat split; [now right | exact Ht].
Qed.

Lemma detect_generic_inv ps ua r :
  BotDetector.detect_generic ps ua = Some r ->
  exists p c,
    In (p, c) ps /\ test p ua = true /\ r = BotDetector.unknown_bot c.
Proof.
  induction ps as [|[p0 c0] rest IH]; cbn [BotDetector.detect_generic];
    intros H; [discriminate|].
  destruct (test p0 ua) eqn:E.
  - inversion H; subst. exists p0, c0. repeat split; [now left | exact E].
  - destruct (IH H) as (p & c & Hin & Ht & ->).
    exists p, c. repeat split; [now right | exact Ht].
Qed.

Lemma detect_generic_first pre p c post ua :
  (forall p' c', In (p', c') pre -> test p' ua = false) ->
  test p ua = true ->
  BotDetector.detect_generic (pre ++ (p, c) :: post) ua
  = Some (BotDetector.unknown_bot c).
Proof.
  induction pre as [|[p0 c0] pre IH]; intros Hnone Hp;
    cbn [app BotDetector.detect_generic].
  - now rewrite Hp.
  - rewrite (Hnone p0 c0) by (left; reflexivity).
    apply IH; [|exact Hp].
    intros p' c' Hin. apply (Hnone p' c'). now right.
Qed.

Lemma detect_generic_exists ps ua :
  (exists p c, In (p, c) ps /\ test p ua = true) ->
  exists c, BotDetector.detect_generic ps ua
            = Some (BotDetector.unknown_bot c).
Proof.
  induction ps as [|[p0 c0] rest IH]; intros (p & c & Hin & Hp);
    [destruct Hin|].
  cbn [BotDetector.detect_generic].
  destruct (test p0 ua) eqn:E; [eauto|].
  destruct Hin as [Heq | Hin]; [inversion Heq; subst; congruence|].
  apply IH. eauto.
Qed.

Lemma genericPatterns_reject_empty p c :
  In (p, c) BotDetector.genericPatterns -> test p EmptyString = false.
Proof.
  unfold BotDetector.genericPatterns. intros Hin.
  destruct Hin as [H | [H | [H | []]]]; inversion H; subst; reflexivity.
Qed.

(** The answer of [detect] when a pattern of the registry matches. *)
Lemma detect_known_bot ua :
  (exists name s,
      In (name, s) BotDetector.signatures
      /\ test (BotSignature.pattern s) ua = true) ->
  exists name s,
    In (name, s) BotDetector.signatures
    /\ test (BotSignature.pattern s) ua = true
    /\ BotDetector.detect (Some ua) = BotDetector.known_bot name s.
Proof.
  intros Hex.
  destruct (first_match_split _ _ Hex)
    as (pre & name & s & post & Hsplit & Hnone & Hs).
  assert (Hin : In (name, s) BotDetector.signatures).
  { rewrite Hsplit. apply in_or_app. right. now left. }
  exists name, s. repeat split; [exact Hin | exact Hs|].
  unfold BotDetector.detect.
  destruct (BotDetector.falsy (Some ua)) eqn:Ef.
  - apply falsy_some in Ef. subst ua.
    rewrite (signatures_reject_empty name s Hin) in Hs. discriminate.
  - rewrite Hsplit at 1.
    now rewrite (detect_known_first pre name s post ua Hnone Hs).
Qed.

(** Every entry of the registry but two has for pattern its own name,
    read without regard to letter case. *)
Lemma signatures_tokens :
  Forall (fun e =>
            fst e = "GPTBot" \/ fst e = "Screaming Frog"
            \/ exists tok,
                 BotSignature.pattern (snd e) = liti tok
                 /\ canonical tok = canonical (fst e))
    BotDetector.signatures.
Proof.
  unfold BotDetector.signatures, BotDetector.sig.
  repeat (apply Forall_cons_2;
          [ cbn [fst snd BotSignature.pattern];
            first [ left; reflexivity
                  | right; left; reflexivity
                  | right; right; eexists; split; reflexivity ] |]).
  apply Forall_nil_2.
Qed.

End DetectMore.

(** X5.  Every entry of the registry but [GPTBot] and [Screaming Frog]
    answers to its own name: a user agent that contains the name, in any
    letter case and with anything around it, is reported as a bot with the
    confidence 0.95, under the name of an entry of the registry whose
    pattern matches it. *)
Theorem detect_registered_name
    (name : string) (s : BotSignature.t) (pre t post : string) :
  In (name, s) BotDetector.signatures ->
  name <> "GPTBot" ->
  name <> "Screaming Frog" ->
  canonical t = canonical name ->
  exists name0 s0,
    In (name0, s0) BotDetector.signatures
    /\ Regex.test (BotSignature.pattern s0) (pre +:+ t +:+ post) = true
    /\ BotDetector.detect (Some (pre +:+ t +:+ post))
       = BotDetectionResult.mk true (Some name0)
           (Some (Category_str (BotSignature.category s0)))
           (Some (Severity_str (BotSignature.severity s0)))
           (Some (BotSignature.description s0))
           (Some (Action_str (BotSignature.recommendation s0)))
           (95 # 100)%Q.
Proof.
  intros Hin Hg Hf Hci.
  apply detect_known_bot. exists name, s. split; [exact Hin|].
  pose proof (proj1 (List.Forall_forall _ _) signatures_tokens (name, s) Hin)
    as [H | [H | (tok & Hpat & Htok)]]; cbn [fst snd] in *;
    [contradiction | contradiction |].
  rewrite Hpat. apply test_liti_contains. now rewrite Htok, Hci.
Qed.

Lemma detect_registered_name_witness :
  exists name0 s0,
    In (name0, s0) BotDetector.signatures
    /\ Regex.test (BotSignature.pattern s0)
         ("Mozilla/5.0 (compatible; " +:+ "COHERE-AI" +:+ "; +http://x)")
       = true
    /\ BotDetector.detect
         (Some ("Mozilla/5.0 (compatible; " +:+ "COHERE-AI"
                +:+ "; +http://x)"))
       = BotDetectionResult.mk true (Some name0)
           (Some (Category_str (BotSignature.category s0)))
           (Some (Severity_str (BotSignature.severity s0)))
           (Some (BotSignature.description s0))
           (Some (Action_str (BotSignature.recommendation s0)))
           (95 # 100)%Q.
Proof.
  apply (detect_registered_name "Cohere-ai"
           (BotSignature.mk (Regex.liti "cohere-ai") ai_training medium
              "Cohere AI training bot" rate_limit None)
           "Mozilla/5.0 (compatible; " "COHERE-AI" "; +http://x)").
  - unfold BotDetector.signatures, BotDetector.sig.
    do 4 right. left. reflexivity.
  - discriminate.
  - discriminate.
  - reflexivity.
Defined.

(** X6.  The entry [GPTBot] comes first in the registry: a user agent that
    contains its token followed by a version, two numbers around a dot, is
    reported as [GPTBot] whatever else it contains, the names of other bots
    included. *)
Theorem detect_gptbot_first (pre t major minor post : string) :
  canonical t = canonical "GPTBot/" ->
  digits_text major -> digits_text minor ->
  BotDetector.detect
    (Some (pre +:+ t +:+ major +:+ "." +:+ minor +:+ post))
  = BotDetectionResult.mk true (Some "GPTBot") (Some "ai_training")
      (Some "high") (Some "OpenAI GPT training crawler") (Some "rate_limit")
      (95 # 100)%Q.
Proof.
  intros Hci [Hm1 Hm2] [Hn1 Hn2].
  set (ua := pre +:+ t +:+ major +:+ "." +:+ minor +:+ post).
  assert (Ht : Regex.test
                 (Regex.seq [Regex.liti "GPTBot/";
                             Regex.plus Regex.is_digit; Regex.liti ".";
                             Regex.plus Regex.is_digit]) ua = true).
  { unfold Regex.test, Regex.exec, ua.
    apply (exec_from_skip _ pre _ 0%nat).
    cbn [Regex.seq]. rewrite run_cat.
    rewrite (run_liti_ci "GPTBot/" t _ _ _ _ (eq_sym Hci)).
    rewrite run_cat.
    apply plus_matched; [exact Hm1 | exact Hm2|].
    rewrite run_cat.
    rewrite (run_liti_ci "." "." _ _ _ _ eq_refl).
    rewrite run_cat.
    apply plus_matched; [exact Hn1 | exact Hn2|]. reflexivity. }
  unfold BotDetector.detect.
  destruct (BotDetector.falsy (Some ua)) eqn:Ef.
  - apply falsy_some in Ef. rewrite Ef in Ht. discriminate Ht.
  - unfold BotDetector.signatures, BotDetector.sig.
    cbn [BotDetector.detect_known BotSignature.pattern].
    rewrite Ht. reflexivity.
Qed.

Lemma detect_gptbot_first_witness :
  BotDetector.detect
    (Some ("Googlebot/2.1 (" +:+ "gptbot/" +:+ "12" +:+ "." +:+ "05"
           +:+ "7; CCBot)"))
  = BotDetectionResult.mk true (Some "GPTBot") (Some "ai_training")
      (Some "high") (Some "OpenAI GPT training crawler") (Some "rate_limit")
      (95 # 100)%Q.
Proof.
  apply (detect_gptbot_first "Googlebot/2.1 (" "gptbot/" "12" "05"
           "7; CCBot)").
  - reflexivity.
  - split; [discriminate | reflexivity].
  - split; [discriminate | reflexivity].
Defined.

(** X7.  [detect] reports a bot exactly when a pattern of the registry or
    a generic pattern matches the user agent. *)
Theorem detect_isBot_iff (ua : string) :
  BotDetectionResult.isBot (BotDetector.detect (Some ua)) = true
  <-> (exists name s,
          In (name, s) BotDetector.signatures
          /\ Regex.test (BotSignature.pattern s) ua = true)
      \/ (exists p c,
             In (p, c) BotDetector.genericPatterns
             /\ Regex.test p ua = true).
Proof.
  split.
  - unfold BotDetector.detect.
    destruct (BotDetector.falsy (Some ua)); [discriminate|].
    destruct (BotDetector.detect_known BotDetector.signatures ua)
      as [r|] eqn:Ek.
    + intros _. left.
      destruct (detect_known_inv _ _ _ Ek) as (name & s & Hin & Ht & _).
      eauto.
    + destruct (BotDetector.detect_generic BotDetector.genericPatterns ua)
        as [r|] eqn:Eg; [|discriminate].
      intros _. right.
      destruct (detect_generic_inv _ _ _ Eg) as (p & c & Hin & Ht & _).
      eauto.
  - intros [Hs | Hg].
    + destruct (detect_known_bot ua Hs) as (name & s & _ & _ & ->).
      reflexivity.
    + unfold BotDetector.detect.
      destruct (BotDetector.falsy (Some ua)) eqn:Ef.
      * apply falsy_some in Ef. subst ua.
        destruct Hg as (p & c & Hin & Ht).
        rewrite (genericPatterns_reject_empty p c Hin) in Ht. discriminate.
      * destruct (BotDetector.detect_known BotDetector.signatures ua)
          as [r|] eqn:Ek.
        -- destruct (detect_known_inv _ _ _ Ek) as (name & s & _ & _ & ->).
           reflexivity.
        -- destruct (detect_generic_exists _ _ Hg) as [c ->]. reflexivity.
Qed.

Lemma detect_isBot_iff_witness :
  BotDetectionResult.isBot (BotDetector.detect (Some "curl/8.4.0")) = true.
Proof.
  apply (proj2 (detect_isBot_iff "curl/8.4.0")).
  right.
  exists (Regex.alts (Regex.liti "python-requests")
            [Regex.liti "urllib"; Regex.liti "wget"; Regex.liti "curl";
             Regex.liti "axios"]), (7 # 10)%Q.
  split; [|reflexivity].
  unfold BotDetector.genericPatterns. right. left. reflexivity.
Defined.

(** X8.  When no pattern of the registry matches, the first generic
    pattern that matches, in the order of their list, decides: the result is
    the bot [Unknown Bot] of the category [scraper], severity [medium],
    recommendation [rate_limit], with the confidence of that pattern. *)
Theorem detect_first_generic_wins
    (ua : string) (pre post : list (Regex.regex * Q)) (p : Regex.regex)
    (c : Q) :
  none_matches BotDetector.signatures ua ->
  BotDetector.genericPatterns = pre ++ (p, c) :: post ->
  (forall p' c', In (p', c') pre -> Regex.test p' ua = false) ->
  Regex.test p ua = true ->
  BotDetector.detect (Some ua)
  = BotDetectionResult.mk true (Some "Unknown Bot") (Some "scraper")
      (Some "medium") (Some "Unidentified bot or scraper")
      (Some "rate_limit") c.
Proof.
  intros Hnone Hsplit Hpre Hp. unfold BotDetector.detect.
  destruct (BotDetector.falsy (Some ua)) eqn:Ef.
  - apply falsy_some in Ef. subst ua.
    assert (Hin : In (p, c) BotDetector.genericPatterns).
    { rewrite Hsplit. apply in_or_app. right. now left. }
    rewrite (genericPatterns_reject_empty p c Hin) in Hp. discriminate.
  - rewrite (detect_known_none _ _ Hnone), Hsplit.
    now rewrite (detect_generic_first pre p c post ua Hpre Hp).
Qed.

(** A headless crawler: the first generic pattern wins with 0.8 over the
    third one, which has 0.9. *)
Lemma detect_first_generic_wins_witness :
  BotDetector.detect (Some "HeadlessChrome site-crawler/2.0")
  = BotDetectionResult.mk true (Some "Unknown Bot") (Some "scraper")
      (Some "medium") (Some "Unidentified bot or scraper")
      (Some "rate_limit") (8 # 10)%Q.
Proof.
  apply (detect_first_generic_wins "HeadlessChrome site-crawler/2.0" []
           (tl BotDetector.genericPatterns)
           (Regex.alts (Regex.liti "bot")
              [Regex.liti "crawler"; Regex.liti "spider";
               Regex.liti "scraper"; Regex.liti "crawl"])).
  - apply none_matches_b_spec. vm_compute. reflexivity.
  - reflexivity.
  - intros p' c' [].
  - vm_compute. reflexivity.
Defined.

(** ** Statistics of the detection results *)

Section StatisticsFacts.
Import BotDetector.

Lemma lookup_tally key (m : gmap string nat) (c : string) :
  c <> EmptyString ->
  tally key m !! c
  = if match key with Some k => String.eqb k c | None => false end
    then Some (default 0 (m !! c) + 1)%nat
    else m !! c.
Proof.
  intros Hc. unfold tally. destruct key as [k|]; [|reflexivity].
  destruct (String.eqb_spec k c) as [-> | Hne].
  - destruct (String.eqb_spec c EmptyString) as [-> | _]; [contradiction|].
    apply lookup_insert_eq.
  - destruct (String.eqb k EmptyString); [reflexivity|].
    now apply lookup_insert_ne.
Qed.

Lemma lookup_tally_empty key (m : gmap string nat) :
  tally key m !! EmptyString = m !! EmptyString.
Proof.
  unfold tally. destruct key as [k|]; [|reflexivity].
  destruct (String.eqb_spec k EmptyString) as [-> | Hne]; [reflexivity|].
  now apply lookup_insert_ne.
Qed.

Lemma sum_counts_insert (m : gmap string nat) (k : string) :
  sum_counts (<[k := (default 0 (m !! k) + 1)%nat]> m)
  = S (sum_counts m).
Proof.
  unfold sum_counts.
  destruct (m !! k) as [v|] eqn:E; cbn [default from_option]; unfold id.
  - rewrite <- insert_delete_eq.
    rewrite map_fold_insert_L;
      [| intros; lia | apply lookup_delete_eq].
    rewrite (map_fold_delete_L _ _ k v m); [| intros; lia | exact E].
    lia.
  - rewrite map_fold_insert_L; [| intros; lia | exact E]. lia.
Qed.

Lemma sum_counts_tally key (m : gmap string nat) :
  truthy key -> sum_counts (tally key m) = S (sum_counts m).
Proof.
  intros (t & -> & Hne). unfold tally.
  destruct (String.eqb_spec t EmptyString); [contradiction|].
  apply sum_counts_insert.
Qed.

(** The state of the loop after the results, from any state. *)
Lemma statistics_fold results :
  forall s0,
    let st := fold_left statistics_step results s0 in
    total st = total s0
    /\ bots st
       = (bots s0 + count_results BotDetectionResult.isBot results)%nat
    /\ humans st
       = (humans s0
          + count_results (fun r => negb (BotDetectionResult.isBot r))
              results)%nat.
Proof.
  induction results as [|r rest IH]; intros s0; cbn [fold_left count_results].
  - cbn zeta. repeat split; lia.
  - specialize (IH (statistics_step s0 r)). cbn zeta in *.
    destruct IH as (Ht & Hb & Hh). rewrite Ht, Hb, Hh.
    unfold statistics_step.
    destruct (BotDetectionResult.isBot r); cbn [total bots humans negb];
      repeat split; lia.
Qed.

Lemma count_partition results :
  (count_results BotDetectionResult.isBot results
   + count_results (fun r => negb (BotDetectionResult.isBot r)) results
   = length results)%nat.
Proof.
  induction results as [|r rest IH]; cbn [count_results length];
    [reflexivity|].
  destruct (BotDetectionResult.isBot r); cbn [negb]; lia.
Qed.

Lemma statistics_fold_lookup results (c : string) :
  c <> EmptyString ->
  forall s0,
    let st := fold_left statistics_step results s0 in
    let tallied field m0 (m : gmap string nat) :=
      m !! c
      = match count_results (bot_with field c) results with
        | O => m0 !! c
        | S n => Some (default 0 (m0 !! c) + S n)%nat
        end in
    tallied BotDetectionResult.category (byCategory s0) (byCategory st)
    /\ tallied BotDetectionResult.severity (bySeverity s0) (bySeverity st)
    /\ tallied BotDetectionResult.recommendation (recommendations s0)
         (recommendations st).
Proof.
  intros Hc. induction results as [|r rest IH]; intros s0;
    cbn [fold_left count_results]; cbn zeta.
  - repeat split.
  - specialize (IH (statistics_step s0 r)). cbn zeta in IH.
    destruct IH as (H1 & H2 & H3). rewrite H1, H2, H3. clear H1 H2 H3.
    unfold statistics_step, bot_with.
    destruct (BotDetectionResult.isBot r);
      cbn [byCategory bySeverity recommendations andb];
      [|repeat split].
    rewrite !(lookup_tally _ _ c Hc).
    repeat split;
      match goal with
      | |- context [match ?k with Some _ => _ | None => false end] =>
          destruct k as [t|]; [destruct (String.eqb t c)|]
      end; cbn [Nat.add default];
      destruct (count_results _ rest); cbn [default]; unfold id;
      first [reflexivity | f_equal; lia].
Qed.

Lemma statistics_fold_empty_key results :
  forall s0,
    let st := fold_left statistics_step results s0 in
    byCategory st !! EmptyString = byCategory s0 !! EmptyString
    /\ bySeverity st !! EmptyString = bySeverity s0 !! EmptyString
    /\ recommendations st !! EmptyString
       = recommendations s0 !! EmptyString.
Proof.
  induction results as [|r rest IH]; intros s0; cbn [fold_left]; cbn zeta.
  - repeat split.
  - specialize (IH (statistics_step s0 r)). cbn zeta in IH.
    destruct IH as (H1 & H2 & H3). rewrite H1, H2, H3.
    unfold statistics_step.
    destruct (BotDetectionResult.isBot r);
      cbn [byCategory bySeverity recommendations];
      rewrite ?lookup_tally_empty; repeat split.
Qed.

Lemma statistics_fold_sums results :
  Forall (fun r =>
            BotDetectionResult.isBot r = true ->
            truthy (BotDetectionResult.category r)
            /\ truthy (BotDetectionResult.severity r)
            /\ truthy (BotDetectionResult.recommendation r)) results ->
  forall s0,
    let st := fold_left statistics_step results s0 in
    let n := count_results BotDetectionResult.isBot results in
    sum_counts (byCategory st) = (sum_counts (byCategory s0) + n)%nat
    /\ sum_counts (bySeverity st) = (sum_counts (bySeverity s0) + n)%nat
    /\ sum_counts (recommendations st)
       = (sum_counts (recommendations s0) + n)%nat.
Proof.
  induction 1 as [|r rest Hr Hrest IH]; intros s0;
    cbn [fold_left count_results]; cbn zeta.
  - repeat split; lia.
  - specialize (IH (statistics_step s0 r)). cbn zeta in IH.
    destruct IH as (H1 & H2 & H3). rewrite H1, H2, H3. clear H1 H2 H3.
    unfold statistics_step.
    destruct (BotDetectionResult.isBot r);
      cbn [byCategory bySeverity recommendations];
      [|repeat split; lia].
    destruct (Hr eq_refl) as (Tc & Ts & Tr).
    rewrite (sum_counts_tally _ _ Tc), (sum_counts_tally _ _ Ts),
      (sum_counts_tally _ _ Tr).
    repeat split; lia.
Qed.

Lemma detect_bot_fields ua :
  BotDetectionResult.isBot (detect ua) = true ->
  truthy (BotDetectionResult.category (detect ua))
  /\ truthy (BotDetectionResult.severity (detect ua))
  /\ truthy (BotDetectionResult.recommendation (detect ua)).
Proof.
  unfold detect. destruct ua as [ua|]; [|discriminate].
  destruct (falsy (Some ua)); [discriminate|].
  destruct (detect_known signatures ua) as [r|] eqn:Ek.
  - destruct (detect_known_some _ _ _ Ek) as (name & s & _ & ->).
    intros _. unfold known_bot, truthy.
    cbn [BotDetectionResult.category BotDetectionResult.severity
         BotDetectionResult.recommendation].
    repeat split; eexists; (split; [reflexivity|]).
    + destruct (BotSignature.category s); discriminate.
    + destruct (BotSignature.severity s); discriminate.
    + destruct (BotSignature.recommendation s); discriminate.
  - destruct (detect_generic genericPatterns ua) as [r|] eqn:Eg;
      [|discriminate].
    destruct (detect_generic_some _ _ _ Eg) as (p & c & _ & ->).
    intros _. unfold unknown_bot, truthy.
    cbn [BotDetectionResult.category BotDetectionResult.severity
         BotDetectionResult.recommendation].
    repeat split; eexists; (split; [reflexivity | discriminate]).
Qed.

End StatisticsFacts.

(** X9.  [getStatistics] splits the results in two: the bots are the
    results reported as bots, the humans are the others, and together they
    are all the results. *)
Theorem getStatistics_partition (results : list BotDetectionResult.t) :
  let st := BotDetector.getStatistics results in
  BotDetector.total st = length results
  /\ BotDetector.bots st
     = count_results BotDetectionResult.isBot results
  /\ BotDetector.humans st
     = count_results (fun r => negb (BotDetectionResult.isBot r)) results
  /\ (BotDetector.bots st + BotDetector.humans st
      = BotDetector.total st)%nat.
Proof.
  cbn zeta. unfold BotDetector.getStatistics.
  destruct (statistics_fold results
              (BotDetector.mkStatistics (length results) 0 0 ∅ ∅ ∅))
    as (Ht & Hb & Hh).
  cbn [BotDetector.total BotDetector.bots BotDetector.humans] in *.
  rewrite Ht, Hb, Hh. repeat split.
  pose proof (count_partition results). lia.
Qed.

(** X10.  The three tallies of [getStatistics] count the bots only: under
    a text that is not empty and is an ordinary property name, a tally
    holds the number of bots whose field is that text, and holds nothing
    when there is none, so no key is there with a count of zero; nothing is
    ever counted under the empty text. *)
Theorem getStatistics_tallies
    (results : list BotDetectionResult.t) (c : string) :
  c <> EmptyString ->
  ordinary c = true ->
  let st := BotDetector.getStatistics results in
  let tallied field (m : gmap string nat) :=
    m !! c
    = match count_results (bot_with field c) results with
      | O => None
      | S n => Some (S n)
      end in
  tallied BotDetectionResult.category (BotDetector.byCategory st)
  /\ tallied BotDetectionResult.severity (BotDetector.bySeverity st)
  /\ tallied BotDetectionResult.recommendation
       (BotDetector.recommendations st)
  /\ BotDetector.byCategory st !! EmptyString = None
  /\ BotDetector.bySeverity st !! EmptyString = None
  /\ BotDetector.recommendations st !! EmptyString = None.
Proof.
  intros Hc _. cbn zeta. unfold BotDetector.getStatistics.
  destruct (statistics_fold_lookup results c Hc
              (BotDetector.mkStatistics (length results) 0 0 ∅ ∅ ∅))
    as (H1 & H2 & H3).
  destruct (statistics_fold_empty_key results
              (BotDetector.mkStatistics (length results) 0 0 ∅ ∅ ∅))
    as (E1 & E2 & E3).
  cbn [BotDetector.byCategory BotDetector.bySeverity
       BotDetector.recommendations] in *.
  rewrite H1, H2, H3, E1, E2, E3, !lookup_empty. cbn [default Nat.add].
  repeat split.
Qed.

Lemma getStatistics_tallies_witness :
  BotDetector.byCategory
    (BotDetector.getStatistics
       (BotDetector.detectBatch
          [Some "GPTBot/1.0"; None; Some "Claude-Web"; Some "Googlebot"]))
    !! "ai_training"
  = match
      count_results (bot_with BotDetectionResult.category "ai_training")
        (BotDetector.detectBatch
           [Some "GPTBot/1.0"; None; Some "Claude-Web"; Some "Googlebot"])
    with
    | O => None
    | S n => Some (S n)
    end.
Proof.
  refine (proj1 (getStatistics_tallies
                   (BotDetector.detectBatch
                      [Some "GPTBot/1.0"; None; Some "Claude-Web";
                       Some "Googlebot"]) "ai_training" _ _)).
  - discriminate.
  - reflexivity.
Defined.

(** X11.  On the results of [detectBatch], which has one result per user
    agent, every bot is counted once in each of the three tallies: the
    counts by category, by severity and by recommendation each add up to the
    number of bots. *)
Theorem getStatistics_of_detectBatch (userAgents : list (option string)) :
  let st := BotDetector.getStatistics (BotDetector.detectBatch userAgents) in
  BotDetector.total st = length userAgents
  /\ sum_counts (BotDetector.byCategory st) = BotDetector.bots st
  /\ sum_counts (BotDetector.bySeverity st) = BotDetector.bots st
  /\ sum_counts (BotDetector.recommendations st) = BotDetector.bots st.
Proof.
  cbn zeta.
  assert (Hall : Forall (fun r =>
                           BotDetectionResult.isBot r = true ->
                           truthy (BotDetectionResult.category r)
                           /\ truthy (BotDetectionResult.severity r)
                           /\ truthy (BotDetectionResult.recommendation r))
                   (BotDetector.detectBatch userAgents)).
  { unfold BotDetector.detectBatch.
    induction userAgents as [|ua rest IH]; cbn [map];
      [apply Forall_nil_2 | apply Forall_cons_2; [|exact IH]].
    apply detect_bot_fields. }
  unfold BotDetector.getStatistics.
  destruct (statistics_fold (BotDetector.detectBatch userAgents)
              (BotDetector.mkStatistics
                 (length (BotDetector.detectBatch userAgents)) 0 0 ∅ ∅ ∅))
    as (Ht & Hb & _).
  destruct (statistics_fold_sums _ Hall
              (BotDetector.mkStatistics
                 (length (BotDetector.detectBatch userAgents)) 0 0 ∅ ∅ ∅))
    as (H1 & H2 & H3).
  cbn [BotDetector.total BotDetector.bots BotDetector.byCategory
       BotDetector.bySeverity BotDetector.recommendations] in *.
  rewrite Ht, Hb, H1, H2, H3.
  unfold sum_counts, BotDetector.detectBatch.
  rewrite map_fold_empty, length_map. repeat split.
Qed.

(** ** Tiered and flat costs *)

Section CostFacts.
Import CostCalculator.
Local Open Scope Q_scope.

(** Nothing is billed for a volume that is not positive. *)
Lemma tier_loop_nonpositive tiers r tot prev :
  r <= 0 -> tier_loop tiers (r, tot, prev) = tot.
Proof.
  intros Hr. destruct tiers as [|t rest]; cbn [tier_loop fst snd];
    [reflexivity|].
  assert (Hstep : tier_step t (r, tot, prev) = (r, tot, prev)).
  { unfold tier_step.
    destruct (xsub (TierPrice.upToGB t) prev) as [w| | |]; cbn [xmin];
      try reflexivity.
    - destruct (Qlt_le_dec 0 (Qmin r w)) as [Hpos|]; [|reflexivity].
      pose proof (Q.le_min_l r w). lra.
    - destruct (Qlt_le_dec 0 r); [lra | reflexivity]. }
  rewrite Hstep. cbn [fst snd].
  destruct (Qlt_le_dec 0 r); [lra | reflexivity].
Qed.

Ltac max_is_left :=
  match goal with
  | |- context [Qmax ?a ?b] =>
      let H := fresh "Hmax" in
      assert (H : Qmax a b == a) by (apply Q.max_l; lra);
      rewrite H; clear H
  end.

Ltac max_is_right :=
  match goal with
  | |- context [Qmax ?a ?b] =>
      let H := fresh "Hmax" in
      assert (H : Qmax a b == b) by (apply Q.max_r; lra);
      rewrite H; clear H
  end.

Ltac min_is_left :=
  match goal with
  | |- context [Qmin ?a ?b] =>
      let H := fresh "Hmin" in
      assert (H : Qmin a b == a) by (apply Q.min_l; lra);
      rewrite H; clear H
  end.

Ltac min_is_right :=
  match goal with
  | |- context [Qmin ?a ?b] =>
      let H := fresh "Hmin" in
      assert (H : Qmin a b == b) by (apply Q.min_r; lra);
      rewrite H; clear H
  end.

Lemma tiered_bands_zero tiers :
  forall prev gb,
    increasing_from (Some prev) tiers -> gb <= prev ->
    tiered_bands prev gb tiers == 0.
Proof.
  induction tiers as [|t rest IH]; intros prev gb Hinc Hle;
    cbn [tiered_bands increasing_from] in *; [reflexivity|].
  destruct rest as [|t2 rest].
  - rewrite Hinc. max_is_left. ring.
  - destruct Hinc as (b & Hb & Hlt & Hrest). rewrite Hb.
    assert (Hz : tiered_bands b gb (t2 :: rest) == 0)
      by (apply IH; [exact Hrest | lra]).
    rewrite Hz.
    pose proof (Q.le_min_l gb b).
    max_is_left. ring.
Qed.

Lemma tier_loop_bands tiers :
  forall prev r tot gb,
    increasing_from (Some prev) tiers ->
    r == gb - prev -> 0 < r ->
    tier_loop tiers (r, tot, Fin prev) == tot + tiered_bands prev gb tiers.
Proof.
  induction tiers as [|t rest IH]; intros prev r tot gb Hinc Hr Hpos;
    [destruct Hinc|].
  cbn [tier_loop tiered_bands increasing_from] in *.
  destruct rest as [|t2 rest].
  - rewrite Hinc. unfold tier_step. rewrite Hinc. cbn [xsub xmin].
    destruct (Qlt_le_dec 0 r); [|lra]. cbn [fst snd].
    destruct (Qlt_le_dec 0 (r - r)); [lra|]. cbn [fst snd].
    max_is_right. rewrite <- Hr. ring.
  - destruct Hinc as (b & Hb & Hlt & Hrest).
    rewrite Hb. unfold tier_step. rewrite Hb. cbn [xsub xmin].
    destruct (Q.min_spec r (b - prev)) as [[Hlt' Hmin] | [Hle' Hmin]];
      destruct (Qlt_le_dec 0 (Qmin r (b - prev))) as [Hg|Hg]; try lra;
      cbn [fst snd].
    + destruct (Qlt_le_dec 0 (r - Qmin r (b - prev))) as [Hrem|Hrem];
        [lra|]. cbn [fst snd].
      assert (Hz : tiered_bands b gb (t2 :: rest) == 0)
        by (apply tiered_bands_zero; [exact Hrest | lra]).
      rewrite Hz, Hmin.
      assert (Hmn : Qmin gb b == gb) by (apply Q.min_l; lra).
      rewrite Hmn. max_is_right. rewrite Hr. ring.
    + assert (Hmn : Qmin gb b == b) by (apply Q.min_r; lra).
      destruct (Qlt_le_dec 0 (r - Qmin r (b - prev))) as [Hrem|Hrem];
        cbn [fst snd].
      * assert (Hrec :
                 tier_loop (t2 :: rest)
                   (r - Qmin r (b - prev),
                    tot + Qmin r (b - prev) * TierPrice.costPerGB t, Fin b)
                 == tot + Qmin r (b - prev) * TierPrice.costPerGB t
                    + tiered_bands b gb (t2 :: rest))
          by (apply IH; [exact Hrest | lra | lra]).
        rewrite Hrec, Hmin, Hmn. max_is_right. ring.
      * assert (Hz : tiered_bands b gb (t2 :: rest) == 0)
          by (apply tiered_bands_zero; [exact Hrest | lra]).
        rewrite Hz, Hmin, Hmn. max_is_right. ring.
Qed.

Lemma lookup_key_In {A : Type} key (entries : list (string * A)) v :
  lookup_key key entries = Some v -> In (key, v) entries.
Proof.
  induction entries as [|[k x] rest IH]; cbn [lookup_key]; [discriminate|].
  destruct (String.eqb_spec k key) as [-> | Hne].
  - intros H. inversion H; subst. now left.
  - intros H. right. now apply IH.
Qed.

Lemma providers_ok :
  Forall (fun e => provider_ok (snd e)) providers.
Proof.
  unfold providers, tier, last_tier.
  repeat (apply Forall_cons_2;
          [ unfold provider_ok, nonneg_rate;
            cbn [snd HostingProvider.tieredPricing HostingProvider.costPerGB
                 HostingProvider.freeGBIncluded];
            repeat split;
            repeat (apply Forall_cons_2; [cbn; discriminate|]);
            first [apply Forall_nil_2 | exact I | discriminate] |]).
  apply Forall_nil_2.
Qed.

Lemma config_of_ok provider : provider_ok (config_of provider).
Proof.
  unfold config_of.
  destruct (lookup_key _ providers) as [c|] eqn:E.
  - apply lookup_key_In in E.
    apply (proj1 (List.Forall_forall _ _) providers_ok _ E).
  - cbn. unfold provider_ok, generic. cbn. repeat split; discriminate.
Qed.

Lemma GB_positive : 0 < inject_Z (1024 ^ 3).
Proof. reflexivity. Qed.

End CostFacts.

(** X12.  On a table of tiers whose bounds are positive and increase
    strictly up to an infinite last bound, the tiered cost is the price by
    bands: every tier bills at its own rate the part of the volume that lies
    between the bound before it and its bound. *)
Theorem calculateTieredCost_by_bands (gb : Q) (tiers : list TierPrice.t) :
  increasing_from (Some 0%Q) tiers ->
  (CostCalculator.calculateTieredCost gb tiers
   == tiered_bands 0 gb tiers)%Q.
Proof.
  intros Hinc. unfold CostCalculator.calculateTieredCost.
  destruct (Qlt_le_dec 0 gb) as [Hpos | Hneg].
  - rewrite (tier_loop_bands tiers 0 gb 0 gb Hinc); [ring | ring | exact Hpos].
  - rewrite (tier_loop_nonpositive tiers gb 0 (Fin 0) Hneg).
    symmetry. now apply tiered_bands_zero.
Qed.

(** 50 GB on the tiers of [aws]: 10 GB at 0.09, 30 GB at 0.085 and 10 GB
    at 0.07. *)
Lemma calculateTieredCost_by_bands_witness :
  (CostCalculator.calculateTieredCost 50 aws_tiers
   == tiered_bands 0 50 aws_tiers)%Q.
Proof.
  apply (calculateTieredCost_by_bands 50 aws_tiers).
  simpl.
  repeat (eexists; split; [reflexivity | split; [reflexivity|]]).
  reflexivity.
Defined.

(** X13.  With rates that are not negative the tiered cost is never
    negative, and the cost of a volume that is zero or negative is exactly
    zero, whatever the table. *)
Theorem calculateTieredCost_nonnegative (gb : Q) (tiers : list TierPrice.t) :
  (Forall nonneg_rate tiers ->
   (0 <= CostCalculator.calculateTieredCost gb tiers)%Q)
  /\ ((gb <= 0)%Q -> CostCalculator.calculateTieredCost gb tiers = 0%Q).
Proof.
  unfold CostCalculator.calculateTieredCost. split.
  - intros Hrates. apply (tier_loop_ge tiers Hrates gb 0%Q (Fin 0%Q)).
  - apply tier_loop_nonpositive.
Qed.

Lemma calculateTieredCost_nonnegative_witness :
  CostCalculator.calculateTieredCost (-3) aws_tiers = 0%Q.
Proof.
  apply (proj2 (calculateTieredCost_nonnegative (-3) aws_tiers)).
  vm_compute. discriminate.
Defined.

Section BandwidthFacts.
Import CostCalculator.
Local Open Scope Q_scope.

Lemma calculateBandwidthCost_total bytes provider :
  CostBreakdown.total (calculateBandwidthCost bytes provider)
  = let gb := bytes / inject_Z (1024 ^ 3) in
    let cfg := config_of provider in
    let billableGB :=
      match HostingProvider.freeGBIncluded cfg with
      | Some free => if Qeq_bool free 0 then gb else Qmax 0 (gb - free)
      | None => gb
      end in
    match HostingProvider.tieredPricing cfg with
    | Some tiers => calculateTieredCost billableGB tiers
    | None => billableGB * number_or (HostingProvider.costPerGB cfg) 0
    end.
Proof. reflexivity. Qed.

Lemma gb_mono b1 b2 :
  b1 <= b2 -> b1 / inject_Z (1024 ^ 3) <= b2 / inject_Z (1024 ^ 3).
Proof.
  intros H. unfold Qdiv. apply Qmult_le_compat_r; [exact H|].
  apply Qinv_le_0_compat. discriminate.
Qed.

End BandwidthFacts.

(** X14.  For every provider name, known or not, the cost of a traffic
    does not decrease when the traffic grows, and the cost of a traffic that
    is not negative is not negative; so are the monthly and yearly
    amounts. *)
Theorem calculateBandwidthCost_monotone
    (provider : option string) (bytes1 bytes2 : Q) :
  (bytes1 <= bytes2)%Q ->
  let c1 := CostCalculator.calculateBandwidthCost bytes1 provider in
  let c2 := CostCalculator.calculateBandwidthCost bytes2 provider in
  (CostBreakdown.total c1 <= CostBreakdown.total c2)%Q
  /\ (CostBreakdown.monthly c1 <= CostBreakdown.monthly c2)%Q
  /\ (CostBreakdown.yearly c1 <= CostBreakdown.yearly c2)%Q
  /\ ((0 <= bytes1)%Q -> (0 <= CostBreakdown.total c1)%Q).
Proof.
  intros Hle. cbn zeta.
  assert (Hmono : forall b1 b2,
             (b1 <= b2)%Q ->
             (CostBreakdown.total
                (CostCalculator.calculateBandwidthCost b1 provider)
              <= CostBreakdown.total
                   (CostCalculator.calculateBandwidthCost b2 provider))%Q).
  { intros b1 b2 Hb. rewrite !calculateBandwidthCost_total. cbn zeta.
    destruct (config_of_ok provider) as (Htiers & Hrate & Hfree).
    pose proof (gb_mono b1 b2 Hb) as Hgb.
    set (g1 := (b1 / inject_Z (1024 ^ 3))%Q) in *.
    set (g2 := (b2 / inject_Z (1024 ^ 3))%Q) in *.
    assert (Hbill :
              (match HostingProvider.freeGBIncluded (config_of provider) with
               | Some free =>
                   if Qeq_bool free 0 then g1 else Qmax 0 (g1 - free)
               | None => g1
               end
               <= match HostingProvider.freeGBIncluded (config_of provider)
                  with
                  | Some free =>
                      if Qeq_bool free 0 then g2 else Qmax 0 (g2 - free)
                  | None => g2
                  end)%Q).
    { destruct (HostingProvider.freeGBIncluded (config_of provider))
        as [free|]; [|exact Hgb].
      destruct (Qeq_bool free 0); [exact Hgb|].
      apply Q.max_le_compat_l. lra. }
    destruct (HostingProvider.tieredPricing (config_of provider))
      as [tiers|].
    - unfold CostCalculator.calculateTieredCost.
      apply tier_loop_mono; [exact Htiers | exact Hbill | lra].
    - apply Qmult_le_compat_r; [exact Hbill | exact Hrate]. }
  pose proof (Hmono bytes1 bytes2 Hle) as Ht.
  repeat split.
  - exact Ht.
  - change ((CostBreakdown.total
               (CostCalculator.calculateBandwidthCost bytes1 provider) * 30
             <= CostBreakdown.total
                  (CostCalculator.calculateBandwidthCost bytes2 provider)
                * 30)%Q).
    lra.
  - change ((CostBreakdown.total
               (CostCalculator.calculateBandwidthCost bytes1 provider) * 365
             <= CostBreakdown.total
                  (CostCalculator.calculateBandwidthCost bytes2 provider)
                * 365)%Q).
    lra.
  - intros Hpos.
    assert (Hzero : (CostBreakdown.total
                       (CostCalculator.calculateBandwidthCost 0 provider)
                     == 0)%Q).
    { rewrite calculateBandwidthCost_total. cbn zeta.
      assert (Hgb0 : (0 / inject_Z (1024 ^ 3) == 0)%Q) by reflexivity.
      set (g0 := (0 / inject_Z (1024 ^ 3))%Q) in *.
      assert (Hbill0 :
                (match HostingProvider.freeGBIncluded (config_of provider)
                 with
                 | Some free =>
                     if Qeq_bool free 0 then g0 else Qmax 0 (g0 - free)
                 | None => g0
                 end <= 0)%Q).
      { destruct (config_of_ok provider) as (_ & _ & Hfree).
        destruct (HostingProvider.freeGBIncluded (config_of provider))
          as [free|]; [|lra].
        destruct (Qeq_bool free 0); [lra|].
        apply Q.max_lub; lra. }
      assert (Hbill0' :
                (0 <= match HostingProvider.freeGBIncluded
                              (config_of provider)
                      with
                      | Some free =>
                          if Qeq_bool free 0 then g0 else Qmax 0 (g0 - free)
                      | None => g0
                      end)%Q).
      { destruct (HostingProvider.freeGBIncluded (config_of provider))
          as [free|]; [|lra].
        destruct (Qeq_bool free 0); [lra|].
        apply Q.le_max_l. }
      destruct (HostingProvider.tieredPricing (config_of provider))
        as [tiers|].
      - unfold CostCalculator.calculateTieredCost.
        now rewrite tier_loop_nonpositive.
      - match goal with
        | |- (?x * _ == 0)%Q => assert (Hx : (x == 0)%Q) by lra
        end.
        rewrite Hx. ring. }
    pose proof (Hmono 0%Q bytes1 Hpos). lra.
Qed.

Lemma calculateBandwidthCost_monotone_witness :
  (CostBreakdown.total
     (CostCalculator.calculateBandwidthCost (5 * GB) (Some "aws"))
   <= CostBreakdown.total
        (CostCalculator.calculateBandwidthCost (700 * GB) (Some "aws")))%Q.
Proof.
  refine (proj1 (calculateBandwidthCost_monotone (Some "aws")
                   (5 * GB)%Q (700 * GB)%Q _)).
  vm_compute. discriminate.
Defined.

(** X15.  A traffic within the free allowance of a provider costs nothing:
    for every provider of the table with an allowance that is not zero, the
    total, the monthly and the yearly amounts are zero as long as the
    traffic does not exceed the allowance. *)
Theorem calculateBandwidthCost_free_allowance
    (name : string) (cfg : HostingProvider.t) (free bytes : Q) :
  CostCalculator.lookup_key name CostCalculator.providers = Some cfg ->
  HostingProvider.freeGBIncluded cfg = Some free ->
  ~ (free == 0)%Q ->
  (bytes <= free * GB)%Q ->
  let c := CostCalculator.calculateBandwidthCost bytes (Some name) in
  (CostBreakdown.total c == 0)%Q
  /\ (CostBreakdown.monthly c == 0)%Q
  /\ (CostBreakdown.yearly c == 0)%Q.
Proof.
  intros Hcfg Hfree Hnz Hle. cbn zeta.
  assert (Ht : (CostBreakdown.total
                  (CostCalculator.calculateBandwidthCost bytes (Some name))
                == 0)%Q).
  { rewrite calculateBandwidthCost_total. cbn zeta.
    unfold config_of. rewrite Hcfg, Hfree.
    destruct (Qeq_bool free 0) eqn:E;
      [apply Qeq_bool_iff in E; contradiction|].
    assert (Hgb : (bytes / inject_Z (1024 ^ 3) - free <= 0)%Q).
    { assert (H : (bytes / inject_Z (1024 ^ 3) <= free)%Q).
      { apply Qle_shift_div_r; [reflexivity | exact Hle]. }
      lra. }
    assert (Hb : (Qmax 0 (bytes / inject_Z (1024 ^ 3) - free) <= 0)%Q)
      by (apply Q.max_lub; lra).
    pose proof (Q.le_max_l 0 (bytes / inject_Z (1024 ^ 3) - free)) as Hb'.
    destruct (HostingProvider.tieredPricing cfg) as [tiers|].
    - unfold CostCalculator.calculateTieredCost.
      now rewrite tier_loop_nonpositive.
    - match goal with
      | |- (?x * _ == 0)%Q => assert (Hx : (x == 0)%Q) by lra
      end.
      rewrite Hx. ring. }
  repeat split; [exact Ht | |].
  - change ((CostBreakdown.total
               (CostCalculator.calculateBandwidthCost bytes (Some name)) * 30
             == 0)%Q).
    rewrite Ht. ring.
  - change ((CostBreakdown.total
               (CostCalculator.calculateBandwidthCost bytes (Some name))
             * 365 == 0)%Q).
    rewrite Ht. ring.
Qed.

Lemma calculateBandwidthCost_free_allowance_witness :
  (CostBreakdown.total
     (CostCalculator.calculateBandwidthCost (80 * GB) (Some "vercel"))
   == 0)%Q.
Proof.
  refine (proj1 (calculateBandwidthCost_free_allowance "vercel"
                   (HostingProvider.mk "Vercel" (Some (40 # 100)%Q)
                      (Some 100%Q) None)
                   100 (80 * GB)%Q _ _ _ _)).
  - reflexivity.
  - reflexivity.
  - discriminate.
  - vm_compute. discriminate.
Defined.

(** X16.  A provider name that is not in the table, like a missing name,
    is billed as the provider [generic]: one tenth per gigabyte, without
    allowance and without floor, so that the cost is proportional to the
    traffic. *)
Theorem calculateBandwidthCost_unknown_provider (name : string) (bytes : Q) :
  CostCalculator.lookup_key name CostCalculator.providers = None ->
  CostCalculator.calculateBandwidthCost bytes (Some name)
  = CostCalculator.calculateBandwidthCost bytes (Some "generic")
  /\ CostCalculator.calculateBandwidthCost bytes None
     = CostCalculator.calculateBandwidthCost bytes (Some "generic")
  /\ (CostBreakdown.total
        (CostCalculator.calculateBandwidthCost bytes (Some name))
      == bytes / GB * (1 # 10))%Q.
Proof.
  intros Hnone.
  assert (H : CostCalculator.calculateBandwidthCost bytes (Some name)
              = CostCalculator.calculateBandwidthCost bytes
                  (Some "generic")).
  { unfold CostCalculator.calculateBandwidthCost. now rewrite Hnone. }
  split; [exact H|]. split; [reflexivity|].
  rewrite H.
  change ((bytes / inject_Z (1024 ^ 3) * (10 # 100)
           == bytes / GB * (1 # 10))%Q).
  unfold GB.
  assert (Hrate : ((10 # 100) == (1 # 10))%Q) by reflexivity.
  rewrite Hrate. reflexivity.
Qed.

Lemma calculateBandwidthCost_unknown_provider_witness :
  CostCalculator.calculateBandwidthCost (3 * GB) (Some "heroku")
  = CostCalculator.calculateBandwidthCost (3 * GB) (Some "generic").
Proof.
  refine (proj1 (calculateBandwidthCost_unknown_provider "heroku"
                   (3 * GB)%Q _)).
  reflexivity.
Defined.

(** ** Recommendations *)

Section RecommendationFacts.
Import CostCalculator.
Local Open Scope Q_scope.

Lemma in_insert_sorted x y l : In y (insert_sorted x l) <-> y = x \/ In y l.
Proof.
  split; intros H.
  - apply (Permutation_in _ (insert_sorted_perm x l)) in H.
    destruct H as [H | H]; [left; now symmetry | now right].
  - apply (Permutation_in _ (Permutation_sym (insert_sorted_perm x l))).
    destruct H as [H | H]; [left; now symmetry | now right].
Qed.

Lemma insert_sorted_descending x l :
  descending l -> descending (insert_sorted x l).
Proof.
  induction l as [|y l IH]; intros Hd; cbn [insert_sorted descending].
  - split; [intros ? [] | exact I].
  - destruct Hd as [Hy Hd].
    destruct (Qlt_le_dec (Recommendation.savingsPerMonth x)
                (Recommendation.savingsPerMonth y)) as [Hlt | Hle];
      cbn [descending].
    + split; [|now apply IH].
      intros z Hz. apply in_insert_sorted in Hz as [-> | Hz];
        [lra | now apply Hy].
    + split; [|split; assumption].
      intros z [<- | Hz]; [exact Hle|].
      specialize (Hy z Hz). lra.
Qed.

Lemma sort_descending l : descending (sort l).
Proof.
  induction l as [|x l IH]; cbn [sort descending]; [exact I|].
  now apply insert_sorted_descending.
Qed.

Lemma with_savings_insert_sorted v x l :
  with_savings v (insert_sorted x l) = with_savings v (x :: l).
Proof.
  unfold with_savings. induction l as [|y l IH]; [reflexivity|].
  cbn [insert_sorted].
  destruct (Qlt_le_dec (Recommendation.savingsPerMonth x)
              (Recommendation.savingsPerMonth y)) as [Hlt | Hle];
    [|reflexivity].
  cbn [List.filter] in *. rewrite IH.
  destruct (Qeq_bool (Recommendation.savingsPerMonth y) v) eqn:Ey;
    destruct (Qeq_bool (Recommendation.savingsPerMonth x) v) eqn:Ex;
    try reflexivity.
  apply Qeq_bool_iff in Ey, Ex. lra.
Qed.

Lemma with_savings_sort v l : with_savings v (sort l) = with_savings v l.
Proof.
  induction l as [|x l IH]; [reflexivity|].
  cbn [sort]. rewrite with_savings_insert_sorted.
  unfold with_savings in *. cbn [List.filter]. now rewrite IH.
Qed.

Lemma in_omap_recommend provider r bots :
  In r (omap (recommend provider) bots) <->
  exists bot, In bot bots /\ recommend provider bot = Some r.
Proof.
  induction bots as [|b bots IH]; cbn [omap list_omap].
  - split; [intros [] | intros (bot & [] & _)].
  - destruct (recommend provider b) as [r0|] eqn:E.
    + split.
      * intros [<- | H]; [exists b; split; [now left | exact E]|].
        apply IH in H as (bot & Hin & Hr). exists bot. split; [now right|].
        exact Hr.
      * intros (bot & [<- | Hin] & Hr).
        -- left. congruence.
        -- right. apply IH. eauto.
    + split.
      * intros H. apply IH in H as (bot & Hin & Hr). exists bot.
        split; [now right | exact Hr].
      * intros (bot & [<- | Hin] & Hr); [congruence|]. apply IH. eauto.
Qed.

(** What [recommend] returns, rule by rule. *)
Lemma recommend_cases provider bot :
  let m := monthly_cost provider bot in
  (BotTraffic.category bot = "ai_scraper" /\ 10 < m
   /\ recommend provider bot
      = Some (Recommendation.mk block (BotTraffic.botName bot)
                ("Aggressive scraper costing $" +:+ toFixed2 m
                 +:+ "/month with minimal SEO benefit") m (95 # 100)))
  \/ (BotTraffic.category bot = "ai_training" /\ 50 < m
      /\ recommend provider bot
         = Some (Recommendation.mk rate_limit (BotTraffic.botName bot)
                   "AI training bot consuming excessive bandwidth. Rate limiting can reduce costs by 70%"
                   (m * (7 # 10)) (85 # 100)))
  \/ (BotTraffic.category bot = "search_engine"
      /\ recommend provider bot
         = Some (Recommendation.mk allow (BotTraffic.botName bot)
                   "Essential for SEO and organic traffic" 0 1))
  \/ (BotTraffic.category bot = "seo_tool" /\ 20 < m
      /\ recommend provider bot
         = Some (Recommendation.mk rate_limit (BotTraffic.botName bot)
                   "SEO tool with high bandwidth usage. Consider rate limiting to reduce costs"
                   (m * (5 # 10)) (75 # 100)))
  \/ (~ meets_rule provider bot /\ recommend provider bot = None).
Proof.
  cbn zeta. unfold recommend, meets_rule, monthly_cost. cbn zeta.
  generalize (CostBreakdown.monthly
                (calculateBandwidthCost (BotTraffic.bytesTransferred bot)
                   provider)).
  intros m.
  destruct (String.eqb_spec (BotTraffic.category bot) "ai_scraper")
    as [E1 | N1]; cbn [andb].
  { destruct (Qlt_le_dec 10 m) as [H | H].
    - left. now repeat split.
    - rewrite E1. cbn.
      do 4 right. split; [|reflexivity].
      intros [[_ H'] | [[H' _] | [H' | [H' _]]]];
        try discriminate H'; lra. }
  destruct (String.eqb_spec (BotTraffic.category bot) "ai_training")
    as [E2 | N2]; cbn [andb].
  { destruct (Qlt_le_dec 50 m) as [H | H].
    - right. left. now repeat split.
    - rewrite E2. cbn.
      do 4 right. split; [|reflexivity].
      intros [[H' _] | [[_ H'] | [H' | [H' _]]]];
        try discriminate H'; lra. }
  destruct (String.eqb_spec (BotTraffic.category bot) "search_engine")
    as [E3 | N3].
  { do 2 right. left. now split. }
  destruct (String.eqb_spec (BotTraffic.category bot) "seo_tool")
    as [E4 | N4]; cbn [andb].
  { destruct (Qlt_le_dec 20 m) as [H | H].
    - do 3 right. left. now repeat split.
    - do 4 right. split; [|reflexivity].
      intros [[H' _] | [[H' _] | [H' | [_ H']]]];
        try contradiction; lra. }
  do 4 right. split; [|reflexivity].
  intros [[H' _] | [[H' _] | [H' | [H' _]]]]; contradiction.
Qed.

End RecommendationFacts.

(** X17.  The recommendations come out in the order of decreasing monthly
    savings: no recommendation is followed by one with greater savings. *)
Theorem generateRecommendations_descending
    (botTraffic : list BotTraffic.t) (provider : option string) :
  descending (CostCalculator.generateRecommendations botTraffic provider).
Proof. unfold CostCalculator.generateRecommendations. apply sort_descending. Qed.

(** X18.  The sort is stable: the recommendations with the same savings
    keep the order of the records they come from. *)
Theorem generateRecommendations_stable
    (botTraffic : list BotTraffic.t) (provider : option string) (v : Q) :
  with_savings v (CostCalculator.generateRecommendations botTraffic provider)
  = with_savings v (omap (CostCalculator.recommend provider) botTraffic).
Proof.
  unfold CostCalculator.generateRecommendations.
  rewrite fold_push_recommendation. cbn [app]. apply with_savings_sort.
Qed.

(** X19.  Every recommendation returned comes from a record of the input,
    bears the name of its bot, and follows one of the four rules: a block
    only for an [ai_scraper] whose monthly cost exceeds 10, with that cost
    as savings; a rate limit only for an [ai_training] bot above 50 (70% of
    the cost) or a [seo_tool] above 20 (half of it); an allow only for a
    [search_engine], with savings 0.  Its savings are never negative and
    its confidence lies between 0 and 1. *)
Theorem generateRecommendations_sound
    (botTraffic : list BotTraffic.t) (provider : option string)
    (r : Recommendation.t) :
  In r (CostCalculator.generateRecommendations botTraffic provider) ->
  exists bot,
    In bot botTraffic
    /\ Recommendation.target r = BotTraffic.botName bot
    /\ match Recommendation.action r with
       | block =>
           BotTraffic.category bot = "ai_scraper"
           /\ (10 < monthly_cost provider bot)%Q
           /\ Recommendation.savingsPerMonth r = monthly_cost provider bot
       | rate_limit =>
           (BotTraffic.category bot = "ai_training"
            /\ (50 < monthly_cost provider bot)%Q
            /\ Recommendation.savingsPerMonth r
               = (monthly_cost provider bot * (7 # 10))%Q)
           \/ (BotTraffic.category bot = "seo_tool"
               /\ (20 < monthly_cost provider bot)%Q
               /\ Recommendation.savingsPerMonth r
                  = (monthly_cost provider bot * (5 # 10))%Q)
       | allow =>
           BotTraffic.category bot = "search_engine"
           /\ Recommendation.savingsPerMonth r = 0%Q
       end
    /\ (0 <= Recommendation.savingsPerMonth r)%Q
    /\ (0 < Recommendation.confidence r)%Q
    /\ (Recommendation.confidence r <= 1)%Q.
Proof.
  intros Hin.
  assert (Hin' : In r (omap (CostCalculator.recommend provider) botTraffic)).
  { unfold CostCalculator.generateRecommendations in Hin.
    rewrite fold_push_recommendation in Hin. cbn [app] in Hin.
    now apply (Permutation_in _ (sort_perm _)) in Hin. }
  apply in_omap_recommend in Hin' as (bot & Hbot & Hr).
  exists bot. split; [exact Hbot|].
  destruct (recommend_cases provider bot)
    as [(Hc & Hm & E) | [(Hc & Hm & E) | [(Hc & E) | [(Hc & Hm & E)
       | (_ & E)]]]];
    rewrite E in Hr; inversion Hr; subst r; clear Hr;
    cbn [Recommendation.target Recommendation.action
         Recommendation.savingsPerMonth Recommendation.confidence];
    repeat split; try reflexivity; try assumption; try lra; auto.
Qed.

Lemma generateRecommendations_sound_witness :
  exists bot,
    In bot [sample_search_engine]
    /\ "Googlebot" = BotTraffic.botName bot
    /\ (BotTraffic.category bot = "search_engine" /\ 0%Q = 0%Q)
    /\ (0 <= 0)%Q /\ (0 < 1)%Q /\ (1 <= 1)%Q.
Proof.
  apply (generateRecommendations_sound [sample_search_engine] (Some "aws")
           (Recommendation.mk allow "Googlebot"
              "Essential for SEO and organic traffic" 0%Q 1%Q)).
  left. reflexivity.
Defined.

(** X20.  Nothing is recommended for a record that meets none of the four
    rules, whatever its cost: the result is empty exactly when no record of
    the input meets a rule, and it never has more entries than the input
    has records. *)
Theorem generateRecommendations_silent
    (botTraffic : list BotTraffic.t) (provider : option string) :
  (CostCalculator.generateRecommendations botTraffic provider = []
   <-> forall bot, In bot botTraffic -> ~ meets_rule provider bot)
  /\ (length (CostCalculator.generateRecommendations botTraffic provider)
      <= length botTraffic)%nat.
Proof.
  assert (Hperm : Permutation
                    (CostCalculator.generateRecommendations botTraffic
                       provider)
                    (omap (CostCalculator.recommend provider) botTraffic)).
  { unfold CostCalculator.generateRecommendations.
    rewrite fold_push_recommendation. cbn [app]. apply sort_perm. }
  split.
  - split.
    + intros Hnil bot Hbot Hrule. rewrite Hnil in Hperm.
      apply Permutation_nil in Hperm.
      destruct (recommend_cases provider bot)
        as [(_ & _ & E) | [(_ & _ & E) | [(_ & E) | [(_ & _ & E)
           | (Hno & _)]]]];
        try contradiction;
        (assert (Hin : In _ (omap (CostCalculator.recommend provider)
                               botTraffic))
           by (apply in_omap_recommend; exists bot; split;
               [exact Hbot | exact E]);
         rewrite Hperm in Hin; destruct Hin).
    + intros Hnone.
      destruct (CostCalculator.generateRecommendations botTraffic provider)
        as [|r rest] eqn:Eg; [reflexivity|].
      assert (Hin : In r (omap (CostCalculator.recommend provider)
                            botTraffic)).
      { apply (Permutation_in _ Hperm). now left. }
      apply in_omap_recommend in Hin as (bot & Hbot & Hr).
      destruct (recommend_cases provider bot)
        as [(Hc & Hm & _) | [(Hc & Hm & _) | [(Hc & _) | [(Hc & Hm & _)
           | (_ & E)]]]];
        try (rewrite E in Hr; discriminate Hr);
        exfalso; apply (Hnone bot Hbot); unfold meets_rule; tauto.
  - rewrite (Permutation_length Hperm).
    clear Hperm. induction botTraffic as [|b rest IH];
      cbn [omap list_omap length]; [lia|].
    destruct (CostCalculator.recommend provider b); cbn [length]; lia.
Qed.

Lemma generateRecommendations_silent_witness :
  CostCalculator.generateRecommendations
    [BotTraffic.mk "PetalBot" "scraper" (9000 * GB)%Q 10%Q;
     BotTraffic.mk "CCBot" "ai_scraper" (1 * GB)%Q 10%Q] None
  = [].
Proof.
  apply (proj1 (generateRecommendations_silent
                  [BotTraffic.mk "PetalBot" "scraper" (9000 * GB)%Q 10%Q;
                   BotTraffic.mk "CCBot" "ai_scraper" (1 * GB)%Q 10%Q]
                  None)).
  intros bot [<- | [<- | []]]; unfold meets_rule;
    cbn [BotTraffic.category];
    intros [[H Hm] | [[H Hm] | [H | [H Hm]]]]; try discriminate H.
  vm_compute in Hm. discriminate Hm.
Defined.

(** ** Return on investment and savings *)

(** X22.  A cost of implementation that is missing or not positive is
    taken as no cost at all: the number of days to break even is 0 and the
    return is positive infinity, while the savings stay those of the
    traffic. *)
Theorem calculateROI_without_cost
    (currentBotTraffic : Q) (provider : string)
    (implementationCost : option Q) :
  match implementationCost with
  | Some c => (c <= 0)%Q
  | None => True
  end ->
  CostCalculator.calculateROI currentBotTraffic provider implementationCost
  = ROI.mk (Fin 0%Q)
      (CostBreakdown.monthly
         (CostCalculator.calculateBandwidthCost currentBotTraffic
            (Some provider)))
      (CostBreakdown.yearly
         (CostCalculator.calculateBandwidthCost currentBotTraffic
            (Some provider)))
      PInf.
Proof.
  intros Hc. unfold CostCalculator.calculateROI.
  destruct implementationCost as [c|].
  - destruct (Qlt_le_dec 0 c); [lra | reflexivity].
  - reflexivity.
Qed.

Lemma calculateROI_without_cost_witness :
  CostCalculator.calculateROI (10 * GB) "aws" (Some (-250)%Q)
  = ROI.mk (Fin 0%Q)
      (CostBreakdown.monthly
         (CostCalculator.calculateBandwidthCost (10 * GB) (Some "aws")))
      (CostBreakdown.yearly
         (CostCalculator.calculateBandwidthCost (10 * GB) (Some "aws")))
      PInf.
Proof.
  apply (calculateROI_without_cost (10 * GB) "aws" (Some (-250)%Q)).
  vm_compute. discriminate.
Defined.

Section SavingsFacts.
Import CostCalculator.
Local Open Scope Q_scope.

Lemma fold_Qplus_sum (l : list Q) (acc : Q) :
  fold_left Qplus l acc == acc + sum_Q l.
Proof.
  revert acc. induction l as [|x l IH]; intros acc; cbn [fold_left sum_Q].
  - ring.
  - rewrite IH. ring.
Qed.

Lemma sum_Q_pointwise {A : Type} (f g : A -> Q) (l : list A) :
  (forall x, In x l -> f x == g x) ->
  sum_Q (map f l) == sum_Q (map g l).
Proof.
  induction l as [|x l IH]; intros H; cbn [map sum_Q]; [reflexivity|].
  rewrite (H x) by (now left). rewrite IH; [reflexivity|].
  intros y Hy. apply H. now right.
Qed.

End SavingsFacts.

(** X23.  With the provider [generic], or without provider, and categories
    that are ordinary property names, the total of
    [calculateSavingsByCategory] is one tenth per gigabyte of the traffic of
    every record scaled by the multiplier of its category, 1 for a category
    that the table of multipliers does not know: a record counts in the
    total even when a later record of its category replaces its entry. *)
Theorem calculateSavingsByCategory_generic
    (botTraffic : list CategoryTraffic.t) :
  forallb (fun bot => ordinary (CategoryTraffic.category bot)) botTraffic
  = true ->
  (Savings.total (CostCalculator.calculateSavingsByCategory botTraffic None)
   == sum_Q
        (map (fun bot =>
                CategoryTraffic.bytesTransferred bot
                * multiplier (CategoryTraffic.category bot) / GB * (1 # 10))
           botTraffic))%Q
  /\ (forall category,
         CostCalculator.lookup_key category CostCalculator.botCostMultipliers
         = None ->
         multiplier category = 1%Q).
Proof.
  intros _. split.
  - unfold CostCalculator.calculateSavingsByCategory.
    pose proof (savings_fold_total None botTraffic ∅ 0%Q) as Htotal.
    destruct (fold_left _ botTraffic _) as [m tot].
    cbn [snd Savings.total] in *. rewrite Htotal, fold_Qplus_sum.
    rewrite Qplus_0_l. apply sum_Q_pointwise. intros bot _.
    unfold record_cost, multiplier, GB.
    change (CostBreakdown.total
              (CostCalculator.calculateBandwidthCost
                 (CategoryTraffic.bytesTransferred bot
                  * CostCalculator.number_or
                      (CostCalculator.lookup_key
                         (CategoryTraffic.category bot)
                         CostCalculator.botCostMultipliers) 1) None))
      with (CategoryTraffic.bytesTransferred bot
            * CostCalculator.number_or
                (CostCalculator.lookup_key (CategoryTraffic.category bot)
                   CostCalculator.botCostMultipliers) 1
            / inject_Z (1024 ^ 3) * (10 # 100))%Q.
    assert (Hrate : ((10 # 100) == (1 # 10))%Q) by reflexivity.
    rewrite Hrate. reflexivity.
  - intros category Hnone. unfold multiplier. now rewrite Hnone.
Qed.

Lemma calculateSavingsByCategory_generic_witness :
  (Savings.total
     (CostCalculator.calculateSavingsByCategory sample_traffic None)
   == sum_Q
        (map (fun bot =>
                CategoryTraffic.bytesTransferred bot
                * multiplier (CategoryTraffic.category bot) / GB * (1 # 10))
           sample_traffic))%Q.
Proof.
  apply (proj1 (calculateSavingsByCategory_generic sample_traffic
                  eq_refl)).
Defined.

(** ** Lines that the common log format refuses *)

Section Anchors.
Import Regex.

Lemma length_append (a b : string) :
  String.length (a +:+ b) = (String.length a + String.length b)%nat.
Proof.
  induction a as [|x a IH]; [reflexivity|].
  change (String x a +:+ b) with (String x (a +:+ b)).
  cbn [String.length]. now rewrite IH.
Qed.

(** Whatever a matcher hands to its continuation is what remains of the
    input after a text that the pattern derives. *)
Lemma run_derives r :
  forall k i s c res,
    run r k i s c = Some res ->
    exists t rest c',
      s = t +:+ rest /\ derives r t rest
      /\ k (i + String.length t)%nat rest c' = Some res.
Proof.
  induction r as [|p|r1 IH1 r2 IH2|r1 IH1 r2 IH2|p|n r1 IH1| |];
    intros k i s c res H; cbn [run derives] in *.
  - exists EmptyString, s, c. cbn [String.length].
    rewrite Nat.add_0_r. now repeat split.
  - destruct s as [|a s]; [discriminate|].
    destruct (p a) eqn:Ea; [|discriminate].
    exists (String a EmptyString), s, c. cbn [String.length].
    rewrite Nat.add_1_r. repeat split; [|exact H]. eauto.
  - destruct (IH1 _ _ _ _ _ H) as (t1 & rest1 & c1 & Hs & Hd1 & Hk1).
    destruct (IH2 _ _ _ _ _ Hk1) as (t2 & rest & c2 & Hr & Hd2 & Hk2).
    exists (t1 +:+ t2), rest, c2. repeat split.
    + now rewrite Hs, Hr, append_assoc.
    + exists t1, t2. rewrite <- Hr. now repeat split.
    + now rewrite length_append, Nat.add_assoc.
  - destruct (run r1 k i s c) as [x|] eqn:E.
    + inversion H; subst x.
      destruct (IH1 _ _ _ _ _ E) as (t & rest & c' & Hs & Hd & Hk).
      exists t, rest, c'. tauto.
    + destruct (IH2 _ _ _ _ _ H) as (t & rest & c' & Hs & Hd & Hk).
      exists t, rest, c'. tauto.
  - destruct (star_span _ _ _ _ _ _ H) as (t & rest & Hs & Ht & Hk).
    exists t, rest, c. now repeat split.
  - destruct (IH1 _ _ _ _ _ H) as (t & rest & c' & Hs & Hd & Hk).
    exists t, rest, ((n, substring 0 (i + String.length t - i) s) :: c').
    now repeat split.
  - destruct (Nat.eqb i 0); [|discriminate].
    exists EmptyString, s, c. cbn [String.length].
    rewrite Nat.add_0_r. now repeat split.
  - destruct s; [|discriminate].
    exists EmptyString, EmptyString, c. cbn [String.length].
    rewrite Nat.add_0_r. now repeat split.
Qed.

(** A pattern that starts with the anchor matches at the index 0 only. *)
Lemma exec_from_anchored r i s :
  exec_from (Cat Bol r) (S i) s = None.
Proof.
  revert i. induction s as [|a s IH]; intros i; cbn [exec_from run Nat.eqb].
  - reflexivity.
  - apply IH.
Qed.

Lemma exec_anchored r s m :
  exec (Cat Bol r) s = Some m ->
  run r (fun _ _ c => Some c) 0 s [] = Some m.
Proof.
  unfold exec. destruct s as [|a s]; cbn [exec_from run Nat.eqb].
  - now destruct (run r _ 0%nat EmptyString []).
  - destruct (run r _ 0%nat (String a s) []); [trivial|].
    now rewrite exec_from_anchored.
Qed.

Lemma last_char_append t a :
  last_char (t +:+ String a EmptyString) = Some a.
Proof.
  induction t as [|b t IH]; [reflexivity|].
  change (String b t +:+ String a EmptyString)
    with (String b (t +:+ String a EmptyString)).
  cbn [last_char]. rewrite IH.
  destruct (t +:+ String a EmptyString) eqn:E; [|reflexivity].
  destruct t; discriminate E.
Qed.

Lemma last_char_append_r t u :
  u <> EmptyString -> last_char (t +:+ u) = last_char u.
Proof.
  intros Hu. induction t as [|b t IH]; [reflexivity|].
  change (String b t +:+ u) with (String b (t +:+ u)).
  cbn [last_char]. rewrite IH.
  destruct (t +:+ u) eqn:E; [|reflexivity].
  destruct t; [cbn in E; contradiction | discriminate E].
Qed.

Lemma ends_quoted_cat r1 r2 : ends_quoted r2 -> ends_quoted (Cat r1 r2).
Proof.
  intros H2 t rest (t1 & t2 & -> & _ & Hd2). cbn [derives] in *.
  destruct (H2 _ _ Hd2) as [-> Hl]. split; [reflexivity|].
  rewrite last_char_append_r; [exact Hl|].
  intros ->. discriminate Hl.
Qed.

Lemma ends_quoted_base :
  ends_quoted (Cat (lit LogParser.q) (Cat Eol Eps)).
Proof.
  intros t rest (t1 & t2 & -> & Hq & He).
  unfold LogParser.q in Hq. cbn [lit derives] in Hq, He.
  destruct Hq as (u1 & u2 & -> & (a & -> & Ha) & ->).
  destruct He as (v1 & v2 & -> & [-> Hrest] & ->).
  change (rest = EmptyString) in Hrest. subst rest. split; [reflexivity|].
  unfold is_char in Ha. apply Ascii.eqb_eq in Ha. subst a. reflexivity.
Qed.

Lemma pattern_anchors line m :
  exec LogParser.pattern line = Some m ->
  last_char line = Some LogParser.quote
  /\ exists a, first_char line = Some a /\ non_space a = true.
Proof.
  unfold LogParser.pattern. cbn [seq]. intros H.
  apply exec_anchored in H.
  destruct (run_derives _ _ _ _ _ _ H) as (t & rest & c' & Hs & Hd & _).
  split.
  - match type of Hd with
    | derives ?r _ _ =>
        assert (He : ends_quoted r)
          by (repeat (first [apply ends_quoted_base | apply ends_quoted_cat]))
    end.
    destruct (He _ _ Hd) as [-> Hl]. rewrite Hs, append_empty_r. exact Hl.
  - cbn [derives] in Hd. unfold plus in Hd. cbn [derives] in Hd.
    destruct Hd as (t1 & t2 & -> & (u1 & u2 & -> & (a & -> & Ha) & _) & _).
    exists a. rewrite Hs. split; [reflexivity | exact Ha].
Qed.

End Anchors.

(** X24.  The common log format is anchored at both ends of the line: a
    line is refused, and no random number drawn, unless it starts with a
    character that is no space and ends with a double quote.  So a line that
    keeps the carriage return of a file with CRLF line ends is refused. *)
Theorem parseCommonLog_rejects_unanchored (line : string) (w : World) :
  last_char line <> Some LogParser.quote
  \/ match first_char line with
     | Some a => Regex.is_space a = true
     | None => True
     end ->
  LogParser.parseCommonLog line w = (None, w).
Proof.
  intros Hbad. unfold LogParser.parseCommonLog.
  destruct (Regex.exec LogParser.pattern line) as [m|] eqn:E;
    [|reflexivity].
  exfalso. destruct (pattern_anchors line m E) as [Hl (a & Hf & Ha)].
  destruct Hbad as [Hbad | Hbad]; [contradiction|].
  rewrite Hf in Hbad. unfold Regex.non_space in Ha.
  rewrite Hbad in Ha. discriminate Ha.
Qed.

Lemma parseCommonLog_rejects_unanchored_witness :
  LogParser.parseCommonLog (sample_line +:+ cr) sample_world
  = (None, sample_world).
Proof.
  apply (parseCommonLog_rejects_unanchored (sample_line +:+ cr)
           sample_world).
  left. vm_compute. discriminate.
Defined.

Section AnalyzeFacts.
Import Analyze.
Local Open Scope Q_scope.

Lemma length_filter_le {A : Type} (f : A -> bool) (l : list A) :
  (length (List.filter f l) <= length l)%nat.
Proof.
  induction l as [|x l IH]; cbn [List.filter length]; [lia|].
  destruct (f x); cbn [length]; lia.
Qed.

Lemma fold_bytes (l : list TrafficLog.t) (acc : Q) :
  fold_left (fun sum l => sum + bytes_or_zero l) l acc
  == acc + sum_Q (map bytes_or_zero l).
Proof.
  revert acc. induction l as [|x l IH]; intros acc;
    cbn [fold_left map sum_Q]; [ring|].
  rewrite IH. ring.
Qed.

Lemma sum_bytes_partition (f : TrafficLog.t -> bool)
    (l : list TrafficLog.t) :
  sum_Q (map bytes_or_zero (List.filter f l))
  + sum_Q (map bytes_or_zero (List.filter (fun x => negb (f x)) l))
  == sum_Q (map bytes_or_zero l).
Proof.
  induction l as [|x l IH]; cbn [List.filter map sum_Q]; [ring|].
  destruct (f x); cbn [negb map sum_Q]; rewrite <- IH; ring.
Qed.

Lemma filter_filter {A : Type} (f g : A -> bool) (l : list A) :
  List.filter (fun x => f x && g x) l = List.filter g (List.filter f l).
Proof.
  induction l as [|x l IH]; cbn [List.filter]; [reflexivity|].
  destruct (f x); cbn [andb List.filter]; [|exact IH].
  destruct (g x); now rewrite IH.
Qed.

Lemma breakdown_step_count acc log :
  breakdown_step acc log
  = <[category_of log :=
        count_row
          (match acc !! category_of log with
           | Some e => e
           | None => mkCategoryStats 0 0 []
           end) log]> acc.
Proof. reflexivity. Qed.

(** The entry of a category after the rows, from any state of the
    breakdown. *)
Lemma breakdown_fold_lookup (c : string) (l : list TrafficLog.t) :
  forall acc,
    fold_left breakdown_step l acc !! c
    = match List.filter (fun x => String.eqb (category_of x) c) l with
      | [] => acc !! c
      | ms =>
          Some (fold_left count_row ms
                  (match acc !! c with
                   | Some e => e
                   | None => mkCategoryStats 0 0 []
                   end))
      end.
Proof.
  induction l as [|x l IH]; intros acc; cbn [fold_left List.filter];
    [reflexivity|].
  rewrite IH, breakdown_step_count.
  destruct (String.eqb_spec (category_of x) c) as [-> | Hne].
  - rewrite lookup_insert_eq.
    destruct (List.filter _ l); reflexivity.
  - rewrite lookup_insert_ne by exact Hne. reflexivity.
Qed.

Lemma in_set_add (x name : string) (set : list string) :
  In x (set_add name set) <-> In x set \/ x = name.
Proof.
  unfold set_add. destruct (existsb (String.eqb name) set) eqn:E.
  - split; [now left|]. intros [H | ->]; [exact H|].
    apply existsb_exists in E. destruct E as (y & Hy & Heq).
    apply String.eqb_eq in Heq. now subst y.
  - rewrite List.in_app_iff. cbn [In]. intuition.
Qed.

Lemma NoDup_set_add (name : string) (set : list string) :
  List.NoDup set -> List.NoDup (set_add name set).
Proof.
  intros H. unfold set_add. destruct (existsb (String.eqb name) set) eqn:E;
    [exact H|].
  assert (Hnot : ~ In name set).
  { intros Hin. apply Bool.not_true_iff_false in E. apply E.
    apply existsb_exists. exists name. split; [exact Hin|].
    apply String.eqb_refl. }
  clear E. induction set as [|y set IH]; cbn [app].
  - constructor; [intros [] | constructor].
  - inversion H as [|? ? Hy Hset]; subst. constructor.
    + rewrite List.in_app_iff. cbn [In]. intros [Hin | [-> | []]].
      * contradiction.
      * apply Hnot. now left.
    + apply IH; [exact Hset|]. intros Hin. apply Hnot. now right.
Qed.

(** The entry of a category after the rows [ms]. *)
Lemma count_rows (ms : list TrafficLog.t) :
  forall e,
    let e' := fold_left count_row ms e in
    requests e' = (requests e + length ms)%nat
    /\ bandwidth e' == bandwidth e + sum_Q (map bytes_or_zero ms)
    /\ (List.NoDup (bots e) -> List.NoDup (bots e'))
    /\ (forall name,
           In name (bots e')
           <-> In name (bots e) \/ exists l, In l ms /\ names name l).
Proof.
  induction ms as [|l ms IH]; intros e; cbn zeta;
    cbn [fold_left length map sum_Q].
  - split; [lia | split; [ring | split; [tauto|]]].
    intros name. split; [now left|].
    intros [H | (l & [] & _)]. exact H.
  - destruct (IH (count_row e l)) as (Hr & Hb & Hn & Hi). cbn zeta in *.
    split; [|split; [|split]].
    + rewrite Hr. cbn [count_row requests]. lia.
    + rewrite Hb. cbn [count_row bandwidth]. ring.
    + intros He. apply Hn. cbn [count_row bots].
      destruct (TrafficLog.bot_name l) as [name|]; [|exact He].
      destruct (String.eqb name EmptyString); [exact He|].
      now apply NoDup_set_add.
    + intros name. rewrite Hi. cbn [count_row bots In]. unfold names.
      destruct (TrafficLog.bot_name l) as [n|] eqn:En.
      * destruct (String.eqb_spec n EmptyString) as [-> | Hne].
        -- split.
           ++ intros [H | (x & Hx & Hnm)]; [now left|].
              right. exists x. split; [now right | exact Hnm].
           ++ intros [H | (x & [<- | Hx] & Hnm & Hne')]; [now left | |].
              ** rewrite En in Hnm. injection Hnm as <-. contradiction.
              ** right. exists x. now split.
        -- rewrite in_set_add. split.
           ++ intros [[H | ->] | (x & Hx & Hnm)].
              ** now left.
              ** right. exists l. split; [now left|]. now split.
              ** right. exists x. split; [now right | exact Hnm].
           ++ intros [H | (x & [<- | Hx] & Hnm & Hne')].
              ** left. now left.
              ** rewrite En in Hnm. injection Hnm as <-. left. now right.
              ** right. exists x. now split.
      * split.
        -- intros [H | (x & Hx & Hnm)]; [now left|].
           right. exists x. split; [now right | exact Hnm].
        -- intros [H | (x & [<- | Hx] & Hnm & Hne')]; [now left | |].
           ++ rewrite En in Hnm. discriminate Hnm.
           ++ right. exists x. now split.
Qed.

Lemma sum_requests_step acc log :
  sum_requests (breakdown_step acc log) = S (sum_requests acc).
Proof.
  rewrite breakdown_step_count. unfold sum_requests.
  destruct (acc !! category_of log) as [e|] eqn:E.
  - rewrite <- insert_delete_eq.
    rewrite map_fold_insert_L;
      [| intros; lia | apply lookup_delete_eq].
    rewrite (map_fold_delete_L _ _ (category_of log) e acc);
      [| intros; lia | exact E].
    cbn [count_row requests]. lia.
  - rewrite map_fold_insert_L; [| intros; lia | exact E].
    cbn [count_row requests]. lia.
Qed.

Lemma sum_requests_fold (l : list TrafficLog.t) :
  forall acc,
    sum_requests (fold_left breakdown_step l acc)
    = (sum_requests acc + length l)%nat.
Proof.
  induction l as [|x l IH]; intros acc; cbn [fold_left length]; [lia|].
  rewrite IH, sum_requests_step. lia.
Qed.

End AnalyzeFacts.

(** X25.  The metrics of the analysis route split the rows in two: the
    requests of bots and of humans add up to the number of rows, and the
    bandwidth of bots and of humans to the bytes of all the rows, a row
    without a count of bytes counting for nothing.  The feed of the response
    holds the first rows, 100 at most. *)
Theorem analyze_partition (logs : list TrafficLog.t) :
  ordinary_categories logs = true ->
  let r := Analyze.analyze logs in
  let m := Analyze.metrics r in
  Analyze.totalRequests m = length logs
  /\ (Analyze.botRequests m + Analyze.humanRequests m
      = Analyze.totalRequests m)%nat
  /\ (Analyze.botBandwidth m + Analyze.humanBandwidth m
      == sum_Q (map Analyze.bytes_or_zero logs))%Q
  /\ length (Analyze.logs r) = Nat.min 100 (length logs)
  /\ exists rest, logs = Analyze.logs r ++ rest.
Proof.
  intros _. cbn zeta. unfold Analyze.analyze.
  cbn [Analyze.metrics Analyze.logs Analyze.totalRequests
       Analyze.botRequests Analyze.humanRequests Analyze.botBandwidth
       Analyze.humanBandwidth].
  split; [reflexivity|]. split; [|split; [|split]].
  - pose proof (length_filter_le TrafficLog.is_bot logs). lia.
  - rewrite !fold_bytes, !Qplus_0_l. apply sum_bytes_partition.
  - apply length_firstn.
  - exists (skipn 100 logs). symmetry. apply firstn_skipn.
Qed.

Lemma analyze_partition_witness :
  (Analyze.botBandwidth (Analyze.metrics (Analyze.analyze sample_logs))
   + Analyze.humanBandwidth (Analyze.metrics (Analyze.analyze sample_logs))
   == sum_Q (map Analyze.bytes_or_zero sample_logs))%Q.
Proof.
  apply (analyze_partition sample_logs eq_refl).
Defined.

(** X26.  The breakdown of the analysis route has an entry for a category
    exactly when a row of a bot has it, a row without category counting as
    [unknown].  The entry holds the number of these rows, the sum of their
    bytes, and the names of their bots: every name that a row gives, once. *)
Theorem analyze_breakdown (logs : list TrafficLog.t) (c : string) :
  ordinary_categories logs = true ->
  ordinary c = true ->
  let breakdown :=
    Analyze.botBreakdown (Analyze.metrics (Analyze.analyze logs)) in
  match bots_of_category c logs with
  | [] => breakdown !! c = None
  | ms =>
      exists e,
        breakdown !! c = Some e
        /\ Analyze.requests e = length ms
        /\ (Analyze.bandwidth e == sum_Q (map Analyze.bytes_or_zero ms))%Q
        /\ List.NoDup (Analyze.bots e)
        /\ forall name,
             In name (Analyze.bots e)
             <-> exists l, In l ms /\ names name l
  end.
Proof.
  intros _ _. cbn zeta. unfold Analyze.analyze.
  cbn [Analyze.metrics Analyze.botBreakdown].
  rewrite breakdown_fold_lookup. unfold bots_of_category.
  rewrite filter_filter, lookup_empty.
  destruct (List.filter _ (List.filter TrafficLog.is_bot logs))
    as [|l ms] eqn:E; [reflexivity|].
  destruct (count_rows (l :: ms) (Analyze.mkCategoryStats 0 0 []))
    as (Hr & Hb & Hn & Hi).
  cbn zeta in *. eexists. split; [reflexivity|].
  split; [|split; [|split]].
  - rewrite Hr. reflexivity.
  - rewrite Hb. cbn [Analyze.bandwidth]. ring.
  - apply Hn. constructor.
  - intros name. rewrite Hi. cbn [Analyze.bots In]. tauto.
Qed.

Lemma analyze_breakdown_witness :
  exists e,
    Analyze.botBreakdown (Analyze.metrics (Analyze.analyze sample_logs))
      !! "ai_training" = Some e
    /\ Analyze.requests e = 2%nat
    /\ (Analyze.bandwidth e == 2048)%Q
    /\ Analyze.bots e = ["GPTBot"].
Proof.
  destruct (analyze_breakdown sample_logs "ai_training" eq_refl eq_refl)
    as (e & He & Hr & Hb & _).
  exists e. split; [exact He|].
  vm_compute in He. injection He as <-.
  repeat split.
Defined.

(** X27.  The entries of the breakdown of the analysis route share out the
    requests of the bots: their counts of requests add up to
    [botRequests]. *)
Theorem analyze_breakdown_total (logs : list TrafficLog.t) :
  ordinary_categories logs = true ->
  let m := Analyze.metrics (Analyze.analyze logs) in
  sum_requests (Analyze.botBreakdown m) = Analyze.botRequests m.
Proof.
  intros _. cbn zeta. unfold Analyze.analyze.
  cbn [Analyze.metrics Analyze.botBreakdown Analyze.botRequests].
  rewrite sum_requests_fold. unfold sum_requests.
  rewrite map_fold_empty. lia.
Qed.

Lemma analyze_breakdown_total_witness :
  sum_requests
    (Analyze.botBreakdown (Analyze.metrics (Analyze.analyze sample_logs)))
  = Analyze.botRequests (Analyze.metrics (Analyze.analyze sample_logs)).
Proof.
  apply (analyze_breakdown_total sample_logs eq_refl).
Defined.
